(** * bem-smoke: the TechTest session, StubLevel and testTech

    A shallow embedding of [lib/tech-test.js] (both revisions found in the
    sources), [lib/stub-level.js] and [index.js].

    A test body is a synchronous sequence of method calls on one TechTest
    object; the calls accumulate a promise chain in [_promise], and the
    event loop settles that chain once the body has returned.  The embedding
    follows that split: the methods are state transformers that may throw,
    and [settle] is what the event loop does to a promise. *)

From Stdlib Require Import ZArith Ascii String List Lia.
From stdpp Require Import gmap strings list fin_maps.

Local Set Warnings "-register-all".

(** ** JavaScript values *)

(** The values a test author can put into a mock table, hand over as an
    entity or a declaration, or get back from a promise. *)
Inductive JsValue : Type :=
| JsUndefined
| JsNull
| JsBoolean (b : bool)
| JsNumber (n : Z)
| JsNaN
| JsString (s : string)
| JsFunction (name : string)
| JsObject (props : list (string * JsValue)).

(** ToBoolean: what [if (v)], [v || w] and [!v] look at. *)
Definition truthy (v : JsValue) : bool :=
  match v with
  | JsUndefined | JsNull | JsNaN => false
  | JsBoolean b => b
  | JsNumber n => negb (n =? 0)%Z
  | JsString s => negb (String.eqb s "")
  | JsFunction _ | JsObject _ => true
  end.

(** [obj[key]] on a plain object: a missing key reads as [undefined]. *)
Definition prop (obj : gmap string JsValue) (key : string) : JsValue :=
  default JsUndefined (obj !! key).

(** String concatenation with a possibly undefined operand. *)
Definition str (s : option string) : string := default "undefined" s.

(** The line feed, JavaScript's ['\n']. *)
Definition LF : string := String "010"%char "".

(** [Array.prototype.join.call(arguments, sep)] on string arguments. *)
Fixpoint join (sep : string) (parts : list string) : string :=
  match parts with
  | [] => ""
  | [s] => s
  | s :: rest => s +:+ sep +:+ join sep rest
  end.

(** ** Errors and settled promises *)

Inductive JsError : Type :=
| PlainError (message : string)        (* new Error(message) *)
| TypeError (message : string)         (* member access on undefined *)
| AssertionError (message : string)    (* chai *)
| NotFoundError (path : string)        (* the virtual filesystem *)
| Raised (v : JsValue).                (* whatever foreign code throws *)

Inductive Settled : Type :=
| Fulfilled (v : JsValue)
| Rejected (e : JsError).

(** [function merge(obj1, obj2)]: the keys of [obj1 || {}], then those of
    [obj2 || {}] written over them.  stdpp's union keeps the left operand
    on a clash, hence [obj2] on the left. *)
Definition merge {A} (obj1 obj2 : option (gmap string A)) : gmap string A :=
  default ∅ obj2 ∪ default ∅ obj1.

(** ** The virtual filesystem *)

(** Modelled from the spec: the virtual filesystem is the [q-io/fs-mock]
    package, which is not among the sources.  Section 4.1 of the spec gives
    its contract: a tree built from a nested description, [exists] that
    never fails, [read] and [lastModified] that fail with a NotFoundError on
    an absent path, and [open] whose handle, once closed, finalizes the
    timestamps without altering content.  The tree is kept as a map from
    absolute path to node. *)
Inductive FsNode : Type :=
| File (content : string) (mtime atime : Z)
| Directory.

(** The nested description handed to [withSourceFiles]. *)
Inductive FsTree : Type :=
| FsFile (content : string)
| FsDir (entries : list (string * FsTree)).

(** Modelled from the spec: how the tree is laid out from the nested
    description, objects as directories and strings as files. *)
Fixpoint plant (now : Z) (at_ : string) (t : FsTree)
    (fs : gmap string FsNode) : gmap string FsNode :=
  match t with
  | FsFile c => <[at_ := File c now now]> fs
  | FsDir entries =>
      (fix each (es : list (string * FsTree)) (fs : gmap string FsNode) :=
         match es with
         | [] => fs
         | (name, sub) :: rest => each rest (plant now (at_ +:+ "/" +:+ name) sub fs)
         end) entries (<[at_ := Directory]> fs)
  end.

Module QFSMock.

(** Modelled from the spec: [new QFSMock(tree)], the tree built from a
    nested description, every node stamped with the time of construction. *)
Definition create (now : Z) (tree : list (string * FsTree)) : gmap string FsNode :=
  <["/" := Directory]> (delete "" (plant now "" (FsDir tree) ∅)).

(** Modelled from the spec: [exists(path)] never fails; a missing path
    yields false. *)
Definition exists_ (fs : gmap string FsNode) (path : string) : bool :=
  bool_decide (is_Some (fs !! path)).

(** Modelled from the spec: [read(path)] fails with a NotFoundError if
    the path is absent or is a directory. *)
Definition read (fs : gmap string FsNode) (path : string) : JsError + string :=
  match fs !! path with
  | Some (File c _ _) => inr c
  | _ => inl (NotFoundError path)
  end.

(** Modelled from the spec: [read] handed a path that may be
    [undefined], as the item of [withContent] hands it the file name it
    captured: [undefined] names no node, so the read fails as for any
    other absent path. *)
Definition read_path (fs : gmap string FsNode) (path : option string)
    : JsError + string :=
  match path with
  | Some p => read fs p
  | None => inl (NotFoundError (str None))
  end.

(** Modelled from the spec: [lastModified(path)] is the timestamp of the
    last write or touch, and fails with a NotFoundError if the path is
    absent; the spec's nodes keep no timestamp for a directory. *)
Definition lastModified (fs : gmap string FsNode) (path : string) : JsError + Z :=
  match fs !! path with
  | Some (File _ m _) => inr m
  | _ => inl (NotFoundError path)
  end.

(** Modelled from the spec: [open(path, 'w+')] yields a writable handle on
    the file, here the path it was opened on; a touch of an absent path is
    a NotFoundError. *)
Definition open (fs : gmap string FsNode) (path : string) : JsError + string :=
  match fs !! path with
  | Some (File _ _ _) => inr path
  | _ => inl (NotFoundError path)
  end.

(** Modelled from the spec: [stream.close()] finalizes the timestamps and
    leaves the content as it is. *)
Definition close (now : Z) (fs : gmap string FsNode) (handle : string)
    : gmap string FsNode :=
  match fs !! handle with
  | Some (File c _ _) => <[handle := File c now now]> fs
  | _ => fs
  end.

End QFSMock.

(** Everything foreign code can reach while it runs: the virtual
    filesystems that exist, by object identity, and the wall clock. *)
Record Sandbox : Type := {
  store : gmap nat (gmap string FsNode);
  clock : Z
}.

Definition vfs (sb : Sandbox) (fs : nat) : gmap string FsNode :=
  default ∅ (store sb !! fs).

Definition put_vfs (fs : nat) (tree : gmap string FsNode) (sb : Sandbox) : Sandbox :=
  {| store := <[fs := tree]> (store sb); clock := clock sb |}.

(** ** lib/stub-level.js *)

Module Level.
(** bem's [Level], the base class: of its constructor only the recording
    of the path and of [opts.projectRoot] is used here. *)
Record t : Type := { dir : string; projectRoot : string }.
Definition __constructor (path : string) (optsProjectRoot : string) : t :=
  {| dir := path; projectRoot := optsProjectRoot |}.
End Level.

Module StubLevel.

Record t : Type := {
  identity : nat;                 (* which object this is *)
  base : Level.t;
  _techMap : gmap string string
}.

Definition __constructor (identity : nat) (path : string)
    (techMap : gmap string string) : t :=
  {| identity := identity;
     base := Level.__constructor path "/";
     _techMap := techMap |}.

Definition getTechs (this : t) : gmap string string := _techMap this.

End StubLevel.

(** ** The promise chain *)

(** Work behind a promise: what it does to the sandbox, and what the
    promise settles to, [None] when it stays pending for ever. *)
Abbreviation Work := (Sandbox -> Sandbox * option Settled).

(** What a technology method, or any other foreign function, does when it
    is called: it throws, or it returns a promise. *)
Inductive Invocation : Type :=
| Throws (e : JsError)
| Promises (work : Work).

(** The deferred operations: one constructor per function literal handed
    to [_enqueue], with the variables the literal closes over. *)
Inductive ChainOp : Type :=
| TouchFile (path : string)
| Create (elem : JsValue) (level : option StubLevel.t)
| Build (output : string) (decl : JsValue)
| ProducesFile (path : string)
| WithContent (fileName content : option string)
| WritesToFile (path : string)
| NotWritesToFile (path : string)
| Asserts (callback : Work)
| LegacyCreate (elem : JsValue) (level : option StubLevel.t)
| LegacyBuild (output : string) (decl : JsValue).

(** The promise a chain item returns when it is called, with the arguments
    as they were evaluated at that moment. *)
Inductive Pending : Type :=
| Touching (fs : nat) (path : string)
| Working (work : Work)
| EventuallyIsTrue (fs : nat) (path : string) (message : string)
| EventuallyEqual (fs : nat) (fileName expected : option string) (message : string)
| EventuallyOperator (fs : nat) (path : string) (operator : string)
    (bound : option Z) (message : string).

(** A promise object is kept as the term that says how it will be settled:
    [Returned op work] is what [call()] returned, [Then p op] is
    [p.then(call)], and [Observed p done] is [p] after
    [p.then(done, done)] registered [done] on it. *)
Inductive Promise : Type :=
| Returned (op : ChainOp) (work : Pending)
| Then (p : Promise) (op : ChainOp)
| Observed (p : Promise) (done : string).

(** The substitutes a module is loaded with. *)
Inductive Mock : Type :=
| AuthorMock (v : JsValue)
| QfsMock (fs : option nat)
| SyncFsMock (identity : nat) (fs : option nat).      (* new FSMock(fs) *)

Record MockOpts : Type := {
  mocks : gmap string Mock;
  resolves : option (gmap string string);
  ignoreMocks : list string
}.

(** The kinds of object the lazy load constructs. *)
Inductive Resource : Type :=
| RQFSMock | RFSMock | RStubLevel | RContext | RTech.

(** A journal of what happened, kept beside the program state so that
    order and multiplicity can be stated. *)
Inductive Event : Type :=
| Constructed (what : Resource) (identity : nat)
| Required (target : string) (opts : MockOpts)
| Started (op : ChainOp)
| Finished (op : ChainOp) (r : Settled)
| Called (done : string) (r : Settled).

(** ** The session object and its surroundings *)

Record ContextOpts : Type := {
  root : option string;
  level : option (list StubLevel.t);
  levels : option (list StubLevel.t);
  declaration : option JsValue;
  tech : list string
}.

(** bem's [Context], as far as the session uses it: constructed from a
    level and options, asked once for a technology. *)
Record Context : Type := {
  contextId : nat;
  primary : option StubLevel.t;
  options : ContextOpts;
  loadedWith : MockOpts
}.

Record TechInstance : Type := {
  techId : nat;
  techName : string;
  context : nat
}.

(** The technology module under test, as loaded inside the sandbox. *)
Record TechModule : Type := {
  createByDecl : TechInstance -> JsValue -> option StubLevel.t -> Invocation;
  buildByDecl : TechInstance -> JsValue -> option (list StubLevel.t) -> string -> Invocation
}.

(** The fields of a TechTest object; [None] is a field never assigned. *)
Record TechTest : Type := {
  _techName : string;
  _modulePath : string;
  _sources : option (list (string * FsTree));
  _mockedModules : option (gmap string JsValue);
  _mockedResolves : option (gmap string string);
  _levelPaths : option (list string);
  _techMap : option (gmap string string);
  _fs : option nat;
  _levels : option (list StubLevel.t);
  _context : option Context;
  _tech : option TechInstance;
  _buildDecl : option JsValue;
  _testStartTime : option Z;
  _lastFileName : option string;
  _promise : option Promise
}.

Record Runtime : Type := {
  sandbox : Sandbox;
  nextId : nat;
  technology : TechModule;
  journal : list Event
}.

Record State : Type := { self : TechTest; world : Runtime }.

(** Field assignment, [this.f = v], one function per field assigned
    anywhere in the class. *)
Definition set_sources (v : option (list (string * FsTree))) (t : TechTest) : TechTest :=
  {| _techName := _techName t; _modulePath := _modulePath t; _sources := v;
     _mockedModules := _mockedModules t;
     _mockedResolves := _mockedResolves t; _levelPaths := _levelPaths t;
     _techMap := _techMap t; _fs := _fs t; _levels := _levels t;
     _context := _context t; _tech := _tech t; _buildDecl := _buildDecl t;
     _testStartTime := _testStartTime t; _lastFileName := _lastFileName t;
     _promise := _promise t |}.

Definition set_mockedModules (v : option (gmap string JsValue)) (t : TechTest) : TechTest :=
  {| _techName := _techName t; _modulePath := _modulePath t;
     _sources := _sources t; _mockedModules := v;
     _mockedResolves := _mockedResolves t; _levelPaths := _levelPaths t;
     _techMap := _techMap t; _fs := _fs t; _levels := _levels t;
     _context := _context t; _tech := _tech t; _buildDecl := _buildDecl t;
     _testStartTime := _testStartTime t; _lastFileName := _lastFileName t;
     _promise := _promise t |}.

Definition set_mockedResolves (v : option (gmap string string)) (t : TechTest) : TechTest :=
  {| _techName := _techName t; _modulePath := _modulePath t;
     _sources := _sources t; _mockedModules := _mockedModules t;
     _mockedResolves := v; _levelPaths := _levelPaths t;
     _techMap := _techMap t; _fs := _fs t; _levels := _levels t;
     _context := _context t; _tech := _tech t; _buildDecl := _buildDecl t;
     _testStartTime := _testStartTime t; _lastFileName := _lastFileName t;
     _promise := _promise t |}.

Definition set_levelPaths (v : option (list string)) (t : TechTest) : TechTest :=
  {| _techName := _techName t; _modulePath := _modulePath t;
     _sources := _sources t; _mockedModules := _mockedModules t;
     _mockedResolves := _mockedResolves t; _levelPaths := v;
     _techMap := _techMap t; _fs := _fs t; _levels := _levels t;
     _context := _context t; _tech := _tech t; _buildDecl := _buildDecl t;
     _testStartTime := _testStartTime t; _lastFileName := _lastFileName t;
     _promise := _promise t |}.

Definition set_techMap (v : option (gmap string string)) (t : TechTest) : TechTest :=
  {| _techName := _techName t; _modulePath := _modulePath t;
     _sources := _sources t; _mockedModules := _mockedModules t;
     _mockedResolves := _mockedResolves t; _levelPaths := _levelPaths t;
     _techMap := v; _fs := _fs t; _levels := _levels t;
     _context := _context t; _tech := _tech t; _buildDecl := _buildDecl t;
     _testStartTime := _testStartTime t; _lastFileName := _lastFileName t;
     _promise := _promise t |}.

Definition set_fs (v : option nat) (t : TechTest) : TechTest :=
  {| _techName := _techName t; _modulePath := _modulePath t;
     _sources := _sources t; _mockedModules := _mockedModules t;
     _mockedResolves := _mockedResolves t; _levelPaths := _levelPaths t;
     _techMap := _techMap t; _fs := v; _levels := _levels t;
     _context := _context t; _tech := _tech t; _buildDecl := _buildDecl t;
     _testStartTime := _testStartTime t; _lastFileName := _lastFileName t;
     _promise := _promise t |}.

Definition set_levels (v : option (list StubLevel.t)) (t : TechTest) : TechTest :=
  {| _techName := _techName t; _modulePath := _modulePath t;
     _sources := _sources t; _mockedModules := _mockedModules t;
     _mockedResolves := _mockedResolves t; _levelPaths := _levelPaths t;
     _techMap := _techMap t; _fs := _fs t; _levels := v;
     _context := _context t; _tech := _tech t; _buildDecl := _buildDecl t;
     _testStartTime := _testStartTime t; _lastFileName := _lastFileName t;
     _promise := _promise t |}.

Definition set_context (v : option Context) (t : TechTest) : TechTest :=
  {| _techName := _techName t; _modulePath := _modulePath t;
     _sources := _sources t; _mockedModules := _mockedModules t;
     _mockedResolves := _mockedResolves t; _levelPaths := _levelPaths t;
     _techMap := _techMap t; _fs := _fs t; _levels := _levels t;
     _context := v; _tech := _tech t; _buildDecl := _buildDecl t;
     _testStartTime := _testStartTime t; _lastFileName := _lastFileName t;
     _promise := _promise t |}.

Definition set_tech (v : option TechInstance) (t : TechTest) : TechTest :=
  {| _techName := _techName t; _modulePath := _modulePath t;
     _sources := _sources t; _mockedModules := _mockedModules t;
     _mockedResolves := _mockedResolves t; _levelPaths := _levelPaths t;
     _techMap := _techMap t; _fs := _fs t; _levels := _levels t;
     _context := _context t; _tech := v; _buildDecl := _buildDecl t;
     _testStartTime := _testStartTime t; _lastFileName := _lastFileName t;
     _promise := _promise t |}.

Definition set_buildDecl (v : option JsValue) (t : TechTest) : TechTest :=
  {| _techName := _techName t; _modulePath := _modulePath t;
     _sources := _sources t; _mockedModules := _mockedModules t;
     _mockedResolves := _mockedResolves t; _levelPaths := _levelPaths t;
     _techMap := _techMap t; _fs := _fs t; _levels := _levels t;
     _context := _context t; _tech := _tech t; _buildDecl := v;
     _testStartTime := _testStartTime t; _lastFileName := _lastFileName t;
     _promise := _promise t |}.

Definition set_testStartTime (v : option Z) (t : TechTest) : TechTest :=
  {| _techName := _techName t; _modulePath := _modulePath t;
     _sources := _sources t; _mockedModules := _mockedModules t;
     _mockedResolves := _mockedResolves t; _levelPaths := _levelPaths t;
     _techMap := _techMap t; _fs := _fs t; _levels := _levels t;
     _context := _context t; _tech := _tech t; _buildDecl := _buildDecl t;
     _testStartTime := v; _lastFileName := _lastFileName t;
     _promise := _promise t |}.

Definition set_lastFileName (v : option string) (t : TechTest) : TechTest :=
  {| _techName := _techName t; _modulePath := _modulePath t;
     _sources := _sources t; _mockedModules := _mockedModules t;
     _mockedResolves := _mockedResolves t; _levelPaths := _levelPaths t;
     _techMap := _techMap t; _fs := _fs t; _levels := _levels t;
     _context := _context t; _tech := _tech t; _buildDecl := _buildDecl t;
     _testStartTime := _testStartTime t; _lastFileName := v;
     _promise := _promise t |}.

Definition set_promise (v : option Promise) (t : TechTest) : TechTest :=
  {| _techName := _techName t; _modulePath := _modulePath t;
     _sources := _sources t; _mockedModules := _mockedModules t;
     _mockedResolves := _mockedResolves t; _levelPaths := _levelPaths t;
     _techMap := _techMap t; _fs := _fs t; _levels := _levels t;
     _context := _context t; _tech := _tech t; _buildDecl := _buildDecl t;
     _testStartTime := _testStartTime t; _lastFileName := _lastFileName t;
     _promise := v |}.

Definition set_sandbox (sb : Sandbox) (rt : Runtime) : Runtime :=
  {| sandbox := sb; nextId := nextId rt;
     technology := technology rt; journal := journal rt |}.

Definition record (ev : Event) (rt : Runtime) : Runtime :=
  {| sandbox := sandbox rt; nextId := nextId rt;
     technology := technology rt; journal := journal rt ++ [ev] |}.

Definition fresh (what : Resource) (rt : Runtime) : Runtime :=
  {| sandbox := sandbox rt; nextId := S (nextId rt);
     technology := technology rt;
     journal := journal rt ++ [Constructed what (nextId rt)] |}.

(** ** Method calls: state, and exceptions *)

Inductive Completion (A : Type) : Type :=
| Normal (a : A) (st : State)
| Throw (e : JsError) (st : State).
Arguments Normal {A} a st.
Arguments Throw {A} e st.

Definition M (A : Type) : Type := State -> Completion A.

Definition ret {A} (a : A) : M A := fun st => Normal a st.

Definition throw {A} (e : JsError) : M A := fun st => Throw e st.

Definition bind {A B} (m : M A) (k : A -> M B) : M B :=
  fun st =>
    match m st with
    | Normal a st' => k a st'
    | Throw e st' => Throw e st'
    end.

Notation "x <- m ;; k" := (bind m (fun x => k))
  (at level 100, m at next level, right associativity).
Notation "m ;; k" := (bind m (fun _ => k))
  (at level 100, right associativity).

Definition this : M TechTest := fun st => Normal (self st) st.

Definition runtime : M Runtime := fun st => Normal (world st) st.

Definition assign (f : TechTest -> TechTest) : M unit :=
  fun st => Normal tt {| self := f (self st); world := world st |}.

Definition effect (f : Runtime -> Runtime) : M unit :=
  fun st => Normal tt {| self := self st; world := f (world st) |}.

Definition log (ev : Event) : M unit := effect (record ev).

(** [new C(...)]: the next object identity, and a journal entry. *)
Definition alloc (what : Resource) : M nat :=
  rt <- runtime;; effect (fresh what);; ret (nextId rt).

(** [new Date().getTime()] *)
Definition now : M Z := rt <- runtime;; ret (clock (sandbox rt)).

(** Member access [this.f.member] on a field that may be undefined. *)
Definition member {A} (field : option A) (name : string) : M A :=
  match field with
  | Some a => ret a
  | None => throw (TypeError ("Cannot read property '" +:+ name +:+ "' of undefined"))
  end.

(** [requireMocked(require.resolve(target), opts)]: the target is loaded
    with the substitutes of [opts] in place of the modules they name. *)
Definition requireMocked (target : string) (opts : MockOpts) : M unit :=
  log (Required target opts).

Fixpoint mapM {A B} (f : A -> M B) (l : list A) : M (list B) :=
  match l with
  | [] => ret []
  | a :: rest => b <- f a;; bs <- mapM f rest;; ret (b :: bs)
  end.

(** ** lib/tech-test.js, the current revision *)

Definition __constructor (techName modulePath : string) : TechTest :=
  {| _techName := techName; _modulePath := modulePath;
     _sources := None; _mockedModules := None; _mockedResolves := None;
     _levelPaths := None; _techMap := None; _fs := None; _levels := None;
     _context := None; _tech := None; _buildDecl := None;
     _testStartTime := None; _lastFileName := None; _promise := None |}.

Definition withSourceFiles (sources : list (string * FsTree)) : M unit :=
  assign (set_sources (Some sources)).

Definition QUOTE : string := String "034"%char "".

Definition already_mocked : string :=
  QUOTE +:+ "fs" +:+ QUOTE +:+ ", " +:+ QUOTE +:+ "q-fs" +:+ QUOTE +:+ " and "
  +:+ QUOTE +:+ "q-io/fs" +:+ QUOTE
  +:+ " modules are already mocked. Use .withSourceFiles method".

Definition withMockedModules (modules : gmap string JsValue) : M unit :=
  if truthy (prop modules "fs") || truthy (prop modules "q-fs")
     || truthy (prop modules "q-io/fs")
  then throw (PlainError already_mocked)
  else
    t <- this;;
    assign (set_mockedModules (Some (merge (_mockedModules t) (Some modules)))).

Definition withMockedModulesResolves (modulePaths : gmap string string) : M unit :=
  t <- this;;
  assign (set_mockedResolves (Some (merge (_mockedResolves t) (Some modulePaths)))).

Definition withLevels (levels : list string) : M unit :=
  assign (set_levelPaths (Some levels)).

Definition withLevel (level : string) : M unit := withLevels [level].

Definition withTechMap (techMap : gmap string string) : M unit :=
  assign (set_techMap (Some techMap)).

(** What a foreign call hands back to the chain item that made it. *)
Definition foreign (i : Invocation) : M Pending :=
  match i with
  | Throws e => throw e
  | Promises work => ret (Working work)
  end.

(** Calling a chain item: the body of each function literal, up to the
    promise it returns. *)
Definition invoke (op : ChainOp) : M Pending :=
  log (Started op);;
  match op with
  | TouchFile path =>
      t <- this;; fs <- member (_fs t) "open";;
      ret (Touching fs path)
  | Create elem level =>
      t0 <- now;; assign (set_testStartTime (Some t0));;
      t <- this;; tech <- member (_tech t) "createByDecl";;
      rt <- runtime;;
      foreign (createByDecl (technology rt) tech elem level)
  | Build output decl =>
      t0 <- now;; assign (set_testStartTime (Some t0));;
      t <- this;; tech <- member (_tech t) "buildByDecl";;
      rt <- runtime;;
      foreign (buildByDecl (technology rt) tech decl (_levels t) output)
  | ProducesFile path =>
      t <- this;; fs <- member (_fs t) "exists";;
      ret (EventuallyIsTrue fs path ("expected tech to produce file " +:+ path))
  | WithContent fileName content =>
      t <- this;; fs <- member (_fs t) "read";;
      ret (EventuallyEqual fs fileName content
             ("expected file " +:+ str (_lastFileName t)
              +:+ " to have content " +:+ str content))
  | WritesToFile path =>
      t <- this;; fs <- member (_fs t) "lastModified";;
      ret (EventuallyOperator fs path ">" (_testStartTime t)
             ("Expected file " +:+ path +:+ " to be modifed"))
  | NotWritesToFile path =>
      t <- this;; fs <- member (_fs t) "lastModified";;
      ret (EventuallyOperator fs path "<=" (_testStartTime t)
             ("Expected file " +:+ path +:+ " not to be modifed"))
  | Asserts callback =>
      ret (Working callback)
  | LegacyCreate elem level =>
      t <- this;; tech <- member (_tech t) "createByDecl";;
      rt <- runtime;;
      foreign (createByDecl (technology rt) tech elem level)
  | LegacyBuild output decl =>
      t <- this;; tech <- member (_tech t) "buildByDecl";;
      rt <- runtime;;
      foreign (buildByDecl (technology rt) tech decl (_levels t) output)
  end.

Definition _enqueue (call : ChainOp) : M unit :=
  t <- this;;
  match _promise t with
  | None =>
      p <- invoke call;;
      assign (set_promise (Some (Returned call p)))
  | Some p =>
      assign (set_promise (Some (Then p call)))
  end.

Definition touchFile (path : string) : M unit := _enqueue (TouchFile path).

Definition _getMocks : M (gmap string Mock) :=
  t <- this;;
  sync <- alloc RFSMock;;
  ret (merge ((fun table : gmap string JsValue => AuthorMock <$> table)
                <$> _mockedModules t)
         (Some (<["q-io/fs" := QfsMock (_fs t)]>
                (<["q-fs" := QfsMock (_fs t)]>
                 (<["fs" := SyncFsMock sync (_fs t)]> ∅))))).

(** [this._tech = this._context.getTech(this._techName)].  [getTech] is
    bem's, outside the sources; it is taken to return, and the instance it
    returns is kept as a new object that remembers its context.  A
    [getTech] that throws is not modelled. *)
Definition _loadTech : M unit :=
  t <- this;;
  ctx <- member (_context t) "getTech";;
  id <- alloc RTech;;
  assign (set_tech (Some {| techId := id; techName := _techName t;
                            context := contextId ctx |})).

Definition _loadLevels (opts : MockOpts) : M unit :=
  requireMocked "./stub-level" opts;;
  t <- this;;
  let levelPaths := default ["/"] (_levelPaths t) in
  assign (set_levelPaths (Some levelPaths));;
  let techMap := <[_techName t := _modulePath t]> (default ∅ (_techMap t)) in
  assign (set_techMap (Some techMap));;
  levels <- mapM (fun path => id <- alloc RStubLevel;;
                              ret (StubLevel.__constructor id path techMap))
                 levelPaths;;
  assign (set_levels (Some levels)).

(** [Object.keys(this._techMap).map(key => this._techMap[key])] *)
Definition paths_of (techMap : gmap string string) : list string :=
  (map_to_list techMap).*2.

(** Loading bem and constructing the [Context] are bem's code, outside
    the sources; both are taken to return, and the context is kept as a new
    object that remembers what it was constructed with.  A constructor that
    throws, which would end [_load] with the filesystem and the levels
    assigned and the context and the technology not, is not modelled: what
    is proved of [_load] is proved of the loads that bem lets through. *)
Definition _loadContext (mockOpts : MockOpts) : M unit :=
  requireMocked "bem" mockOpts;;
  t <- this;;
  levels <- member (_levels t) "0";;
  techMap <- member (_techMap t) "keys";;
  let opts := {| root := Some "/";
                 level := Some levels;
                 levels := None;
                 declaration := Some (default JsUndefined (_buildDecl t));
                 tech := paths_of techMap |} in
  id <- alloc RContext;;
  assign (set_context (Some {| contextId := id; primary := head levels;
                               options := opts; loadedWith := mockOpts |})).

Definition ignoredMocks : list string :=
  ["winston"; "mime"; "node.extend"; "uglify-js"; "insight"].

Definition _load : M unit :=
  t <- this;;
  fs <- match _fs t with
        | Some fs => ret fs
        | None =>
            fs <- alloc RQFSMock;;
            at_ <- now;;
            effect (fun rt => set_sandbox
                      (put_vfs fs (QFSMock.create at_ (default [] (_sources t)))
                         (sandbox rt)) rt);;
            ret fs
        end;;
  assign (set_fs (Some fs));;
  table <- _getMocks;;
  t <- this;;
  let opts := {| mocks := table; resolves := _mockedResolves t;
                 ignoreMocks := ignoredMocks |} in
  _loadLevels opts;;
  _loadContext opts;;
  _loadTech.

Definition create (elem : JsValue) : M unit :=
  _load;;
  t <- this;;
  levels <- member (_levels t) "0";;
  _enqueue (Create elem (head levels)).

Definition build (output : string) (decl : JsValue) : M unit :=
  assign (set_buildDecl (Some decl));;
  _load;;
  _enqueue (Build output decl).

Definition producesFile (path : string) : M unit :=
  assign (set_lastFileName (Some path));;
  _enqueue (ProducesFile path).

Definition withContent (arguments : list string) : M unit :=
  t <- this;;
  let fileName := _lastFileName t in
  let content := if decide (1 < length arguments)
                 then Some (join LF arguments)
                 else head arguments in
  _enqueue (WithContent fileName content).

Definition writesToFile (path : string) : M unit := _enqueue (WritesToFile path).

Definition notWritesToFile (path : string) : M unit :=
  _enqueue (NotWritesToFile path).

(** [this._promise.then(done, done)]: the promise object gains a
    reaction, and the field goes on referring to that object. *)
Definition notify (done : string) : M unit :=
  t <- this;;
  p <- member (_promise t) "then";;
  assign (set_promise (Some (Observed p done))).

Definition asserts (callback : Work) : M unit :=
  _enqueue (Asserts callback).

(** ** The event loop *)

(** chai's [assert.operator(value, operator, bound)], for the relational
    operators; a bound that is [undefined] compares as NaN. *)
Definition compare (operator : string) (value : Z) (bound : option Z) : option bool :=
  let test (rel : Z -> Z -> bool) :=
    Some (match bound with Some b => rel value b | None => false end) in
  if String.eqb operator ">" then test Z.gtb
  else if String.eqb operator "<=" then test Z.leb
  else if String.eqb operator "<" then test Z.ltb
  else if String.eqb operator ">=" then test Z.geb
  else None.

(** chai-as-promised's [assert.eventually.*]: a rejection of the awaited
    promise passes through, a failed expectation is an AssertionError. *)
Definition expect (holds : bool) (message : string) : Settled :=
  if holds then Fulfilled JsUndefined else Rejected (AssertionError message).

(** Settling the promise a chain item returned.  The checks on the
    virtual filesystem always settle; foreign work may not. *)
Definition await (work : Pending) (sb : Sandbox) : Sandbox * option Settled :=
  match work with
  | Touching fs path =>
      match QFSMock.open (vfs sb fs) path with
      | inl e => (sb, Some (Rejected e))
      | inr handle =>
          (put_vfs fs (QFSMock.close (clock sb) (vfs sb fs) handle) sb,
           Some (Fulfilled JsUndefined))
      end
  | Working work => work sb
  | EventuallyIsTrue fs path message =>
      (sb, Some (expect (QFSMock.exists_ (vfs sb fs) path) message))
  | EventuallyEqual fs fileName expected message =>
      match QFSMock.read_path (vfs sb fs) fileName with
      | inl e => (sb, Some (Rejected e))
      | inr actual =>
          (sb, Some (expect (bool_decide (Some actual = expected)) message))
      end
  | EventuallyOperator fs path operator bound message =>
      match QFSMock.lastModified (vfs sb fs) path with
      | inl e => (sb, Some (Rejected e))
      | inr modified =>
          match compare operator modified bound with
          | Some holds => (sb, Some (expect holds message))
          | None => (sb, Some (Rejected (PlainError "Invalid operator")))
          end
      end
  end.

(** The journal entry for a settlement, if there is one. *)
Definition settled (entry : Settled -> Event) (r : option Settled) : list Event :=
  match r with
  | Some s => [entry s]
  | None => []
  end.

Definition records (evs : list Event) (rt : Runtime) : Runtime :=
  {| sandbox := sandbox rt; nextId := nextId rt;
     technology := technology rt; journal := journal rt ++ evs |}.

Definition finish (op : ChainOp) (work : Pending) (st : State)
    : State * option Settled :=
  let '(sb, r) := await work (sandbox (world st)) in
  ({| self := self st;
      world := records (settled (Finished op) r) (set_sandbox sb (world st)) |},
   r).

(** [p.then(call)] once [p] is fulfilled: [call] is called, and the new
    promise settles to what [call] returns, or is rejected with what it
    throws. *)
Definition perform (op : ChainOp) (st : State) : State * option Settled :=
  match invoke op st with
  | Throw e st' =>
      ({| self := self st';
          world := record (Finished op (Rejected e)) (world st') |},
       Some (Rejected e))
  | Normal work st' => finish op work st'
  end.

(** What the event loop does to a promise.  [p.then(call)] leaves [call]
    alone when [p] is rejected, and passes the rejection on, and never gets
    to [call] while [p] is pending; [p.then(done, done)] calls [done] with
    whatever [p] settled to, once it has. *)
Fixpoint settle (p : Promise) (st : State) : State * option Settled :=
  match p with
  | Returned op work => finish op work st
  | Then q op =>
      let '(st1, r) := settle q st in
      match r with
      | Some (Fulfilled _) => perform op st1
      | Some (Rejected e) => (st1, Some (Rejected e))
      | None => (st1, None)
      end
  | Observed q done =>
      let '(st1, r) := settle q st in
      ({| self := self st1;
          world := records (settled (Called done) r) (world st1) |}, r)
  end.

(** Running the event loop until nothing is left to do. *)
Definition drain (st : State) : State :=
  match _promise (self st) with
  | None => st
  | Some p => fst (settle p st)
  end.

(** ** lib/tech-test.js, the earlier revision *)

Module Legacy.

(** As in the current revision, bem's [Context] is taken to return. *)
Definition _loadContext (mockOpts : MockOpts) : M unit :=
  requireMocked "bem" mockOpts;;
  t <- this;;
  levels <- member (_levels t) "0";;
  techMap <- member (_techMap t) "keys";;
  let opts := {| root := None;
                 level := None;
                 levels := Some levels;
                 declaration := None;
                 tech := paths_of techMap |} in
  id <- alloc RContext;;
  assign (set_context (Some {| contextId := id; primary := head levels;
                               options := opts; loadedWith := mockOpts |})).

Definition _load : M unit :=
  t <- this;;
  match _tech t with
  | Some _ => ret tt
  | None =>
      fs <- alloc RQFSMock;;
      at_ <- now;;
      effect (fun rt => set_sandbox
                (put_vfs fs (QFSMock.create at_ (default [] (_sources t)))
                   (sandbox rt)) rt);;
      assign (set_fs (Some fs));;
      sync <- alloc RFSMock;;
      let opts := {| mocks := <["q-io/fs" := QfsMock (Some fs)]>
                                (<["fs" := SyncFsMock sync (Some fs)]> ∅);
                     resolves := None;
                     ignoreMocks := ["winston"; "mime"] |} in
      _loadLevels opts;;
      _loadContext opts;;
      _loadTech
  end.

Definition create (elem : JsValue) : M unit :=
  _load;;
  t <- this;;
  levels <- member (_levels t) "0";;
  _enqueue (LegacyCreate elem (head levels)).

Definition build (output : string) (decl : JsValue) : M unit :=
  _load;;
  _enqueue (LegacyBuild output decl).

End Legacy.

(** ** index.js *)

Section Index.

(** Node's [path.basename] and bem's [util.stripModuleExt]. *)
Variable PATH_basename : string -> string.
Variable BEMUtil_stripModuleExt : string -> string.

(** [exports.testTech]; a call without arguments, which the documented
    signature excludes, yields nothing here. *)
Definition testTech (arguments : list string) : option TechTest :=
  match arguments with
  | [] => None
  | [modulePath] =>
      Some (__constructor (BEMUtil_stripModuleExt (PATH_basename modulePath))
              modulePath)
  | techName :: modulePath :: _ => Some (__constructor techName modulePath)
  end.

End Index.

(** ** Test bodies *)

(** A call of a public method of the current revision. *)
Inductive Call : Type :=
| CallWithSourceFiles (sources : list (string * FsTree))
| CallWithMockedModules (modules : gmap string JsValue)
| CallWithMockedModulesResolves (modulePaths : gmap string string)
| CallWithLevel (level : string)
| CallWithLevels (levels : list string)
| CallWithTechMap (techMap : gmap string string)
| CallTouchFile (path : string)
| CallCreate (elem : JsValue)
| CallBuild (output : string) (decl : JsValue)
| CallProducesFile (path : string)
| CallWithContent (arguments : list string)
| CallWritesToFile (path : string)
| CallNotWritesToFile (path : string)
| CallNotify (done : string)
| CallAsserts (callback : Work).

Definition call (c : Call) : M unit :=
  match c with
  | CallWithSourceFiles sources => withSourceFiles sources
  | CallWithMockedModules modules => withMockedModules modules
  | CallWithMockedModulesResolves modulePaths => withMockedModulesResolves modulePaths
  | CallWithLevel level => withLevel level
  | CallWithLevels levels => withLevels levels
  | CallWithTechMap techMap => withTechMap techMap
  | CallTouchFile path => touchFile path
  | CallCreate elem => create elem
  | CallBuild output decl => build output decl
  | CallProducesFile path => producesFile path
  | CallWithContent arguments => withContent arguments
  | CallWritesToFile path => writesToFile path
  | CallNotWritesToFile path => notWritesToFile path
  | CallNotify done => notify done
  | CallAsserts callback => asserts callback
  end.

(** A test body: the calls one after another; an exception ends it. *)
Fixpoint body (calls : list Call) : M unit :=
  match calls with
  | [] => ret tt
  | c :: rest => call c;; body rest
  end.

(** ** A concrete session to run things on *)

(** Where a session starts: no filesystem yet, an empty journal. *)
Definition boot (technology : TechModule) (startedAt : Z) (t : TechTest) : State :=
  {| self := t;
     world := {| sandbox := {| store := ∅; clock := startedAt |};
                 nextId := 0;
                 technology := technology;
                 journal := [] |} |}.

(** A technology whose [create] takes five milliseconds and writes
    [/x.css] into every filesystem there is, and whose [build] fails. *)
Definition sample_tech : TechModule :=
  {| createByDecl := fun _ _ _ =>
       Promises (fun sb =>
         let at_ := (clock sb + 5)%Z in
         ({| store := (fun fs => <["/x.css" := File ".x {}" at_ at_]> fs) <$> store sb;
             clock := at_ |},
          Some (Fulfilled JsUndefined)));
     buildByDecl := fun _ _ _ _ =>
       Promises (fun sb => (sb, Some (Rejected (Raised (JsString "no deps"))))) |}.

Definition sample_session : State :=
  boot sample_tech 1000 (__constructor "css" "/techs/css.js").

Definition outcome {A} (c : Completion A) : State :=
  match c with Normal _ st => st | Throw _ st => st end.

(** A technology whose [create] throws before returning a promise. *)
Definition throwing_tech : TechModule :=
  {| createByDecl := fun _ _ _ => Throws (Raised (JsString "boom"));
     buildByDecl := fun _ _ _ _ => Throws (Raised (JsString "boom")) |}.

(** An author's check that takes ten milliseconds and passes. *)
Definition ten_ms_pass (sb : Sandbox) : Sandbox * option Settled :=
  ({| store := store sb; clock := (clock sb + 10)%Z |},
   Some (Fulfilled JsUndefined)).

(** A technology whose promises stay pending for ever. *)
Definition hanging_tech : TechModule :=
  {| createByDecl := fun _ _ _ => Promises (fun sb => (sb, None));
     buildByDecl := fun _ _ _ _ => Promises (fun sb => (sb, None)) |}.

Definition sample_elem : JsValue := JsObject [("block", JsString "x")].

(** The sample session after [create({block: 'x'})], before the event
    loop has run, and after it. *)
Definition sample_called : State := outcome (create sample_elem sample_session).

Definition sample_created : State := drain sample_called.

(** ** Vocabulary of the statements *)

(** The module identifiers [withMockedModules] refuses. *)
Definition reserved : list string := ["fs"; "q-fs"; "q-io/fs"].

Global Instance Resource_eq_dec : EqDecision Resource.
Proof. solve_decision. Defined.

(** How many objects of a kind the journal has seen constructed. *)
Fixpoint constructions (what : Resource) (j : list Event) : nat :=
  match j with
  | [] => 0
  | Constructed r _ :: rest =>
      (if decide (r = what) then 1 else 0) + constructions what rest
  | _ :: rest => constructions what rest
  end.

(** The journal entries about chain items, and those about callbacks. *)
Definition about_chain (ev : Event) : bool :=
  match ev with Started _ | Finished _ _ => true | _ => false end.

Definition about_callbacks (ev : Event) : bool :=
  match ev with Called _ _ => true | _ => false end.

(** The chain items of a promise, first to last, and the callbacks
    registered on it. *)
Fixpoint ops_of (p : Promise) : list ChainOp :=
  match p with
  | Returned op _ => [op]
  | Then q op => ops_of q ++ [op]
  | Observed q _ => ops_of q
  end.

Fixpoint observers (p : Promise) : list string :=
  match p with
  | Returned _ _ => []
  | Then q _ => observers q
  | Observed q done => observers q ++ [done]
  end.

(** [Sequenced ops evs r]: the chain entries [evs] show the items [ops]
    run one after the other, each started right after the one before it was
    fulfilled, none started after one was rejected or while one is pending,
    and [r] is what the last one run settled to, if it did. *)
Inductive Sequenced : list ChainOp -> list Event -> option Settled -> Prop :=
| seq_last op r :
    Sequenced [op] [Started op; Finished op r] (Some r)
| seq_hang op ops :
    Sequenced (op :: ops) [Started op] None
| seq_fail op e ops :
    Sequenced (op :: ops) [Started op; Finished op (Rejected e)]
      (Some (Rejected e))
| seq_next op v ops evs r :
    Sequenced ops evs r ->
    Sequenced (op :: ops) (Started op :: Finished op (Fulfilled v) :: evs) r.

(** The chain item a call appends, given the session it is made on. *)
Definition appends (c : Call) (op : ChainOp) : Prop :=
  match c, op with
  | CallTouchFile path, TouchFile path' => path = path'
  | CallCreate elem, Create elem' _ => elem = elem'
  | CallBuild output decl, Build output' decl' => output = output' /\ decl = decl'
  | CallProducesFile path, ProducesFile path' => path = path'
  | CallWithContent arguments, WithContent _ content =>
      content = (if decide (1 < length arguments)
                 then Some (join LF arguments) else head arguments)
  | CallWritesToFile path, WritesToFile path' => path = path'
  | CallNotWritesToFile path, NotWritesToFile path' => path = path'
  | CallAsserts callback, Asserts callback' => callback = callback'
  | _, _ => False
  end.

(** The calls that append to the chain. *)
Definition chained (c : Call) : bool :=
  match c with
  | CallTouchFile _ | CallCreate _ | CallBuild _ _ | CallProducesFile _
  | CallWithContent _ | CallWritesToFile _ | CallNotWritesToFile _
  | CallAsserts _ => true
  | _ => false
  end.


(** What [_loadLevels] leaves in [_techMap] and [_levelPaths], and the
    levels it constructs, numbered from the next free identity. *)
Definition registry (t : TechTest) : gmap string string :=
  <[_techName t := _modulePath t]> (default ∅ (_techMap t)).

Definition level_paths (t : TechTest) : list string :=
  default ["/"] (_levelPaths t).

Fixpoint stub_levels (first : nat) (paths : list string)
    (techMap : gmap string string) : list StubLevel.t :=
  match paths with
  | [] => []
  | path :: rest =>
      StubLevel.__constructor first path techMap
      :: stub_levels (S first) rest techMap
  end.

Fixpoint first_op (p : Promise) : ChainOp :=
  match p with
  | Returned op _ => op
  | Then q _ => first_op q
  | Observed q _ => first_op q
  end.

(** The chain items a session has accumulated, and the callbacks waiting
    on them. *)
Definition pending (st : State) : list ChainOp :=
  match _promise (self st) with
  | Some p => ops_of p
  | None => []
  end.

Definition watchers (st : State) : list string :=
  match _promise (self st) with
  | Some p => observers p
  | None => []
  end.

Definition notifies (c : Call) : bool :=
  match c with CallNotify _ => true | _ => false end.

(** The journal entries of the lazy load. *)
Definition is_construction (ev : Event) : bool :=
  match ev with Constructed _ _ | Required _ _ => true | _ => false end.

(** The calls of the action group. *)
Definition acts (c : Call) : bool :=
  match c with CallCreate _ | CallBuild _ _ => true | _ => false end.

(** What a guarded reload must leave alone: the filesystem and its
    content, the levels, the context, the technology instance, and the
    count of everything constructed so far. *)
Definition kept (st st' : State) : Prop :=
  _fs (self st') = _fs (self st)
  /\ _levels (self st') = _levels (self st)
  /\ _context (self st') = _context (self st)
  /\ _tech (self st') = _tech (self st)
  /\ sandbox (world st') = sandbox (world st)
  /\ forall what, constructions what (journal (world st'))
                  = constructions what (journal (world st)).

(** The registry as the levels and the context of a session hold it:
    every level answers for the technology under test with the module
    path under test, and the context was handed that path. *)
Definition serves (st : State) : Prop :=
  (forall lvls, _levels (self st) = Some lvls ->
     Forall (fun l => StubLevel.getTechs l !! _techName (self st)
                      = Some (_modulePath (self st))) lvls)
  /\ (forall ctx, _context (self st) = Some ctx ->
        _modulePath (self st) ∈ tech (options ctx)).

Definition same_names (st st' : State) : Prop :=
  _techName (self st') = _techName (self st)
  /\ _modulePath (self st') = _modulePath (self st).

(** The items a stretch of journal shows started, in order. *)
Definition started_ops (evs : list Event) : list ChainOp :=
  omap (fun ev => match ev with Started op => Some op | _ => None end) evs.

(** The module loads a stretch of journal shows, in order, each with the
    substitutes it was made with. *)
Definition requirements (evs : list Event) : list (string * MockOpts) :=
  omap (fun ev => match ev with
                  | Required target opts => Some (target, opts)
                  | _ => None
                  end) evs.

(** The calls whose chain item goes through [self._fs]. *)
Definition uses_filesystem (c : Call) : bool :=
  match c with
  | CallTouchFile _ | CallProducesFile _ | CallWithContent _
  | CallWritesToFile _ | CallNotWritesToFile _ => true
  | _ => false
  end.

(** The one call that assigns [_techMap] from outside. *)
Definition sets_techMap (c : Call) : bool :=
  match c with CallWithTechMap _ => true | _ => false end.

(** The session's own tech map holds the technology under test. *)
Definition registered (st : State) : Prop :=
  exists reg,
    _techMap (self st) = Some reg
    /\ reg !! _techName (self st) = Some (_modulePath (self st)).

(** The chain items that begin with [self._testStartTime = ...]. *)
Definition stamps (op : ChainOp) : bool :=
  match op with Create _ _ | Build _ _ => true | _ => false end.

(** The objects of a session referring to one another as the load left
    them: nothing is there yet, or the technology instance came from the
    context the session holds, that context was constructed over the levels
    the session holds, and it was loaded against the session's filesystem. *)
Definition wired (st : State) : Prop :=
  match _fs (self st), _levels (self st), _context (self st), _tech (self st) with
  | None, None, None, None => True
  | Some fs, Some lvls, Some ctx, Some instance =>
      context instance = contextId ctx
      /\ techName instance = _techName (self st)
      /\ primary ctx = head lvls
      /\ level (options ctx) = Some lvls
      /\ mocks (loadedWith ctx) !! "q-io/fs" = Some (QfsMock (Some fs))
  | _, _, _, _ => False
  end.

(** * Properties *)

(** ** Small facts used throughout *)

Lemma append_assoc (a b c : string) : (a +:+ b) +:+ c = a +:+ (b +:+ c).
Proof.
  induction a as [|ch a IH]; [reflexivity|].
  change (String ch ((a +:+ b) +:+ c) = String ch (a +:+ (b +:+ c))).
  now rewrite IH.
Qed.

Lemma lookup_merge {A} (obj1 obj2 : option (gmap string A)) (key : string) :
  merge obj1 obj2 !! key =
  match default ∅ obj2 !! key with
  | Some v => Some v
  | None => default ∅ obj1 !! key
  end.
Proof.
  unfold merge. destruct (default ∅ obj2 !! key) eqn:E.
  - now apply lookup_union_Some_l.
  - rewrite lookup_union_r; auto.
Qed.

(** ** lib/stub-level.js *)

(** C8. A StubLevel built from any path and any tech map has its project
    root at ["/"], keeps the path it was given as its own, and answers
    [getTechs] with exactly the tech map it was given. *)
Theorem stub_level_root_and_techs (identity : nat) (path : string)
    (techMap : gmap string string) :
  let level := StubLevel.__constructor identity path techMap in
  Level.projectRoot (StubLevel.base level) = "/"
  /\ Level.dir (StubLevel.base level) = path
  /\ StubLevel.getTechs level = techMap.
Proof. simpl. repeat split. Qed.

(** ** index.js *)

(** C10. With one argument [testTech] takes it as the module path and
    names the technology after the path's basename with the module
    extension stripped; with two arguments the given name is used as it
    is. *)
Theorem testTech_derives_name (basename stripModuleExt : string -> string) :
  (forall modulePath,
     testTech basename stripModuleExt [modulePath]
     = Some (__constructor (stripModuleExt (basename modulePath)) modulePath))
  /\ (forall techName modulePath,
        testTech basename stripModuleExt [techName; modulePath]
        = Some (__constructor techName modulePath))
  /\ (forall modulePath,
        _techName <$> testTech basename stripModuleExt [modulePath]
        = Some (stripModuleExt (basename modulePath))
        /\ _modulePath <$> testTech basename stripModuleExt [modulePath]
           = Some modulePath)
  /\ (forall techName modulePath,
        _techName <$> testTech basename stripModuleExt [techName; modulePath]
        = Some techName
        /\ _modulePath <$> testTech basename stripModuleExt [techName; modulePath]
           = Some modulePath).
Proof. repeat split. Qed.

(** ** withMockedModules *)

Lemma reserved_cases (key : string) :
  key ∈ reserved -> key = "fs" \/ key = "q-fs" \/ key = "q-io/fs".
Proof. unfold reserved. rewrite !elem_of_cons, elem_of_nil. tauto. Qed.

Lemma reserved_elems : "fs" ∈ reserved /\ "q-fs" ∈ reserved /\ "q-io/fs" ∈ reserved.
Proof. unfold reserved. rewrite !elem_of_cons. tauto. Qed.

(** The guard of [withMockedModules] fires as soon as one reserved
    identifier reads as a truthy value. *)
Lemma guard_fires (modules : gmap string JsValue) (key : string) :
  key ∈ reserved ->
  truthy (prop modules key) = true ->
  truthy (prop modules "fs") || truthy (prop modules "q-fs")
  || truthy (prop modules "q-io/fs") = true.
Proof.
  intros Hkey Htruthy.
  destruct (reserved_cases key Hkey) as [-> | [-> | ->]];
    rewrite Htruthy; rewrite ?orb_true_r; reflexivity.
Qed.

(** C3, as amended.  A mock table that binds a reserved identifier to a
    truthy substitute makes [withMockedModules] throw at once, with the
    session, its accumulated mock table included, as it was. *)
Theorem withMockedModules_rejects_reserved
    (modules : gmap string JsValue) (st : State) (key : string) :
  key ∈ reserved ->
  truthy (prop modules key) = true ->
  withMockedModules modules st = Throw (PlainError already_mocked) st.
Proof.
  intros Hkey Htruthy. unfold withMockedModules.
  now rewrite (guard_fires modules key Hkey Htruthy).
Qed.

Lemma withMockedModules_rejects_reserved_witness :
  "q-fs" ∈ reserved
  /\ truthy (prop {["q-fs" := JsObject []]} "q-fs") = true
  /\ withMockedModules {["q-fs" := JsObject []]} sample_session
     = Throw (PlainError already_mocked) sample_session.
Proof.
  assert (Hin : "q-fs" ∈ reserved) by apply reserved_elems.
  split; [exact Hin | split; [reflexivity |]].
  apply (withMockedModules_rejects_reserved _ _ "q-fs" Hin). reflexivity.
Defined.

(** Whatever the shape of a substitute object, it is truthy, so a reserved
    identifier bound to an object is always refused, and the session keeps
    the mock table it had. *)
Lemma reserved_object_is_refused
    (modules : gmap string JsValue) (st : State) (key : string)
    (props : list (string * JsValue)) :
  key ∈ reserved ->
  modules !! key = Some (JsObject props) ->
  withMockedModules modules st = Throw (PlainError already_mocked) st
  /\ _mockedModules (self (outcome (withMockedModules modules st)))
     = _mockedModules (self st).
Proof.
  intros Hkey Hbound.
  assert (Hthrow : withMockedModules modules st
                   = Throw (PlainError already_mocked) st).
  { unfold withMockedModules. rewrite (guard_fires modules key Hkey); [reflexivity|].
    unfold prop. now rewrite Hbound. }
  rewrite Hthrow. split; reflexivity.
Qed.

(** When no reserved identifier is bound to a truthy value the table is
    merged over what was accumulated. *)
Lemma withMockedModules_merges (modules : gmap string JsValue) (st : State) :
  (forall key, key ∈ reserved -> truthy (prop modules key) = false) ->
  withMockedModules modules st
  = Normal tt {| self := set_mockedModules
                           (Some (merge (_mockedModules (self st)) (Some modules)))
                           (self st);
                 world := world st |}.
Proof.
  intros Hfalsy. unfold withMockedModules.
  rewrite !Hfalsy by apply reserved_elems. reflexivity.
Qed.

(** C3 as stated fails on the code: the table [{fs: null}] contains a
    reserved identifier, yet the call returns normally and the identifier
    ends up in the accumulated mock table. *)
Lemma falsy_reserved_mock_is_accepted :
  "fs" ∈ reserved
  /\ ({["fs" := JsNull]} : gmap string JsValue) !! "fs" = Some JsNull
  /\ withMockedModules {["fs" := JsNull]} sample_session
     = Normal tt {| self := set_mockedModules (Some {["fs" := JsNull]})
                              (self sample_session);
                    world := world sample_session |}
  /\ withMockedModules {["fs" := JsNull]} sample_session
     <> Throw (PlainError already_mocked) sample_session.
Proof.
  assert (Hrun : withMockedModules {["fs" := JsNull]} sample_session
     = Normal tt {| self := set_mockedModules (Some {["fs" := JsNull]})
                              (self sample_session);
                    world := world sample_session |}) by reflexivity.
  split; [apply reserved_elems | split; [reflexivity | split]].
  - exact Hrun.
  - rewrite Hrun. discriminate.
Qed.

(** Whatever the author's table holds, the table [_getMocks] assembles
    binds the three reserved identifiers to the session's filesystem, and
    every other identifier to the author's substitute. *)
Lemma getMocks_keeps_the_filesystem (t : TechTest) (rt : Runtime) :
  exists table,
    _getMocks {| self := t; world := rt |}
    = Normal table {| self := t; world := fresh RFSMock rt |}
    /\ table !! "fs" = Some (SyncFsMock (nextId rt) (_fs t))
    /\ table !! "q-fs" = Some (QfsMock (_fs t))
    /\ table !! "q-io/fs" = Some (QfsMock (_fs t))
    /\ forall key, key ∉ reserved ->
         table !! key = AuthorMock <$> (default ∅ (_mockedModules t) !! key).
Proof.
  eexists. split; [reflexivity|].
  split; [|split; [|split]]; try (rewrite lookup_merge; reflexivity).
  intros key Hkey. rewrite lookup_merge. cbn [default].
  assert (Hne : key <> "fs" /\ key <> "q-fs" /\ key <> "q-io/fs").
  { unfold reserved in Hkey. rewrite !not_elem_of_cons in Hkey. tauto. }
  destruct Hne as (H1 & H2 & H3).
  unfold id. cbn [self world].
  rewrite !lookup_insert_ne, lookup_empty by congruence.
  destruct (_mockedModules t) as [m|]; cbn.
  - now rewrite lookup_fmap.
  - now rewrite lookup_empty.
Qed.

(** ** withContent *)

(** C5. [withContent(a, b, c)] and [withContent(a + "\n" + b + "\n" + c)]
    are the same call: both enqueue the equality check against
    [a], a line feed, [b], a line feed, [c], with nothing after [c]; and
    for any arguments the call with several arguments is the call with
    their join as the only argument. *)
Theorem withContent_joins_lines :
  (forall (a b c : string) (st : State),
     withContent [a; b; c] st
     = withContent [(((a +:+ LF) +:+ b) +:+ LF) +:+ c] st)
  /\ (forall (a b c : string) (st : State),
        withContent [a; b; c] st
        = _enqueue (WithContent (_lastFileName (self st))
                      (Some (a +:+ LF +:+ b +:+ LF +:+ c))) st)
  /\ (forall (a : string) (rest : list string) (st : State),
        withContent (a :: rest) st = withContent [join LF (a :: rest)] st).
Proof.
  split; [| split].
  - intros a b c st. unfold withContent. cbn.
    now rewrite !append_assoc.
  - intros a b c st. reflexivity.
  - intros a rest st. unfold withContent.
    destruct rest as [| b rest]; reflexivity.
Qed.

(** ** writesToFile and notWritesToFile *)

(** What the two checks settle to, once the filesystem exists. *)
Lemma perform_writesToFile (st : State) (fs : nat) (path : string) :
  _fs (self st) = Some fs ->
  snd (perform (WritesToFile path) st)
  = match QFSMock.lastModified (vfs (sandbox (world st)) fs) path with
    | inl e => Some (Rejected e)
    | inr m =>
        Some (expect (match _testStartTime (self st) with
                | Some start => (m >? start)%Z
                | None => false
                end)
               ("Expected file " +:+ path +:+ " to be modifed"))
    end.
Proof.
  intros Hfs. destruct st as [t rt]. simpl in Hfs.
  unfold perform, invoke, bind, log, effect, this, member. simpl.
  rewrite Hfs. simpl. unfold finish. simpl.
  destruct (QFSMock.lastModified _ path); reflexivity.
Qed.

Lemma perform_notWritesToFile (st : State) (fs : nat) (path : string) :
  _fs (self st) = Some fs ->
  snd (perform (NotWritesToFile path) st)
  = match QFSMock.lastModified (vfs (sandbox (world st)) fs) path with
    | inl e => Some (Rejected e)
    | inr m =>
        Some (expect (match _testStartTime (self st) with
                | Some start => (m <=? start)%Z
                | None => false
                end)
               ("Expected file " +:+ path +:+ " not to be modifed"))
    end.
Proof.
  intros Hfs. destruct st as [t rt]. simpl in Hfs.
  unfold perform, invoke, bind, log, effect, this, member. simpl.
  rewrite Hfs. simpl. unfold finish. simpl.
  destruct (QFSMock.lastModified _ path); reflexivity.
Qed.

(** C4. With the filesystem in place and one start time recorded, the two
    checks on one path exclude each other: on a file last modified at [m]
    [writesToFile] passes exactly when [m] is after the start time and
    [notWritesToFile] exactly when it is not, so one of them passes and the
    other fails its assertion; on an absent path both are rejected with
    the NotFoundError. *)
Theorem writes_and_notWrites_exclusive
    (st : State) (fs : nat) (start : Z) (path : string) :
  _fs (self st) = Some fs ->
  _testStartTime (self st) = Some start ->
  let written := snd (perform (WritesToFile path) st) in
  let untouched := snd (perform (NotWritesToFile path) st) in
  (forall content m a,
     vfs (sandbox (world st)) fs !! path = Some (File content m a) ->
     ((start < m)%Z
      /\ written = Some (Fulfilled JsUndefined)
      /\ untouched = Some (Rejected (AssertionError
                              ("Expected file " +:+ path +:+ " not to be modifed"))))
     \/ ((m <= start)%Z
         /\ untouched = Some (Fulfilled JsUndefined)
         /\ written = Some (Rejected (AssertionError
                               ("Expected file " +:+ path +:+ " to be modifed")))))
  /\ (vfs (sandbox (world st)) fs !! path = None ->
      written = Some (Rejected (NotFoundError path))
      /\ untouched = Some (Rejected (NotFoundError path))).
Proof.
  intros Hfs Hstart written untouched. subst written untouched.
  rewrite (perform_writesToFile st fs path Hfs).
  rewrite (perform_notWritesToFile st fs path Hfs).
  rewrite Hstart. unfold QFSMock.lastModified. split.
  - intros content m a Hfile. rewrite Hfile.
    destruct (Z.ltb_spec start m) as [Hlt | Hge].
    + left. split; [exact Hlt|].
      replace (m >? start)%Z with true by (symmetry; apply Z.gtb_lt; lia).
      replace (m <=? start)%Z with false by (symmetry; apply Z.leb_gt; lia).
      split; reflexivity.
    + right. split; [exact Hge|].
      replace (m >? start)%Z with false
        by (symmetry; rewrite Z.gtb_ltb; apply Z.ltb_ge; lia).
      replace (m <=? start)%Z with true by (symmetry; apply Z.leb_le; lia).
      split; reflexivity.
  - intros Habsent. rewrite Habsent. split; reflexivity.
Qed.

(** Neither check changes what the other looks at. *)
Lemma check_leaves_session (st : State) (fs : nat) (path : string) :
  _fs (self st) = Some fs ->
  forall op, op = WritesToFile path \/ op = NotWritesToFile path ->
  sandbox (world (fst (perform op st))) = sandbox (world st)
  /\ _testStartTime (self (fst (perform op st))) = _testStartTime (self st)
  /\ _fs (self (fst (perform op st))) = _fs (self st).
Proof.
  intros Hfs op Hop. destruct st as [t rt]. cbn [self world] in *.
  destruct Hop as [-> | ->];
    unfold perform, invoke, bind, log, effect, this, member; cbn;
    rewrite Hfs; cbn; unfold finish, await; cbn;
    destruct (QFSMock.lastModified _ path); cbn; auto.
Qed.

(** ** The lazy load, step by step *)

Lemma mapM_levels (techMap : gmap string string) (paths : list string) :
  forall t rt,
    mapM (fun path => id <- alloc RStubLevel;;
                      ret (StubLevel.__constructor id path techMap))
         paths {| self := t; world := rt |}
    = Normal (stub_levels (nextId rt) paths techMap)
        {| self := t;
           world := {| sandbox := sandbox rt;
                       nextId := nextId rt + length paths;
                       technology := technology rt;
                       journal := journal rt
                                  ++ map (Constructed RStubLevel)
                                       (seq (nextId rt) (length paths)) |} |}.
Proof.
  induction paths as [|path rest IH]; intros t rt.
  - simpl. unfold ret. rewrite Nat.add_0_r, app_nil_r. destruct rt; reflexivity.
  - cbn [mapM]. do 2 (unfold bind at 1). unfold alloc at 1.
    unfold bind at 1. cbn. unfold bind at 1. rewrite IH. cbn. unfold ret.
    rewrite <- List.app_assoc, Nat.add_succ_r. reflexivity.
Qed.

Lemma _loadLevels_runs (opts : MockOpts) (t : TechTest) (rt : Runtime) :
  _loadLevels opts {| self := t; world := rt |}
  = Normal tt
      {| self := set_levels
                   (Some (stub_levels (nextId rt) (level_paths t) (registry t)))
                   (set_techMap (Some (registry t))
                      (set_levelPaths (Some (level_paths t)) t));
         world := {| sandbox := sandbox rt;
                     nextId := nextId rt + length (level_paths t);
                     technology := technology rt;
                     journal := journal rt
                                ++ Required "./stub-level" opts
                                   :: map (Constructed RStubLevel)
                                        (seq (nextId rt) (length (level_paths t))) |} |}.
Proof.
  unfold _loadLevels. unfold bind at 1.
  unfold requireMocked, log, effect at 1. cbn [self world].
  unfold bind at 1. unfold this at 1.
  unfold bind at 1. unfold assign at 1. cbn [self world].
  unfold bind at 1. unfold assign at 1. cbn [self world].
  unfold bind at 1. rewrite mapM_levels. cbn [record sandbox nextId technology journal].
  now rewrite <- List.app_assoc.
Qed.

Lemma _loadContext_runs (opts : MockOpts) (t : TechTest) (rt : Runtime)
    (lvls : list StubLevel.t) (techMap : gmap string string) :
  _levels t = Some lvls ->
  _techMap t = Some techMap ->
  _loadContext opts {| self := t; world := rt |}
  = Normal tt
      {| self := set_context
                   (Some {| contextId := nextId rt;
                            primary := head lvls;
                            options :=
                              {| root := Some "/";
                                 level := Some lvls;
                                 levels := None;
                                 declaration :=
                                   Some (default JsUndefined (_buildDecl t));
                                 tech := paths_of techMap |};
                            loadedWith := opts |}) t;
         world := fresh RContext (record (Required "bem" opts) rt) |}.
Proof.
  intros Hlevels Hmap. unfold _loadContext, bind, this, member. cbn.
  rewrite Hlevels, Hmap. reflexivity.
Qed.

Lemma _loadTech_runs (t : TechTest) (rt : Runtime) (ctx : Context) :
  _context t = Some ctx ->
  _loadTech {| self := t; world := rt |}
  = Normal tt
      {| self := set_tech (Some {| techId := nextId rt;
                                   techName := _techName t;
                                   context := contextId ctx |}) t;
         world := fresh RTech rt |}.
Proof.
  intros Hctx. unfold _loadTech, bind, this, member. cbn.
  rewrite Hctx. reflexivity.
Qed.

(** With bem's constructors taken to return, [_load] returns, and this
    is the session it leaves: the filesystem is the one already there if
    there is one, everything else is constructed anew. *)
Lemma _load_runs (t : TechTest) (rt : Runtime) :
  let fs := default (nextId rt) (_fs t) in
  let n := match _fs t with Some _ => nextId rt | None => S (nextId rt) end in
  let lvls := stub_levels (S n) (level_paths t) (registry t) in
  let c := S n + length (level_paths t) in
  let t1 := set_fs (Some fs) t in
  let opts :=
    {| mocks := merge ((fun table : gmap string JsValue => AuthorMock <$> table)
                         <$> _mockedModules t)
                  (Some (<["q-io/fs" := QfsMock (Some fs)]>
                         (<["q-fs" := QfsMock (Some fs)]>
                          (<["fs" := SyncFsMock n (Some fs)]> ∅))));
       resolves := _mockedResolves t;
       ignoreMocks := ignoredMocks |} in
  let ctx :=
    {| contextId := c;
       primary := head lvls;
       options := {| root := Some "/"; level := Some lvls; levels := None;
                     declaration := Some (default JsUndefined (_buildDecl t));
                     tech := paths_of (registry t) |};
       loadedWith := opts |} in
  _load {| self := t; world := rt |}
  = Normal tt
      {| self := set_tech (Some {| techId := S c; techName := _techName t;
                                   context := c |})
                   (set_context (Some ctx)
                      (set_levels (Some lvls)
                         (set_techMap (Some (registry t))
                            (set_levelPaths (Some (level_paths t)) t1))));
         world :=
           {| sandbox := match _fs t with
                         | Some _ => sandbox rt
                         | None => put_vfs (nextId rt)
                                     (QFSMock.create (clock (sandbox rt))
                                        (default [] (_sources t)))
                                     (sandbox rt)
                         end;
              nextId := S (S c);
              technology := technology rt;
              journal := journal rt
                         ++ match _fs t with
                            | Some _ => []
                            | None => [Constructed RQFSMock (nextId rt)]
                            end
                         ++ [Constructed RFSMock n]
                         ++ [Required "./stub-level" opts]
                         ++ map (Constructed RStubLevel)
                              (seq (S n) (length (level_paths t)))
                         ++ [Required "bem" opts; Constructed RContext c;
                             Constructed RTech (S c)] |} |}.
Proof.
  intros fs n lvls c t1 opts ctx.
  unfold _load, _getMocks, bind, this, assign, effect, runtime, alloc, now, ret.
  cbn [self world].
  destruct (_fs t) as [fs0|] eqn:Hfs; cbn [self world nextId fresh set_sandbox sandbox];
  unfold bind, runtime, effect; cbn [self world nextId fresh set_sandbox sandbox];
  rewrite _loadLevels_runs;
  (erewrite _loadContext_runs by reflexivity);
  (erewrite _loadTech_runs by reflexivity);
  subst fs n lvls c t1 opts ctx; cbn;
  unfold fresh, record, level_paths, registry;
  cbn [sandbox nextId technology journal];
  rewrite <- ?List.app_assoc; reflexivity.
Qed.

Lemma legacy_load_guard (t : TechTest) (rt : Runtime) (loaded : TechInstance) :
  _tech t = Some loaded ->
  Legacy._load {| self := t; world := rt |} = Normal tt {| self := t; world := rt |}.
Proof.
  intros Htech. unfold Legacy._load, bind, this. cbn [self]. now rewrite Htech.
Qed.



Lemma constructions_app (what : Resource) (j1 j2 : list Event) :
  constructions what (j1 ++ j2) = constructions what j1 + constructions what j2.
Proof.
  induction j1 as [|ev j1 IH]; [reflexivity|].
  destruct ev; cbn; rewrite IH; lia.
Qed.

Lemma constructions_run (what made : Resource) (first n : nat) :
  constructions what (map (Constructed made) (seq first n))
  = if decide (made = what) then n else 0.
Proof.
  revert first. induction n as [|n IH]; intros first; cbn.
  - now destruct (decide (made = what)).
  - rewrite IH. now destruct (decide (made = what)).
Qed.

Lemma stub_levels_length (first : nat) (paths : list string)
    (techMap : gmap string string) :
  length (stub_levels first paths techMap) = length paths.
Proof.
  revert first. induction paths as [|p rest IH]; intros first; cbn;
    [reflexivity | now rewrite IH].
Qed.

Lemma stub_levels_techs (first : nat) (paths : list string)
    (techMap : gmap string string) :
  Forall (fun l => StubLevel.getTechs l = techMap) (stub_levels first paths techMap).
Proof.
  revert first. induction paths as [|p rest IH]; intros first; cbn;
    constructor; [reflexivity | apply IH].
Qed.

Lemma stub_levels_paths (first : nat) (paths : list string)
    (techMap : gmap string string) :
  map (fun l => Level.dir (StubLevel.base l)) (stub_levels first paths techMap)
  = paths.
Proof.
  revert first. induction paths as [|p rest IH]; intros first; cbn;
    [reflexivity | now rewrite IH].
Qed.

Lemma path_in_paths_of (techMap : gmap string string) (name path : string) :
  techMap !! name = Some path -> path ∈ paths_of techMap.
Proof.
  intros Hbound. unfold paths_of. apply list_elem_of_fmap.
  exists (name, path). split; [reflexivity|].
  now apply elem_of_map_to_list.
Qed.

(** ** The chain: what calling and settling append to the journal *)

(** Appending an item to a sequenced run: it runs when the run was
    fulfilled, and is left out otherwise. *)
Lemma seq_snoc_run ops evs v op r :
  Sequenced ops evs (Some (Fulfilled v)) ->
  Sequenced (ops ++ [op]) (evs ++ Started op :: settled (Finished op) r) r.
Proof.
  intros H. remember (Some (Fulfilled v)) as r0 eqn:Hr0. revert v Hr0.
  induction H as [op0 r0 | op0 ops | op0 e ops | op0 v0 ops evs r0 H IH];
    intros v Hr0; try discriminate.
  - injection Hr0 as ->. cbn. apply seq_next.
    destruct r as [r|]; [apply seq_last | apply seq_hang].
  - cbn. apply seq_next. now apply (IH v).
Qed.

Lemma seq_snoc_skip ops evs r op :
  Sequenced ops evs r ->
  (forall v, r <> Some (Fulfilled v)) ->
  Sequenced (ops ++ [op]) evs r.
Proof.
  intros H Hnot.
  induction H as [op0 r0 | op0 ops | op0 e ops | op0 v0 ops evs r0 H IH]; cbn.
  - destruct r0 as [v | e]; [now destruct (Hnot v) | apply seq_fail].
  - apply seq_hang.
  - apply seq_fail.
  - apply seq_next. now apply IH.
Qed.

(** Case analysis on the fields and foreign calls [invoke] looks at. *)
Ltac split_invoke :=
  repeat (cbn;
    match goal with
    | |- context [match _fs ?x with _ => _ end] => destruct (_fs x) eqn:?
    | |- context [match _tech ?x with _ => _ end] => destruct (_tech x) eqn:?
    | |- context [match createByDecl ?a ?b ?c ?d with _ => _ end] =>
        destruct (createByDecl a b c d) eqn:?
    | |- context [match buildByDecl ?a ?b ?c ?d ?e with _ => _ end] =>
        destruct (buildByDecl a b c d e) eqn:?
    end).

(** Calling a chain item, whether it returns or throws, adds its start to
    the journal and can touch nothing of the session but the start time. *)
Lemma invoke_frame op st :
  let st' := outcome (invoke op st) in
  journal (world st') = journal (world st) ++ [Started op]
  /\ sandbox (world st') = sandbox (world st)
  /\ nextId (world st') = nextId (world st)
  /\ technology (world st') = technology (world st)
  /\ exists start, self st' = set_testStartTime start (self st).
Proof.
  destruct st as [t rt].
  assert (Hid : t = set_testStartTime (_testStartTime t) t) by (destruct t; reflexivity).
  unfold invoke, bind, log, effect, this, runtime, now, assign, member, foreign, ret, throw.
  destruct op; split_invoke; cbn; repeat split; eauto.
Qed.

(** Settling the returned promise adds the settlement, if any. *)
Lemma finish_frame op work st :
  journal (world (fst (finish op work st)))
  = journal (world st) ++ settled (Finished op) (snd (finish op work st))
  /\ self (fst (finish op work st)) = self st
  /\ nextId (world (fst (finish op work st))) = nextId (world st)
  /\ technology (world (fst (finish op work st))) = technology (world st).
Proof.
  unfold finish. destruct (await work (sandbox (world st))) as [sb r]. cbn. auto.
Qed.

Lemma perform_journal op st :
  journal (world (fst (perform op st)))
  = journal (world st)
    ++ Started op :: settled (Finished op) (snd (perform op st)).
Proof.
  unfold perform. pose proof (invoke_frame op st) as Hinv. cbv zeta in Hinv.
  destruct (invoke op st) as [work st' | e st']; cbn in Hinv |- *.
  - destruct (finish_frame op work st') as [-> _].
    destruct Hinv as [-> _]. now rewrite <- List.app_assoc.
  - destruct Hinv as [-> _]. now rewrite <- List.app_assoc.
Qed.

Lemma filter_settled_finished op r :
  List.filter about_chain (settled (Finished op) r) = settled (Finished op) r
  /\ List.filter about_callbacks (settled (Finished op) r) = [].
Proof. now destruct r. Qed.

Lemma filter_settled_called done r :
  List.filter about_chain (settled (Called done) r) = []
  /\ List.filter about_callbacks (settled (Called done) r)
     = settled (Called done) r.
Proof. now destruct r. Qed.

(** Settling a promise runs its items in sequence. *)
Lemma settle_sequenced p : forall st,
  exists evs,
    journal (world (fst (settle p st))) = journal (world st) ++ evs
    /\ Sequenced (ops_of p) (Started (first_op p) :: List.filter about_chain evs)
         (snd (settle p st))
    /\ (observers p = [] -> List.filter about_callbacks evs = []).
Proof.
  induction p as [op work | q IH op | q IH done]; intros st;
    cbn [settle ops_of first_op observers].
  - exists (settled (Finished op) (snd (finish op work st))).
    split; [apply finish_frame|].
    destruct (filter_settled_finished op (snd (finish op work st))) as [-> ->].
    split; [|reflexivity].
    destruct (snd (finish op work st)); [apply seq_last | apply seq_hang].
  - destruct (IH st) as (evs & Hj & Hseq & Hcb).
    destruct (settle q st) as [st1 r1]. cbn [fst snd] in *.
    destruct r1 as [[v | e]|].
    + exists (evs ++ Started op :: settled (Finished op) (snd (perform op st1))).
      split; [rewrite perform_journal, Hj; now rewrite <- List.app_assoc|].
      rewrite !List.filter_app. cbn [List.filter about_chain about_callbacks].
      destruct (filter_settled_finished op (snd (perform op st1))) as [-> ->].
      split.
      * apply (seq_snoc_run _ _ v op _ Hseq).
      * intros Hq. rewrite (Hcb Hq). reflexivity.
    + exists evs. cbn. split; [exact Hj|]. split; [|exact Hcb].
      apply seq_snoc_skip; [exact Hseq | discriminate].
    + exists evs. cbn. split; [exact Hj|]. split; [|exact Hcb].
      apply seq_snoc_skip; [exact Hseq | discriminate].
  - destruct (IH st) as (evs & Hj & Hseq & Hcb).
    destruct (settle q st) as [st1 r1]. cbn [fst snd] in *.
    exists (evs ++ settled (Called done) r1). cbn. rewrite Hj, <- List.app_assoc.
    split; [reflexivity|]. rewrite List.filter_app.
    destruct (filter_settled_called done r1) as [-> _]. rewrite app_nil_r.
    split; [exact Hseq|]. intros Hobs. now destruct (observers q).
Qed.

(** What a sequenced run amounts to: the items started are a prefix of
    the chain, in chain order; all of them when the chain is fulfilled; a
    rejection is the last thing that happens and is the result; and every
    item but the first starts right after a fulfilment. *)
Lemma sequenced_started_prefix ops evs r :
  Sequenced ops evs r -> started_ops evs `prefix_of` ops.
Proof.
  induction 1 as [op r | op ops | op e ops | op v ops evs r H IH]; cbn.
  - reflexivity.
  - apply prefix_cons, prefix_nil.
  - apply prefix_cons, prefix_nil.
  - now apply prefix_cons.
Qed.

Lemma sequenced_fulfilled_ran_all ops evs v :
  Sequenced ops evs (Some (Fulfilled v)) -> started_ops evs = ops.
Proof.
  intros H. remember (Some (Fulfilled v)) as r eqn:Hr.
  induction H as [op r | op ops | op e ops | op v0 ops evs r H IH]; cbn;
    try discriminate; [reflexivity|].
  f_equal. now apply IH.
Qed.

Lemma sequenced_rejection_ends ops evs r op e before after :
  Sequenced ops evs r ->
  evs = before ++ Finished op (Rejected e) :: after ->
  after = [] /\ r = Some (Rejected e).
Proof.
  intros H. revert before.
  induction H as [op0 r0 | op0 ops | op0 e0 ops | op0 v ops evs r H IH];
    intros before Heq.
  - destruct before as [|ev [|ev' before]]; cbn in Heq; try discriminate.
    + injection Heq as _ <- <-. auto.
    + destruct before; discriminate.
  - destruct before as [|ev [|ev' before]]; cbn in Heq; try discriminate.
  - destruct before as [|ev [|ev' before]]; cbn in Heq; try discriminate.
    + injection Heq as _ <- <-. auto.
    + destruct before; discriminate.
  - destruct before as [|ev [|ev' before]]; cbn in Heq; try discriminate.
    injection Heq as _ _ Heq. now apply (IH before).
Qed.

Lemma sequenced_start_follows_fulfilment ops evs r before op after :
  Sequenced ops evs r ->
  evs = before ++ Started op :: after ->
  before = []
  \/ exists earlier prev v, before = earlier ++ [Finished prev (Fulfilled v)].
Proof.
  intros H. revert before.
  induction H as [op0 r0 | op0 ops | op0 e0 ops | op0 v ops evs r H IH];
    intros before Heq.
  - destruct before as [|ev [|ev' before]]; cbn in Heq; auto; try discriminate.
    destruct before; discriminate.
  - destruct before as [|ev before]; cbn in Heq; auto.
    destruct before; discriminate.
  - destruct before as [|ev [|ev' before]]; cbn in Heq; auto; try discriminate.
    destruct before; discriminate.
  - destruct before as [|ev [|ev' before]]; cbn in Heq; auto; try discriminate.
    injection Heq as <- <- Heq. right.
    destruct (IH before Heq) as [-> | (earlier & prev & v' & ->)].
    + now exists [Started op0], op0, v.
    + now exists (Started op0 :: Finished op0 (Fulfilled v) :: earlier), prev, v'.
Qed.

(** Journal entries about constructions are neither about the chain nor
    about callbacks. *)
Lemma constructions_are_silent evs :
  forallb is_construction evs = true ->
  List.filter about_chain evs = [] /\ List.filter about_callbacks evs = [].
Proof.
  induction evs as [|ev evs IH]; [auto|].
  destruct ev; cbn; try discriminate; exact IH.
Qed.

Lemma forallb_constructed what l :
  forallb is_construction (map (Constructed what) l) = true.
Proof. induction l; cbn; auto. Qed.

Lemma ops_of_first p : exists rest, ops_of p = first_op p :: rest.
Proof.
  induction p as [op work | q [rest IH] op | q IH done]; cbn.
  - now exists [].
  - rewrite IH. now exists (rest ++ [op]).
  - exact IH.
Qed.

(** The load journals constructions only and leaves the chain alone. *)
Lemma load_frame st :
  exists st' evs,
    _load st = Normal tt st'
    /\ journal (world st') = journal (world st) ++ evs
    /\ forallb is_construction evs = true
    /\ _promise (self st') = _promise (self st)
    /\ exists lvls, _levels (self st') = Some lvls /\ _buildDecl (self st') = _buildDecl (self st).
Proof.
  destruct st as [t rt]. pose proof (_load_runs t rt) as Hload. cbv zeta in Hload.
  eexists _, _. split; [exact Hload|]. cbn.
  split; [reflexivity|]. split.
  - destruct (_fs t); cbn; rewrite forallb_app, forallb_constructed; reflexivity.
  - split; [reflexivity|]. eexists. split; reflexivity.
Qed.

(** One more item: appended to a chain that exists, called at once when
    there is none. *)
Lemma enqueue_step op st st' :
  _enqueue op st = Normal tt st' ->
  exists evs,
    journal (world st') = journal (world st) ++ evs
    /\ pending st' = pending st ++ [op]
    /\ watchers st' = watchers st
    /\ List.filter about_chain evs
       = match pending st with [] => [Started op] | _ => [] end
    /\ List.filter about_callbacks evs = [].
Proof.
  unfold _enqueue, bind, this, pending, watchers. cbn [self].
  destruct (_promise (self st)) as [p|] eqn:Hp.
  - unfold assign. intros [= <-]. exists []. cbn. rewrite app_nil_r.
    destruct (ops_of_first p) as [rest ->]. auto.
  - pose proof (invoke_frame op st) as Hinv. cbv zeta in Hinv.
    destruct (invoke op st) as [work st1 | e st1]; [|discriminate].
    cbn in Hinv. destruct Hinv as (Hj & _ & _ & _ & [start Hself]).
    unfold assign. intros [= <-]. exists [Started op]. cbn.
    rewrite Hj. auto.
Qed.

(** What one call, other than [notify], does to the chain and the
    journal. *)
Lemma call_step c st st' :
  notifies c = false ->
  call c st = Normal tt st' ->
  exists evs ops,
    journal (world st') = journal (world st) ++ evs
    /\ pending st' = pending st ++ ops
    /\ watchers st' = watchers st
    /\ Forall2 appends (List.filter chained [c]) ops
    /\ List.filter about_chain evs
       = match pending st with [] => map Started (take 1 ops) | _ => [] end
    /\ List.filter about_callbacks evs = [].
Proof.
  intros Hnot Hcall.
  assert (Hsetup : forall f, st' = {| self := f (self st); world := world st |} ->
             _promise (f (self st)) = _promise (self st) ->
             chained c = false ->
             exists evs ops,
               journal (world st') = journal (world st) ++ evs
               /\ pending st' = pending st ++ ops
               /\ watchers st' = watchers st
               /\ Forall2 appends (List.filter chained [c]) ops
               /\ List.filter about_chain evs
                  = match pending st with [] => map Started (take 1 ops) | _ => [] end
               /\ List.filter about_callbacks evs = []).
  { intros f -> Hp Hc. exists [], []. unfold pending, watchers.
    cbn [self world List.filter]. rewrite Hp, Hc.
    rewrite !app_nil_r. repeat split; auto. now destruct (_promise (self st)) as [p|]; [destruct (ops_of p)|]. }
  assert (Hchain : forall op st1 evs1,
             _enqueue op st1 = Normal tt st' ->
             journal (world st1) = journal (world st) ++ evs1 ->
             forallb is_construction evs1 = true ->
             _promise (self st1) = _promise (self st) ->
             appends c op -> chained c = true ->
             exists evs ops,
               journal (world st') = journal (world st) ++ evs
               /\ pending st' = pending st ++ ops
               /\ watchers st' = watchers st
               /\ Forall2 appends (List.filter chained [c]) ops
               /\ List.filter about_chain evs
                  = match pending st with [] => map Started (take 1 ops) | _ => [] end
               /\ List.filter about_callbacks evs = []).
  { intros op st1 evs1 Henq Hj Hcons Hp Happ Hc.
    destruct (enqueue_step op st1 st' Henq) as (evs & Hj' & Hpend & Hwatch & Hch & Hcb).
    destruct (constructions_are_silent evs1 Hcons) as [Hs1 Hs2].
    exists (evs1 ++ evs), [op]. rewrite Hj', Hj, <- List.app_assoc.
    rewrite !List.filter_app, Hs1, Hs2, Hch, Hcb, Hpend, Hwatch.
    unfold pending, watchers. rewrite Hp. cbn. rewrite Hc.
    repeat split; auto. }
  destruct c; try discriminate Hnot; cbn [call] in Hcall.
  - unfold withSourceFiles, assign in Hcall. injection Hcall as <-.
    now apply (Hsetup (set_sources (Some sources))).
  - unfold withMockedModules in Hcall.
    destruct (_ || _); [discriminate|].
    unfold bind, this, assign in Hcall. cbn in Hcall. injection Hcall as <-.
    now eapply (Hsetup (set_mockedModules _)).
  - unfold withMockedModulesResolves, bind, this, assign in Hcall. cbn in Hcall.
    injection Hcall as <-. now eapply (Hsetup (set_mockedResolves _)).
  - unfold withLevel, withLevels, assign in Hcall. injection Hcall as <-.
    now eapply (Hsetup (set_levelPaths _)).
  - unfold withLevels, assign in Hcall. injection Hcall as <-.
    now eapply (Hsetup (set_levelPaths _)).
  - unfold withTechMap, assign in Hcall. injection Hcall as <-.
    now eapply (Hsetup (set_techMap _)).
  - apply (Hchain (TouchFile path) st []);
      [exact Hcall | now rewrite app_nil_r | reflexivity..].
  - unfold create in Hcall. unfold bind at 1 in Hcall.
    destruct (load_frame st) as (st1 & evs1 & Hload & Hj & Hcons & Hp & lvls & Hlv & _).
    rewrite Hload in Hcall. unfold bind, this, member in Hcall. cbn in Hcall.
    rewrite Hlv in Hcall. cbn in Hcall.
    apply (Hchain _ st1 evs1 Hcall); auto. reflexivity.
  - unfold build in Hcall. unfold bind at 1 in Hcall. unfold assign at 1 in Hcall.
    unfold bind at 1 in Hcall.
    destruct (load_frame {| self := set_buildDecl (Some decl) (self st); world := world st |})
      as (st1 & evs1 & Hload & Hj & Hcons & Hp & _).
    rewrite Hload in Hcall.
    apply (Hchain _ st1 evs1 Hcall); auto. now split.
  - unfold producesFile, bind, assign in Hcall.
    apply (Hchain _ _ [] Hcall); [now rewrite app_nil_r | reflexivity..].
  - unfold withContent, bind, this in Hcall.
    apply (Hchain _ _ [] Hcall); [now rewrite app_nil_r | reflexivity..].
  - apply (Hchain (WritesToFile path) st []);
      [exact Hcall | now rewrite app_nil_r | reflexivity..].
  - apply (Hchain (NotWritesToFile path) st []);
      [exact Hcall | now rewrite app_nil_r | reflexivity..].
  - apply (Hchain (Asserts callback) st []);
      [exact Hcall | now rewrite app_nil_r | reflexivity..].
Qed.

(** The same for a whole test body. *)
Lemma body_steps calls : forall st st',
  Forall (fun c => notifies c = false) calls ->
  body calls st = Normal tt st' ->
  exists evs ops,
    journal (world st') = journal (world st) ++ evs
    /\ pending st' = pending st ++ ops
    /\ watchers st' = watchers st
    /\ Forall2 appends (List.filter chained calls) ops
    /\ List.filter about_chain evs
       = match pending st with [] => map Started (take 1 ops) | _ => [] end
    /\ List.filter about_callbacks evs = [].
Proof.
  induction calls as [|c calls IH]; intros st st' Hnot Hbody.
  - cbn in Hbody. injection Hbody as <-. exists [], []. rewrite !app_nil_r.
    repeat split; auto. now destruct (pending st).
  - apply Forall_cons in Hnot as [Hc Hnot].
    cbn [body] in Hbody. unfold bind in Hbody.
    destruct (call c st) as [[] st1 | e st1] eqn:Hcall; [|discriminate].
    destruct (call_step c st st1 Hc Hcall)
      as (evs1 & ops1 & Hj1 & Hp1 & Hw1 & Ha1 & Hch1 & Hcb1).
    destruct (IH st1 st' Hnot Hbody)
      as (evs2 & ops2 & Hj2 & Hp2 & Hw2 & Ha2 & Hch2 & Hcb2).
    exists (evs1 ++ evs2), (ops1 ++ ops2).
    rewrite Hj2, Hj1, Hp2, Hp1, Hw2, Hw1, <- !List.app_assoc.
    rewrite !List.filter_app, Hch1, Hch2, Hcb1, Hcb2, Hp1.
    change (c :: calls) with ([c] ++ calls). rewrite List.filter_app.
    repeat split; auto.
    + now apply Forall2_app.
    + destruct (pending st) as [|op0 rest]; [|reflexivity].
      cbn. destruct ops1 as [|op1 ops1]; cbn; [reflexivity|].
      now rewrite take_0.
Qed.


(** What the load constructs, by kind. *)
Lemma load_effect (st : State) :
  exists st1,
    _load st = Normal tt st1
    /\ _fs (self st1) = Some (default (nextId (world st)) (_fs (self st)))
    /\ sandbox (world st1)
       = match _fs (self st) with
         | Some _ => sandbox (world st)
         | None => put_vfs (nextId (world st))
                     (QFSMock.create (clock (sandbox (world st)))
                        (default [] (_sources (self st))))
                     (sandbox (world st))
         end
    /\ (forall what,
          constructions what (journal (world st1))
          = constructions what (journal (world st))
            + match what with
              | RQFSMock => match _fs (self st) with Some _ => 0 | None => 1 end
              | RStubLevel => length (level_paths (self st))
              | _ => 1
              end)
    /\ _techMap (self st1) = Some (registry (self st))
    /\ _levelPaths (self st1) = Some (level_paths (self st))
    /\ (exists first, _levels (self st1)
                      = Some (stub_levels first (level_paths (self st)) (registry (self st))))
    /\ _promise (self st1) = _promise (self st).
Proof.
  destruct st as [t rt]. pose proof (_load_runs t rt) as Hload. cbv zeta in Hload.
  eexists. split; [exact Hload|]. cbn [self world journal sandbox nextId].
  split; [reflexivity|]. split; [reflexivity|]. split.
  - intros what. rewrite !constructions_app, constructions_run.
    clear Hload. destruct what, (_fs t); cbn;
      repeat case_decide; try discriminate; try congruence; lia.
  - split; [reflexivity|]. split; [reflexivity|]. split; [eexists|]; reflexivity.
Qed.

(** Enqueueing, whether it returns or throws, constructs nothing and
    leaves the sandbox and the loaded objects alone. *)
Lemma enqueue_frame op st :
  let st' := outcome (_enqueue op st) in
  sandbox (world st') = sandbox (world st)
  /\ (forall what, constructions what (journal (world st'))
                   = constructions what (journal (world st)))
  /\ exists start promise,
       self st' = set_promise promise (set_testStartTime start (self st)).
Proof.
  assert (Hid : forall t, t = set_promise (_promise t) (set_testStartTime (_testStartTime t) t))
    by (intros []; reflexivity).
  unfold _enqueue, bind, this. cbn [self].
  destruct (_promise (self st)) as [p|] eqn:Hp.
  - cbn. repeat split. exists (_testStartTime (self st)), (Some (Then p op)).
    now destruct (self st).
  - pose proof (invoke_frame op st) as Hinv. cbv zeta in Hinv.
    destruct (invoke op st) as [work st1 | e st1]; cbn in Hinv |- *;
      destruct Hinv as (Hj & Hsb & _ & _ & [start Hself]);
      (split; [exact Hsb|]); (split; [intros what; rewrite Hj, constructions_app; cbn; lia|]).
    + exists start, (Some (Returned op work)). rewrite Hself. now destruct (self st).
    + exists start, None. rewrite Hself, <- Hp. now destruct (self st).
Qed.

(** ** The chain runs in call order *)

(** C1, as amended.  Take a session without a chain, and a test body that
    returns normally, calls at least one chain method and leaves [notify]
    for the end.  Then the chain holds one item per chain method called,
    in call order; the first item is called inside its method, every other
    one in the event loop, right after the item before it was fulfilled;
    once an item is rejected, or for as long as one stays pending, no later
    item is started; and [done] is called exactly once when the chain
    settles, with the value of the last item or with the first error, and
    not at all when an item stays pending for ever. *)
Theorem chain_runs_in_call_order
    (st0 st1 : State) (calls : list Call) (done : string) :
  _promise (self st0) = None ->
  Forall (fun c => notifies c = false) calls ->
  List.filter chained calls <> [] ->
  body calls st0 = Normal tt st1 ->
  exists p st2 called looped r,
    _promise (self st1) = Some p
    /\ Forall2 appends (List.filter chained calls) (ops_of p)
    /\ journal (world st1) = journal (world st0) ++ called
    /\ List.filter about_chain called = [Started (first_op p)]
    /\ notify done st1 = Normal tt st2
    /\ journal (world (drain st2)) = journal (world st1) ++ looped
    /\ Sequenced (ops_of p) (List.filter about_chain (called ++ looped)) r
    /\ List.filter about_callbacks (called ++ looped) = settled (Called done) r.
Proof.
  intros Hfresh Hnot Hsome Hbody.
  destruct (body_steps calls st0 st1 Hnot Hbody)
    as (evs1 & ops & Hj1 & Hp1 & Hw1 & Happ & Hch1 & Hcb1).
  unfold pending, watchers in *. rewrite Hfresh in *. cbn in Hp1, Hw1, Hch1.
  destruct (_promise (self st1)) as [p|] eqn:Hp.
  2:{ subst ops. apply Forall2_nil_inv_r in Happ. contradiction. }
  subst ops.
  set (st2 := {| self := set_promise (Some (Observed p done)) (self st1);
                 world := world st1 |}).
  destruct (settle_sequenced p st2) as (evs2 & Hj2 & Hseq & Hcb2).
  destruct (ops_of_first p) as [rest Hops].
  exists p, st2, evs1, (evs2 ++ settled (Called done) (snd (settle p st2))),
    (snd (settle p st2)).
  split; [reflexivity|]. split; [exact Happ|]. split; [exact Hj1|]. split.
  { rewrite Hch1, Hops. reflexivity. }
  split.
  { unfold notify, bind, this, member, assign. cbn. now rewrite Hp. }
  split.
  { unfold drain. cbn [st2 self _promise set_promise settle].
    destruct (settle p st2) as [st3 r]. cbn in Hj2 |- *.
    rewrite Hj2. subst st2. cbn. now rewrite <- !List.app_assoc. }
  rewrite !List.filter_app, Hch1, Hcb1, (Hcb2 Hw1).
  destruct (filter_settled_called done (snd (settle p st2))) as [-> ->].
  cbn. rewrite app_nil_r. split; [|reflexivity].
  rewrite Hops at 2. cbn. exact Hseq.
Qed.

Lemma chain_runs_in_call_order_witness :
  let calls := [CallCreate sample_elem; CallProducesFile "/x.css";
                CallWritesToFile "/x.css"; CallNotWritesToFile "/x.css";
                CallProducesFile "/y.css"] in
  _promise (self sample_session) = None
  /\ Forall (fun c => notifies c = false) calls
  /\ List.filter chained calls <> []
  /\ body calls sample_session
     = Normal tt (outcome (body calls sample_session))
  /\ exists p st2 called looped r,
       _promise (self (outcome (body calls sample_session))) = Some p
       /\ Forall2 appends (List.filter chained calls) (ops_of p)
       /\ journal (world (outcome (body calls sample_session)))
          = journal (world sample_session) ++ called
       /\ List.filter about_chain called = [Started (first_op p)]
       /\ notify "done" (outcome (body calls sample_session)) = Normal tt st2
       /\ journal (world (drain st2))
          = journal (world (outcome (body calls sample_session))) ++ looped
       /\ Sequenced (ops_of p) (List.filter about_chain (called ++ looped)) r
       /\ List.filter about_callbacks (called ++ looped)
          = settled (Called "done") r.
Proof.
  intros calls.
  assert (Hquiet : Forall (fun c => notifies c = false) calls)
    by (repeat constructor).
  assert (Hsome : List.filter chained calls <> []) by discriminate.
  assert (Hbody : body calls sample_session
                  = Normal tt (outcome (body calls sample_session)))
    by (vm_compute; reflexivity).
  split; [reflexivity|]. split; [exact Hquiet|]. split; [exact Hsome|].
  split; [exact Hbody|].
  exact (chain_runs_in_call_order sample_session _ calls "done"
           eq_refl Hquiet Hsome Hbody).
Defined.

(** C1 as stated fails on the code: on a session whose chain is empty
    [notify] throws, and [done] is never called. *)
Lemma notify_on_empty_chain_never_calls_back :
  _promise (self sample_session) = None
  /\ notify "done" sample_session
     = Throw (TypeError "Cannot read property 'then' of undefined")
         sample_session
  /\ List.filter about_callbacks
       (journal (world (drain (outcome (notify "done" sample_session))))) = [].
Proof. repeat split. Qed.

(** The first chain item is called inside its method: when it throws, the
    exception leaves the method, the chain stays empty and the test body
    ends before [notify] is reached. *)
Lemma first_item_throws_out_of_its_method :
  body [CallProducesFile "/x.css"; CallNotify "done"] sample_session
  = Throw (TypeError "Cannot read property 'exists' of undefined")
      {| self := set_lastFileName (Some "/x.css") (self sample_session);
         world := record (Started (ProducesFile "/x.css")) (world sample_session) |}.
Proof. reflexivity. Qed.

(** The run of the sample body, spelled out: the fourth item fails its
    assertion, the fifth is never started, and [done] gets that failure. *)
Lemma sample_run_stops_at_first_failure :
  let calls := [CallCreate sample_elem; CallProducesFile "/x.css";
                CallWritesToFile "/x.css"; CallNotWritesToFile "/x.css";
                CallProducesFile "/y.css"; CallNotify "done"] in
  let failure := Rejected (AssertionError "Expected file /x.css not to be modifed") in
  List.filter (fun ev => about_chain ev || about_callbacks ev)
    (journal (world (drain (outcome (body calls sample_session)))))
  = [Started (Create sample_elem (head (stub_levels 2 ["/"] (registry (self sample_session)))));
     Finished (Create sample_elem (head (stub_levels 2 ["/"] (registry (self sample_session)))))
       (Fulfilled JsUndefined);
     Started (ProducesFile "/x.css");
     Finished (ProducesFile "/x.css") (Fulfilled JsUndefined);
     Started (WritesToFile "/x.css");
     Finished (WritesToFile "/x.css") (Fulfilled JsUndefined);
     Started (NotWritesToFile "/x.css");
     Finished (NotWritesToFile "/x.css") failure;
     Called "done" failure].
Proof. vm_compute. reflexivity. Qed.

(** A technology whose promise never settles: its item is started, no
    other is, and [done] is never called. *)
Lemma hung_create_hangs_the_chain :
  let calls := [CallCreate sample_elem; CallProducesFile "/x.css";
                CallNotify "done"] in
  let st := boot hanging_tech 1000 (__constructor "css" "/techs/css.js") in
  List.filter (fun ev => about_chain ev || about_callbacks ev)
    (journal (world (drain (outcome (body calls st)))))
  = [Started (Create sample_elem (head (stub_levels 2 ["/"] (registry (self st)))))].
Proof. vm_compute. reflexivity. Qed.

Lemma writes_and_notWrites_exclusive_witness :
  _fs (self sample_created) = Some 0
  /\ _testStartTime (self sample_created) = Some 1000%Z
  /\ vfs (sandbox (world sample_created)) 0 !! "/x.css"
     = Some (File ".x {}" 1005 1005)
  /\ snd (perform (WritesToFile "/x.css") sample_created)
     = Some (Fulfilled JsUndefined)
  /\ snd (perform (NotWritesToFile "/x.css") sample_created)
     = Some (Rejected (AssertionError "Expected file /x.css not to be modifed"))
  /\ snd (perform (WritesToFile "/gone.css") sample_created)
     = Some (Rejected (NotFoundError "/gone.css"))
  /\ snd (perform (NotWritesToFile "/gone.css") sample_created)
     = Some (Rejected (NotFoundError "/gone.css")).
Proof.
  assert (Hfs : _fs (self sample_created) = Some 0) by reflexivity.
  assert (Hstart : _testStartTime (self sample_created) = Some 1000%Z)
    by reflexivity.
  assert (Hfile : vfs (sandbox (world sample_created)) 0 !! "/x.css"
                  = Some (File ".x {}" 1005 1005)) by (vm_compute; reflexivity).
  assert (Hgone : vfs (sandbox (world sample_created)) 0 !! "/gone.css" = None)
    by (vm_compute; reflexivity).
  split; [exact Hfs|]. split; [exact Hstart|]. split; [exact Hfile|].
  destruct (writes_and_notWrites_exclusive sample_created 0 1000 "/x.css"
              Hfs Hstart) as [Hpresent _].
  destruct (writes_and_notWrites_exclusive sample_created 0 1000 "/gone.css"
              Hfs Hstart) as [_ Habsent].
  destruct (Hpresent _ _ _ Hfile) as [(_ & Hw & Hn) | (Hle & _)]; [|lia].
  destruct (Habsent Hgone) as [Hw' Hn'].
  repeat split; assumption.
Defined.

(** Before any action the start time is undefined, and then neither check
    passes on an existing file. *)
Lemma neither_holds_without_start_time (st : State) (fs : nat) (path : string)
    (content : string) (m a : Z) :
  _fs (self st) = Some fs ->
  _testStartTime (self st) = None ->
  vfs (sandbox (world st)) fs !! path = Some (File content m a) ->
  snd (perform (WritesToFile path) st)
  = Some (Rejected (AssertionError ("Expected file " +:+ path +:+ " to be modifed")))
  /\ snd (perform (NotWritesToFile path) st)
     = Some (Rejected (AssertionError
                        ("Expected file " +:+ path +:+ " not to be modifed"))).
Proof.
  intros Hfs Hstart Hfile.
  rewrite (perform_writesToFile st fs path Hfs).
  rewrite (perform_notWritesToFile st fs path Hfs).
  unfold QFSMock.lastModified. rewrite Hstart, Hfile. split; reflexivity.
Qed.

(** ** The default level *)






(** ** What an action call constructs *)

Lemma action_effect (c : Call) (st : State) :
  acts c = true ->
  let st' := outcome (call c st) in
  _fs (self st') = Some (default (nextId (world st)) (_fs (self st)))
  /\ sandbox (world st')
     = match _fs (self st) with
       | Some _ => sandbox (world st)
       | None => put_vfs (nextId (world st))
                   (QFSMock.create (clock (sandbox (world st)))
                      (default [] (_sources (self st))))
                   (sandbox (world st))
       end
  /\ (forall what,
        constructions what (journal (world st'))
        = constructions what (journal (world st))
          + match what with
            | RQFSMock => match _fs (self st) with Some _ => 0 | None => 1 end
            | RStubLevel => length (level_paths (self st))
            | _ => 1
            end)
  /\ _techMap (self st') = Some (registry (self st))
  /\ _levelPaths (self st') = Some (level_paths (self st)).
Proof.
  intros Hact.
  assert (Hthen : forall op st0 st1,
            _fs (self st0) = _fs (self st) ->
            _sources (self st0) = _sources (self st) ->
            level_paths (self st0) = level_paths (self st) ->
            registry (self st0) = registry (self st) ->
            world st0 = world st ->
            _load st0 = Normal tt st1 ->
            let st' := outcome (_enqueue op st1) in
            _fs (self st') = Some (default (nextId (world st)) (_fs (self st)))
            /\ sandbox (world st')
               = match _fs (self st) with
                 | Some _ => sandbox (world st)
                 | None => put_vfs (nextId (world st))
                             (QFSMock.create (clock (sandbox (world st)))
                                (default [] (_sources (self st))))
                             (sandbox (world st))
                 end
            /\ (forall what,
                  constructions what (journal (world st'))
                  = constructions what (journal (world st))
                    + match what with
                      | RQFSMock => match _fs (self st) with Some _ => 0 | None => 1 end
                      | RStubLevel => length (level_paths (self st))
                      | _ => 1
                      end)
            /\ _techMap (self st') = Some (registry (self st))
            /\ _levelPaths (self st') = Some (level_paths (self st))).
  { intros op st0 st1 Hfs Hsrc Hpaths Hreg Hworld Hload st'.
    destruct (load_effect st0) as (st1' & Hload' & H1 & H2 & H3 & H4 & H5 & _).
    rewrite Hload in Hload'. injection Hload' as <-.
    pose proof (enqueue_frame op st1) as Hframe. cbv zeta in Hframe.
    fold st' in Hframe. destruct Hframe as (Hsb & Hcount & start & promise & Hself).
    rewrite Hself, Hsb. cbn. rewrite H1, H2, H4, H5, Hfs, Hsrc, Hpaths, Hreg, Hworld.
    repeat split; auto. intros what. rewrite Hcount, H3, Hfs, Hpaths, Hworld.
    reflexivity. }
  destruct c; try discriminate; cbn [call].
  - destruct (load_effect st) as (st1 & Hload & _ & _ & _ & _ & _ & [first Hlv] & _).
    assert (Hrun : create elem st
                   = _enqueue (Create elem (head (stub_levels first (level_paths (self st))
                                                    (registry (self st))))) st1).
    { unfold create. unfold bind at 1. rewrite Hload.
      unfold bind, this, member. cbn [self]. rewrite Hlv. reflexivity. }
    rewrite Hrun. now apply (Hthen _ st st1).
  - destruct (load_effect {| self := set_buildDecl (Some decl) (self st);
                             world := world st |}) as (st1 & Hload & _).
    assert (Hrun : build output decl st = _enqueue (Build output decl) st1).
    { unfold build. unfold bind at 1. unfold assign at 1. unfold bind at 1.
      now rewrite Hload. }
    rewrite Hrun.
    now apply (Hthen _ {| self := set_buildDecl (Some decl) (self st);
                          world := world st |} st1).
Qed.

Lemma legacy_action_kept (st : State) (loaded : TechInstance) :
  _tech (self st) = Some loaded ->
  (forall elem, kept st (outcome (Legacy.create elem st)))
  /\ (forall output decl, kept st (outcome (Legacy.build output decl st))).
Proof.
  intros Hloaded.
  assert (Hguard : Legacy._load st = Normal tt st)
    by (destruct st as [t rt]; now apply (legacy_load_guard t rt loaded)).
  assert (Henq : forall op, kept st (outcome (_enqueue op st))).
  { intros op. pose proof (enqueue_frame op st) as Hframe. cbv zeta in Hframe.
    destruct Hframe as (Hsb & Hcount & start & promise & Hself).
    unfold kept. rewrite Hself, Hsb. cbn. auto 10. }
  split.
  - intros elem. unfold Legacy.create. unfold bind at 1. rewrite Hguard.
    unfold bind, this, member. cbn.
    destruct (_levels (self st)) as [lvls|]; cbn; [apply Henq|].
    unfold kept. auto 10.
  - intros output decl. unfold Legacy.build. unfold bind at 1. rewrite Hguard.
    apply Henq.
Qed.

(** C2, as amended.  Once a session has its virtual filesystem, a
    further [create] or [build] keeps that filesystem, the same object
    with the same content, and constructs no other; in the current revision
    the call does assemble the mock table again and construct the stub
    levels, the context and the technology instance again, over the level
    paths and the registry of the session; in the earlier revision, where
    [_load] returns at once when a technology is loaded, the call
    constructs nothing and keeps levels, context and technology as well. *)
Theorem action_reuses_the_vfs (st : State) (fs : nat) (c : Call) :
  _fs (self st) = Some fs ->
  acts c = true ->
  let st' := outcome (call c st) in
  (_fs (self st') = Some fs
   /\ sandbox (world st') = sandbox (world st)
   /\ constructions RQFSMock (journal (world st'))
      = constructions RQFSMock (journal (world st)))
  /\ (constructions RFSMock (journal (world st'))
      = S (constructions RFSMock (journal (world st)))
      /\ constructions RStubLevel (journal (world st'))
         = constructions RStubLevel (journal (world st))
           + length (level_paths (self st))
      /\ constructions RContext (journal (world st'))
         = S (constructions RContext (journal (world st)))
      /\ constructions RTech (journal (world st'))
         = S (constructions RTech (journal (world st))))
  /\ (_levelPaths (self st') = Some (level_paths (self st))
      /\ _techMap (self st') = Some (registry (self st)))
  /\ (forall loaded, _tech (self st) = Some loaded ->
        (forall elem, kept st (outcome (Legacy.create elem st)))
        /\ (forall output decl, kept st (outcome (Legacy.build output decl st)))).
Proof.
  intros Hfs Hact st'.
  pose proof (action_effect c st Hact) as Heffect. cbv zeta in Heffect.
  fold st' in Heffect. rewrite Hfs in Heffect.
  destruct Heffect as (H1 & H2 & H3 & H4 & H5).
  split; [|split; [|split]].
  - split; [exact H1|]. split; [exact H2|]. rewrite (H3 RQFSMock). lia.
  - rewrite (H3 RFSMock), (H3 RStubLevel), (H3 RContext), (H3 RTech).
    repeat split; lia.
  - split; assumption.
  - intros loaded. apply legacy_action_kept.
Qed.

Lemma action_reuses_the_vfs_witness :
  let second := outcome (call (CallBuild "/out" JsNull) sample_called) in
  _fs (self sample_called) = Some 0
  /\ acts (CallBuild "/out" JsNull) = true
  /\ _fs (self second) = Some 0
  /\ sandbox (world second) = sandbox (world sample_called)
  /\ constructions RQFSMock (journal (world second))
     = constructions RQFSMock (journal (world sample_called)).
Proof.
  intros second. split; [reflexivity|]. split; [reflexivity|].
  exact (proj1 (action_reuses_the_vfs sample_called 0 (CallBuild "/out" JsNull)
                  eq_refl eq_refl)).
Defined.

(** The first action of a session constructs its one filesystem. *)
Lemma first_action_builds_the_vfs (st : State) (c : Call) :
  _fs (self st) = None ->
  acts c = true ->
  let st' := outcome (call c st) in
  _fs (self st') = Some (nextId (world st))
  /\ constructions RQFSMock (journal (world st'))
     = S (constructions RQFSMock (journal (world st))).
Proof.
  intros Hfs Hact st'.
  pose proof (action_effect c st Hact) as Heffect. cbv zeta in Heffect.
  fold st' in Heffect. rewrite Hfs in Heffect.
  destruct Heffect as (H1 & _ & H3 & _). split; [exact H1|].
  rewrite (H3 RQFSMock). lia.
Qed.

(** C2 as stated fails on the current revision: a second [create] on
    the sample session keeps the filesystem, object 0, but constructs the
    stub level, the context and the technology instance a second time. *)
Lemma second_create_rebuilds_levels_context_and_tech :
  let first := sample_called in
  let second := outcome (create sample_elem first) in
  (_fs (self first) = Some 0 /\ _fs (self second) = Some 0)
  /\ (List.map StubLevel.identity <$> _levels (self first) = Some [2]
      /\ List.map StubLevel.identity <$> _levels (self second) = Some [6])
  /\ (contextId <$> _context (self first) = Some 3
      /\ contextId <$> _context (self second) = Some 7)
  /\ (techId <$> _tech (self first) = Some 4
      /\ techId <$> _tech (self second) = Some 8)
  /\ (constructions RStubLevel (journal (world second)) = 2
      /\ constructions RContext (journal (world second)) = 2
      /\ constructions RTech (journal (world second)) = 2
      /\ constructions RQFSMock (journal (world second)) = 1).
Proof. vm_compute. repeat split. Qed.

(** ** touchFile *)

(** What the touch does when its chain item runs. *)
Lemma perform_touch (st : State) (fs : nat) (path content : string) (m a : Z) :
  _fs (self st) = Some fs ->
  vfs (sandbox (world st)) fs !! path = Some (File content m a) ->
  perform (TouchFile path) st
  = ({| self := self st;
        world := record (Finished (TouchFile path) (Fulfilled JsUndefined))
                   (set_sandbox
                      (put_vfs fs
                         (<[path := File content (clock (sandbox (world st)))
                                      (clock (sandbox (world st)))]>
                            (vfs (sandbox (world st)) fs))
                         (sandbox (world st)))
                      (record (Started (TouchFile path)) (world st))) |},
     Some (Fulfilled JsUndefined)).
Proof.
  intros Hfs Hfile. destruct st as [t rt]. cbn [self world] in *.
  unfold perform, invoke, bind, log, effect, this, member, ret. cbn [self world].
  rewrite Hfs. cbn. unfold finish, await. cbn [self world sandbox record].
  unfold QFSMock.open. rewrite Hfile. unfold QFSMock.close. rewrite Hfile.
  reflexivity.
Qed.

Lemma vfs_put_vfs (sb : Sandbox) (fs : nat) (tree : gmap string FsNode) :
  vfs (put_vfs fs tree sb) fs = tree.
Proof. unfold vfs, put_vfs. cbn. now rewrite lookup_insert_eq. Qed.

(** C6, as amended.  On a session that already has a chain, [touchFile]
    changes nothing but the chain, to which it appends the touch; the touch
    is started only after everything the chain held before has been
    fulfilled, and not at all if that was rejected or stays pending; and
    when the touch runs on an existing file it sets the file's timestamps
    to the time it runs at, and leaves the content of that file, and every
    other path, as it was. *)
Theorem touchFile_is_deferred_on_a_started_chain
    (st : State) (p : Promise) (path : string) :
  _promise (self st) = Some p ->
  touchFile path st
  = Normal tt {| self := set_promise (Some (Then p (TouchFile path))) (self st);
                 world := world st |}
  /\ (forall st0, exists before after,
        journal (world (fst (settle p st0))) = journal (world st0) ++ before
        /\ journal (world (fst (settle (Then p (TouchFile path)) st0)))
           = journal (world st0) ++ before ++ after
        /\ ((forall v, snd (settle p st0) <> Some (Fulfilled v)) /\ after = []
            \/ (exists v r, snd (settle p st0) = Some (Fulfilled v)
                  /\ after = Started (TouchFile path)
                             :: settled (Finished (TouchFile path)) r)))
  /\ (forall st1 fs content m a,
        _fs (self st1) = Some fs ->
        vfs (sandbox (world st1)) fs !! path = Some (File content m a) ->
        let st2 := fst (perform (TouchFile path) st1) in
        let at_ := clock (sandbox (world st1)) in
        snd (perform (TouchFile path) st1) = Some (Fulfilled JsUndefined)
        /\ vfs (sandbox (world st2)) fs !! path = Some (File content at_ at_)
        /\ QFSMock.lastModified (vfs (sandbox (world st2)) fs) path = inr at_
        /\ QFSMock.read (vfs (sandbox (world st2)) fs) path = inr content
        /\ forall other, other <> path ->
             vfs (sandbox (world st2)) fs !! other
             = vfs (sandbox (world st1)) fs !! other).
Proof.
  intros Hp. split; [|split].
  - unfold touchFile, _enqueue, bind, this. cbn [self]. now rewrite Hp.
  - intros st0. destruct (settle_sequenced p st0) as (before & Hj & _ & _).
    exists before. cbn [settle].
    destruct (settle p st0) as [st1 r1]. cbn [fst snd] in *.
    destruct r1 as [[v | e]|].
    + eexists. split; [exact Hj|]. split.
      * rewrite perform_journal, Hj. now rewrite <- List.app_assoc.
      * right. eauto.
    + exists []. cbn. rewrite app_nil_r. split; [exact Hj|]. split; [exact Hj|].
      left. split; [discriminate | reflexivity].
    + exists []. cbn. rewrite app_nil_r. split; [exact Hj|]. split; [exact Hj|].
      left. split; [discriminate | reflexivity].
  - intros st1 fs content m a Hfs Hfile st2 at_. subst st2.
    rewrite (perform_touch st1 fs path content m a Hfs Hfile).
    cbn [fst snd world sandbox record set_sandbox].
    rewrite vfs_put_vfs. unfold QFSMock.lastModified, QFSMock.read.
    rewrite lookup_insert_eq. repeat split.
    intros other Hother. now apply lookup_insert_ne.
Qed.

Lemma touchFile_is_deferred_on_a_started_chain_witness :
  exists p,
    _promise (self sample_called) = Some p
    /\ touchFile "/x.css" sample_called
       = Normal tt {| self := set_promise (Some (Then p (TouchFile "/x.css")))
                                (self sample_called);
                      world := world sample_called |}.
Proof.
  destruct (_promise (self sample_called)) as [p|] eqn:Hp; [|discriminate Hp].
  exists p. split; [reflexivity|].
  exact (proj1 (touchFile_is_deferred_on_a_started_chain sample_called p "/x.css" Hp)).
Defined.

(** The sample session again: [create], a check that lasts ten
    milliseconds, then the touch.  The file keeps the content the
    technology wrote and is last modified when the touch ran. *)
Lemma sample_touch_keeps_content :
  let calls := [CallCreate sample_elem; CallAsserts ten_ms_pass;
                CallTouchFile "/x.css"] in
  let called := outcome (body calls sample_session) in
  vfs (sandbox (world called)) 0 !! "/x.css" = None
  /\ vfs (sandbox (world (drain called))) 0 !! "/x.css"
     = Some (File ".x {}" 1015 1015).
Proof. vm_compute. split; reflexivity. Qed.

(** C6 as stated fails on the code: on a session whose chain is empty
    the touch is called inside [touchFile] itself, where it throws for lack
    of a filesystem, and nothing is appended to the chain. *)
Lemma touchFile_on_empty_chain_runs_at_once :
  _promise (self sample_session) = None
  /\ touchFile "/x.css" sample_session
     = Throw (TypeError "Cannot read property 'open' of undefined")
         {| self := self sample_session;
            world := record (Started (TouchFile "/x.css")) (world sample_session) |}
  /\ _promise (self (outcome (touchFile "/x.css" sample_session))) = None.
Proof. repeat split. Qed.

(** With a filesystem in place and the chain still empty, as after a
    [create] whose technology threw, the touch is started inside
    [touchFile] and becomes the head of the chain. *)
Lemma touchFile_after_failed_create_runs_at_once :
  let st := outcome (create sample_elem
                       (boot throwing_tech 1000 (__constructor "css" "/techs/css.js"))) in
  _promise (self st) = None
  /\ _fs (self st) = Some 0
  /\ touchFile "/x.css" st
     = Normal tt {| self := set_promise
                              (Some (Returned (TouchFile "/x.css") (Touching 0 "/x.css")))
                              (self st);
                    world := record (Started (TouchFile "/x.css")) (world st) |}.
Proof. vm_compute. repeat split. Qed.

(** ** The registry over the life of a session *)

Lemma serves_unloaded (st st' : State) :
  same_names st st' ->
  _levels (self st') = _levels (self st) ->
  _context (self st') = _context (self st) ->
  serves st -> serves st'.
Proof.
  intros [Hn Hp] Hl Hc [H1 H2]. unfold serves. rewrite Hn, Hp, Hl, Hc. auto.
Qed.

Lemma serves_loaded (st : State) :
  exists st1, _load st = Normal tt st1 /\ same_names st st1 /\ serves st1.
Proof.
  destruct st as [t rt]. pose proof (_load_runs t rt) as Hload. cbv zeta in Hload.
  eexists. split; [exact Hload|]. split; [split; reflexivity|].
  unfold serves. cbn. split.
  - intros lvls [= <-]. eapply Forall_impl; [apply stub_levels_techs|].
    cbn. intros l ->. apply lookup_insert_eq.
  - intros ctx [= <-]. cbn. eapply path_in_paths_of. apply lookup_insert_eq.
Qed.

Lemma serves_enqueue (op : ChainOp) (st : State) :
  same_names st (outcome (_enqueue op st))
  /\ (serves st -> serves (outcome (_enqueue op st))).
Proof.
  pose proof (enqueue_frame op st) as Hframe. cbv zeta in Hframe.
  destruct Hframe as (_ & _ & start & promise & Hself).
  assert (Hsame : same_names st (outcome (_enqueue op st)))
    by (unfold same_names; rewrite Hself; split; reflexivity).
  split; [exact Hsame|].
  apply serves_unloaded; [exact Hsame | rewrite Hself; reflexivity..].
Qed.

Lemma serves_call (c : Call) (st : State) :
  same_names st (outcome (call c st))
  /\ (serves st -> serves (outcome (call c st))).
Proof.
  assert (Hset : forall f,
            _techName (f (self st)) = _techName (self st) ->
            _modulePath (f (self st)) = _modulePath (self st) ->
            _levels (f (self st)) = _levels (self st) ->
            _context (f (self st)) = _context (self st) ->
            let st' := {| self := f (self st); world := world st |} in
            same_names st st' /\ (serves st -> serves st')).
  { intros f Hn Hp Hl Hc st'. assert (Hsame : same_names st st') by (split; assumption).
    split; [exact Hsame|]. now apply serves_unloaded. }
  assert (Hthen : forall op st1,
            same_names st st1 -> (serves st -> serves st1) ->
            same_names st (outcome (_enqueue op st1))
            /\ (serves st -> serves (outcome (_enqueue op st1)))).
  { intros op st1 [Hn Hp] Hserves.
    destruct (serves_enqueue op st1) as [[Hn' Hp'] Hs'].
    split; [split; congruence | auto]. }
  destruct c; cbn [call].
  - apply (Hset (set_sources _)); reflexivity.
  - unfold withMockedModules. destruct (_ || _).
    + cbn. split; [split; reflexivity | auto].
    + apply (Hset (set_mockedModules _)); reflexivity.
  - apply (Hset (set_mockedResolves _)); reflexivity.
  - apply (Hset (set_levelPaths _)); reflexivity.
  - apply (Hset (set_levelPaths _)); reflexivity.
  - apply (Hset (set_techMap _)); reflexivity.
  - apply Hthen; [split; reflexivity | auto].
  - destruct (serves_loaded st) as (st1 & Hload & Hsame & Hs).
    destruct (load_effect st) as (st1' & Hload' & _ & _ & _ & _ & _ & [first Hlv] & _).
    rewrite Hload in Hload'. injection Hload' as <-.
    assert (Hrun : create elem st
                   = _enqueue (Create elem (head (stub_levels first (level_paths (self st))
                                                    (registry (self st))))) st1).
    { unfold create. unfold bind at 1. rewrite Hload.
      unfold bind, this, member. cbn [self]. rewrite Hlv. reflexivity. }
    rewrite Hrun. apply Hthen; auto.
  - set (st0 := {| self := set_buildDecl (Some decl) (self st); world := world st |}).
    destruct (serves_loaded st0) as (st1 & Hload & Hsame & Hs).
    assert (Hrun : build output decl st = _enqueue (Build output decl) st1).
    { unfold build. unfold bind at 1. unfold assign at 1. unfold bind at 1.
      fold st0. now rewrite Hload. }
    rewrite Hrun. apply Hthen; auto.
  - unfold producesFile, bind, assign.
    apply Hthen; [split; reflexivity|]. now apply serves_unloaded.
  - unfold withContent, bind, this. apply Hthen; [split; reflexivity | auto].
  - apply Hthen; [split; reflexivity | auto].
  - apply Hthen; [split; reflexivity | auto].
  - unfold notify, bind, this, member. cbn.
    destruct (_promise (self st)); cbn.
    + apply (Hset (set_promise _)); reflexivity.
    + split; [split; reflexivity | auto].
  - apply Hthen; [split; reflexivity | auto].
Qed.

(** Whatever a test body calls, and whether or not it runs to its end,
    the levels and the context the session holds afterwards know the
    technology under test. *)
Lemma serves_body (calls : list Call) : forall st,
  same_names st (outcome (body calls st))
  /\ (serves st -> serves (outcome (body calls st))).
Proof.
  induction calls as [|c calls IH]; intros st.
  - cbn. split; [split; reflexivity | auto].
  - cbn [body]. unfold bind.
    destruct (serves_call c st) as [[Hn Hp] Hs].
    destruct (call c st) as [[] st1 | e st1]; cbn [outcome] in *.
    + destruct (IH st1) as [[Hn' Hp'] Hs'].
      split; [split; congruence | auto].
    + split; [split; assumption | auto].
Qed.

Lemma perform_self (op : ChainOp) (st : State) :
  exists start, self (fst (perform op st)) = set_testStartTime start (self st).
Proof.
  unfold perform. pose proof (invoke_frame op st) as Hinv. cbv zeta in Hinv.
  destruct (invoke op st) as [work st' | e st']; cbn [outcome] in Hinv;
    destruct Hinv as (_ & _ & _ & _ & start & Hself); exists start.
  - destruct (finish_frame op work st') as (_ & -> & _). exact Hself.
  - exact Hself.
Qed.

Lemma settle_self (p : Promise) : forall st,
  exists start, self (fst (settle p st)) = set_testStartTime start (self st).
Proof.
  induction p as [op work | q IH op | q IH done]; intros st; cbn [settle].
  - exists (_testStartTime (self st)).
    destruct (finish_frame op work st) as (_ & -> & _). now destruct (self st).
  - destruct (IH st) as [start Hq]. destruct (settle q st) as [st1 r1].
    cbn [fst] in Hq. destruct r1 as [[v | e]|]; cbn [fst].
    + destruct (perform_self op st1) as [start' ->]. rewrite Hq. now exists start'.
    + now exists start.
    + now exists start.
  - destruct (IH st) as [start Hq]. destruct (settle q st) as [st1 r1].
    cbn [fst self] in *. now exists start.
Qed.

(** The event loop leaves levels and context alone. *)
Lemma serves_drain (st : State) : serves st -> serves (drain st).
Proof.
  unfold drain. destruct (_promise (self st)) as [p|]; [|auto].
  destruct (settle_self p st) as [start Hself].
  apply serves_unloaded; [split|..]; rewrite Hself; reflexivity.
Qed.

(** A [withTechMap] after an action replaces the session's map, and the
    next action writes the entry for the technology under test into the
    new one. *)
Lemma withTechMap_after_action_is_completed_by_next_action :
  let replaced := outcome (withTechMap {["base" := "/techs/base.js"]} sample_called) in
  let again := outcome (create sample_elem replaced) in
  (_techMap (self sample_called) ≫= (.!! "css")) = Some "/techs/css.js"
  /\ (_techMap (self replaced) ≫= (.!! "css")) = None
  /\ (_techMap (self again) ≫= (.!! "css")) = Some "/techs/css.js"
  /\ (_techMap (self again) ≫= (.!! "base")) = Some "/techs/base.js".
Proof. vm_compute. repeat split. Qed.

(** * The setup methods, the load and the chain in more detail *)

(** ** merge, and the setup methods that accumulate *)

Lemma merge_assoc {A} (obj1 obj2 obj3 : option (gmap string A)) :
  merge (Some (merge obj1 obj2)) obj3 = merge obj1 (Some (merge obj2 obj3)).
Proof. unfold merge. cbn. apply (assoc_L (∪)). Qed.

Lemma prop_merge (m1 m2 : gmap string JsValue) (key : string) :
  prop (merge (Some m1) (Some m2)) key
  = match m2 !! key with Some v => v | None => prop m1 key end.
Proof.
  unfold prop. rewrite lookup_merge. cbn. now destruct (m2 !! key).
Qed.

(** X1. [merge(obj1, obj2)] reads every key from [obj2] when [obj2] has
    it and from [obj1] otherwise; an operand that is [undefined] counts as
    the empty object, so merging with it returns a copy of the other
    operand; merging is associative, and merging an object with itself
    changes nothing. *)
Theorem merge_later_wins_and_composes (A : Type) :
  (forall (obj1 obj2 : option (gmap string A)) key,
     merge obj1 obj2 !! key
     = match default ∅ obj2 !! key with
       | Some v => Some v
       | None => default ∅ obj1 !! key
       end)
  /\ (forall obj : option (gmap string A),
        merge obj None = default ∅ obj /\ merge None obj = default ∅ obj)
  /\ (forall (obj1 obj2 obj3 : option (gmap string A)),
        merge (Some (merge obj1 obj2)) obj3 = merge obj1 (Some (merge obj2 obj3)))
  /\ (forall obj : option (gmap string A), merge obj obj = default ∅ obj).
Proof.
  split; [|split; [|split]].
  - intros. apply lookup_merge.
  - intros obj. unfold merge. cbn. split.
    + apply (left_id_L ∅ (∪)).
    + apply (right_id_L ∅ (∪)).
  - intros. apply merge_assoc.
  - intros. unfold merge. apply (idemp_L (∪)).
Qed.

(** X2. Two calls of [withMockedModules] that both pass the guard are
    one call with the two tables merged: the session ends up the same, and
    in its accumulated table a module reads from the second table if that
    has it, else from the first, else from what was accumulated before;
    nothing but the table changes. *)
Theorem withMockedModules_calls_accumulate
    (m1 m2 : gmap string JsValue) (st : State) :
  truthy (prop m1 "fs") || truthy (prop m1 "q-fs") || truthy (prop m1 "q-io/fs")
  = false ->
  truthy (prop m2 "fs") || truthy (prop m2 "q-fs") || truthy (prop m2 "q-io/fs")
  = false ->
  (withMockedModules m1;; withMockedModules m2) st
  = withMockedModules (merge (Some m1) (Some m2)) st
  /\ exists st',
       (withMockedModules m1;; withMockedModules m2) st = Normal tt st'
       /\ world st' = world st
       /\ forall key,
            default ∅ (_mockedModules (self st')) !! key
            = match m2 !! key with
              | Some v => Some v
              | None => match m1 !! key with
                        | Some v => Some v
                        | None => default ∅ (_mockedModules (self st)) !! key
                        end
              end.
Proof.
  intros H1 H2.
  assert (Hrun : (withMockedModules m1;; withMockedModules m2) st
                 = Normal tt
                     {| self := set_mockedModules
                                  (Some (merge (Some (merge (_mockedModules (self st))
                                                        (Some m1)))
                                           (Some m2))) (self st);
                        world := world st |}).
  { unfold bind, withMockedModules. rewrite H1. unfold bind, this, assign.
    cbn [self world]. rewrite H2. reflexivity. }
  split.
  - rewrite Hrun. unfold withMockedModules.
    apply orb_false_elim in H1 as [H1 H1c]. apply orb_false_elim in H1 as [H1a H1b].
    apply orb_false_elim in H2 as [H2 H2c]. apply orb_false_elim in H2 as [H2a H2b].
    assert (Hg : forall key,
              truthy (prop m1 key) = false -> truthy (prop m2 key) = false ->
              truthy (prop (merge (Some m1) (Some m2)) key) = false).
    { intros key Ha Hb. rewrite prop_merge. unfold prop in Hb.
      destruct (m2 !! key); [exact Hb | exact Ha]. }
    rewrite !Hg by assumption. unfold bind, this, assign. cbn [self world].
    now rewrite merge_assoc.
  - eexists. split; [exact Hrun|]. split; [reflexivity|].
    intros key. cbn [self _mockedModules set_mockedModules default].
    unfold id. rewrite lookup_merge. cbn [default]. unfold id.
    rewrite lookup_merge. cbn [default]. unfold id.
    repeat match goal with |- context [match ?x with _ => _ end] => destruct x end;
      reflexivity.
Qed.

Lemma withMockedModules_calls_accumulate_witness :
  let m1 : gmap string JsValue := {["net" := JsObject []]} in
  let m2 : gmap string JsValue := <["fs" := JsNull]> {["http" := JsFunction "get"]} in
  truthy (prop m1 "fs") || truthy (prop m1 "q-fs") || truthy (prop m1 "q-io/fs")
  = false
  /\ truthy (prop m2 "fs") || truthy (prop m2 "q-fs") || truthy (prop m2 "q-io/fs")
     = false
  /\ (withMockedModules m1;; withMockedModules m2) sample_session
     = withMockedModules (merge (Some m1) (Some m2)) sample_session.
Proof.
  intros m1 m2.
  assert (H1 : truthy (prop m1 "fs") || truthy (prop m1 "q-fs")
               || truthy (prop m1 "q-io/fs") = false) by reflexivity.
  assert (H2 : truthy (prop m2 "fs") || truthy (prop m2 "q-fs")
               || truthy (prop m2 "q-io/fs") = false) by reflexivity.
  split; [exact H1|]. split; [exact H2|].
  exact (proj1 (withMockedModules_calls_accumulate m1 m2 sample_session H1 H2)).
Defined.

(** X3. [withMockedModulesResolves] never throws, and two calls are one
    call with the two tables merged: a module resolves to the path of the
    second table if that has it, else to that of the first, else to what
    was accumulated before. *)
Theorem withMockedModulesResolves_calls_accumulate
    (paths1 paths2 : gmap string string) (st : State) :
  (withMockedModulesResolves paths1;; withMockedModulesResolves paths2) st
  = withMockedModulesResolves (merge (Some paths1) (Some paths2)) st
  /\ exists st',
       (withMockedModulesResolves paths1;; withMockedModulesResolves paths2) st
       = Normal tt st'
       /\ world st' = world st
       /\ forall key,
            default ∅ (_mockedResolves (self st')) !! key
            = match paths2 !! key with
              | Some v => Some v
              | None => match paths1 !! key with
                        | Some v => Some v
                        | None => default ∅ (_mockedResolves (self st)) !! key
                        end
              end.
Proof.
  split.
  - unfold bind, withMockedModulesResolves, bind, this, assign.
    cbn [self world _mockedResolves set_mockedResolves].
    now rewrite merge_assoc.
  - eexists. split; [reflexivity|]. split; [reflexivity|].
    intros key. cbn [self _mockedResolves set_mockedResolves default].
    unfold id. rewrite lookup_merge. cbn [default]. unfold id.
    rewrite lookup_merge. cbn [default]. unfold id.
    repeat match goal with |- context [match ?x with _ => _ end] => destruct x end;
      reflexivity.
Qed.

(** ** What the load constructs and hands over *)

Lemma requirements_app (j1 j2 : list Event) :
  requirements (j1 ++ j2) = requirements j1 ++ requirements j2.
Proof. unfold requirements. apply omap_app. Qed.

Lemma requirements_constructed what l :
  requirements (map (Constructed what) l) = [].
Proof. induction l; cbn; auto. Qed.

Lemma stub_levels_roots (first : nat) (paths : list string)
    (techMap : gmap string string) :
  Forall (fun l => Level.projectRoot (StubLevel.base l) = "/")
    (stub_levels first paths techMap).
Proof.
  revert first. induction paths as [|p rest IH]; intros first; cbn;
    constructor; [reflexivity | apply IH].
Qed.

Lemma stub_levels_identities (first : nat) (paths : list string)
    (techMap : gmap string string) :
  map StubLevel.identity (stub_levels first paths techMap)
  = seq first (length paths).
Proof.
  revert first. induction paths as [|p rest IH]; intros first; cbn;
    [reflexivity | now rewrite IH].
Qed.

Lemma stub_levels_getTechs (first : nat) (paths : list string)
    (techMap : gmap string string) :
  map StubLevel.getTechs (stub_levels first paths techMap)
  = map (fun _ => techMap) paths.
Proof.
  revert first. induction paths as [|p rest IH]; intros first; cbn;
    [reflexivity | now rewrite IH].
Qed.

(** What the load leaves, as far as the levels go. *)
Lemma load_levels (st : State) :
  exists st1 first,
    _load st = Normal tt st1
    /\ _levels (self st1)
       = Some (stub_levels first (level_paths (self st)) (registry (self st)))
    /\ _techMap (self st1) = Some (registry (self st))
    /\ _levelPaths (self st1) = Some (level_paths (self st))
    /\ _tech (self st1) <> None.
Proof.
  destruct st as [t rt]. pose proof (_load_runs t rt) as Hload. cbv zeta in Hload.
  eexists _, _. split; [exact Hload|]. cbn. repeat split; discriminate.
Qed.

(** What the load leaves alone, and what it adds to the journal. *)
Lemma load_keeps_chain_and_technology (st : State) :
  exists st1 evs,
    _load st = Normal tt st1
    /\ _promise (self st1) = _promise (self st)
    /\ technology (world st1) = technology (world st)
    /\ clock (sandbox (world st1)) = clock (sandbox (world st))
    /\ _tech (self st1) <> None
    /\ journal (world st1) = journal (world st) ++ evs
    /\ forallb is_construction evs = true.
Proof.
  destruct st as [t rt]. pose proof (_load_runs t rt) as Hload. cbv zeta in Hload.
  eexists _, _. split; [exact Hload|]. cbn.
  split; [reflexivity|]. split; [reflexivity|].
  split; [now destruct (_fs t)|]. split; [discriminate|]. split; [reflexivity|].
  destruct (_fs t); cbn; rewrite forallb_app, forallb_constructed; reflexivity.
Qed.

(** The fields [_enqueue] leaves alone, whether it returns or throws. *)
Lemma enqueue_keeps_configuration op st :
  let st' := outcome (_enqueue op st) in
  _levels (self st') = _levels (self st)
  /\ _techMap (self st') = _techMap (self st)
  /\ _levelPaths (self st') = _levelPaths (self st)
  /\ _context (self st') = _context (self st)
  /\ _tech (self st') = _tech (self st)
  /\ _fs (self st') = _fs (self st)
  /\ _buildDecl (self st') = _buildDecl (self st)
  /\ _lastFileName (self st') = _lastFileName (self st).
Proof.
  pose proof (enqueue_frame op st) as Hframe. cbv zeta in Hframe.
  destruct Hframe as (_ & _ & start & promise & Hself).
  cbv zeta. rewrite Hself. repeat split.
Qed.

(** What [_enqueue] adds to the journal, whether it returns or throws. *)
Lemma enqueue_journal op st :
  journal (world (outcome (_enqueue op st)))
  = journal (world st)
    ++ match _promise (self st) with None => [Started op] | Some _ => [] end.
Proof.
  unfold _enqueue, bind, this. cbn [self].
  destruct (_promise (self st)) as [p|] eqn:Hp.
  - cbn. now rewrite app_nil_r.
  - pose proof (invoke_frame op st) as Hinv. cbv zeta in Hinv.
    destruct (invoke op st) as [work st1 | e st1]; cbn in Hinv |- *;
      now destruct Hinv as (-> & _).
Qed.

(** On a started chain [_enqueue] appends and does nothing else. *)
Lemma enqueue_appends op st p :
  _promise (self st) = Some p ->
  _enqueue op st
  = Normal tt {| self := set_promise (Some (Then p op)) (self st);
                 world := world st |}.
Proof. intros Hp. unfold _enqueue, bind, this. cbn [self]. now rewrite Hp. Qed.

(** [create] and [build] are the load followed by one [_enqueue]. *)
Lemma create_unfolds (elem : JsValue) (st : State) :
  exists st1 lvls,
    _load st = Normal tt st1
    /\ _levels (self st1) = Some lvls
    /\ create elem st = _enqueue (Create elem (head lvls)) st1.
Proof.
  destruct (load_levels st) as (st1 & first & Hload & Hl & _).
  exists st1, (stub_levels first (level_paths (self st)) (registry (self st))).
  split; [exact Hload|]. split; [exact Hl|].
  unfold create. unfold bind at 1. rewrite Hload.
  unfold bind, this, member. cbn [self]. rewrite Hl. reflexivity.
Qed.

Lemma build_unfolds (output : string) (decl : JsValue) (st : State) :
  exists st1,
    _load {| self := set_buildDecl (Some decl) (self st); world := world st |}
    = Normal tt st1
    /\ build output decl st = _enqueue (Build output decl) st1.
Proof.
  destruct (load_levels {| self := set_buildDecl (Some decl) (self st);
                           world := world st |}) as (st1 & first & Hload & _).
  exists st1. split; [exact Hload|].
  unfold build. unfold bind at 1. unfold assign at 1. unfold bind at 1.
  now rewrite Hload.
Qed.

(** The levels an action call leaves in the session. *)
Lemma action_levels (c : Call) (st : State) :
  acts c = true ->
  exists first,
    _levels (self (outcome (call c st)))
    = Some (stub_levels first (level_paths (self st)) (registry (self st))).
Proof.
  intros Hact. destruct c; try discriminate; cbn [call].
  - destruct (load_levels st) as (st1 & first & Hload & Hl & _).
    destruct (create_unfolds elem st) as (st1' & lvls & Hload' & _ & ->).
    rewrite Hload in Hload'. injection Hload' as <-.
    pose proof (enqueue_keeps_configuration (Create elem (head lvls)) st1) as Hk.
    cbv zeta in Hk. destruct Hk as (-> & _). now exists first.
  - destruct (build_unfolds output decl st) as (st1 & Hload & ->).
    destruct (load_levels {| self := set_buildDecl (Some decl) (self st);
                             world := world st |}) as (st1' & first & Hload' & Hl & _).
    rewrite Hload in Hload'. injection Hload' as <-.
    pose proof (enqueue_keeps_configuration (Build output decl) st1) as Hk.
    cbv zeta in Hk. destruct Hk as (-> & _). now exists first.
Qed.

(** X4. Every load hands the module of the stub levels and bem the same
    substitutes: the session's own filesystem under ["q-io/fs"] and
    ["q-fs"], a synchronous filesystem constructed for this load over that
    same filesystem under ["fs"], whatever the author's table binds these
    three names to, and the author's substitute under every other name;
    with them go the accumulated resolve table and the five modules that
    are never mocked. *)
Theorem load_hands_over_the_session_filesystem (st : State) :
  exists st' fs ctx opts sync,
    _load st = Normal tt st'
    /\ _fs (self st') = Some fs
    /\ _context (self st') = Some ctx
    /\ loadedWith ctx = opts
    /\ requirements (journal (world st'))
       = requirements (journal (world st)) ++ [("./stub-level", opts); ("bem", opts)]
    /\ mocks opts !! "q-io/fs" = Some (QfsMock (Some fs))
    /\ mocks opts !! "q-fs" = Some (QfsMock (Some fs))
    /\ mocks opts !! "fs" = Some (SyncFsMock sync (Some fs))
    /\ constructions RFSMock (journal (world st'))
       = S (constructions RFSMock (journal (world st)))
    /\ (forall key, key ∉ reserved ->
          mocks opts !! key
          = AuthorMock <$> (default ∅ (_mockedModules (self st)) !! key))
    /\ resolves opts = _mockedResolves (self st)
    /\ ignoreMocks opts = ["winston"; "mime"; "node.extend"; "uglify-js"; "insight"].
Proof.
  destruct st as [t rt]. pose proof (_load_runs t rt) as Hload. cbv zeta in Hload.
  eexists _, _, _, _, _. split; [exact Hload|].
  cbn [self world journal _fs _context set_tech set_context set_levels
       set_techMap set_levelPaths set_fs loadedWith mocks resolves ignoreMocks].
  split; [reflexivity|]. split; [reflexivity|]. split; [reflexivity|].
  cbn [loadedWith mocks resolves ignoreMocks].
  split.
  { rewrite !requirements_app, requirements_constructed.
    destruct (_fs t); cbn; rewrite ?app_nil_r; reflexivity. }
  split; [rewrite lookup_merge; reflexivity|].
  split; [rewrite lookup_merge; reflexivity|].
  split; [rewrite lookup_merge; reflexivity|].
  split.
  { rewrite !constructions_app, constructions_run.
    destruct (_fs t); cbn; repeat case_decide; try congruence; lia. }
  split; [|split; reflexivity].
  intros key Hkey. rewrite lookup_merge. cbn [default].
  assert (Hne : key <> "fs" /\ key <> "q-fs" /\ key <> "q-io/fs").
  { unfold reserved in Hkey. rewrite !not_elem_of_cons in Hkey. tauto. }
  destruct Hne as (H1 & H2 & H3). unfold id.
  rewrite !lookup_insert_ne, lookup_empty by congruence.
  destruct (_mockedModules t) as [m|]; cbn.
  - now rewrite lookup_fmap.
  - now rewrite lookup_empty.
Qed.

(** X5. The load constructs one stub level per level path, in the order
    of the paths and each with its path, all of them rooted at ["/"], all
    of them objects that did not exist before and no two of them the same;
    and [create] hands its chain item the first of them. *)
Theorem levels_follow_level_paths (st : State) :
  exists st1 lvls,
    _load st = Normal tt st1
    /\ _levels (self st1) = Some lvls
    /\ map (fun l => Level.dir (StubLevel.base l)) lvls
       = default ["/"] (_levelPaths (self st))
    /\ Forall (fun l => Level.projectRoot (StubLevel.base l) = "/") lvls
    /\ NoDup (map StubLevel.identity lvls)
    /\ (forall l, l ∈ lvls ->
          nextId (world st) <= StubLevel.identity l < nextId (world st1))
    /\ (forall elem, create elem st = _enqueue (Create elem (head lvls)) st1).
Proof.
  destruct st as [t rt]. pose proof (_load_runs t rt) as Hload. cbv zeta in Hload.
  eexists _, _. split; [exact Hload|].
  cbn [self world _levels set_tech set_context set_levels nextId].
  split; [reflexivity|]. split; [apply stub_levels_paths|].
  split; [apply stub_levels_roots|].
  split; [rewrite stub_levels_identities; apply NoDup_seq|].
  split.
  - intros l Hl.
    assert (Hid : StubLevel.identity l
                  ∈ map StubLevel.identity
                      (stub_levels
                         (S match _fs t with
                            | Some _ => nextId rt
                            | None => S (nextId rt)
                            end)
                         (level_paths t) (registry t))).
    { apply list_elem_of_fmap. now exists l. }
    rewrite stub_levels_identities in Hid. apply elem_of_seq in Hid.
    destruct (_fs t); lia.
  - intros elem. unfold create. unfold bind at 1. rewrite Hload.
    unfold bind, this, member. reflexivity.
Qed.

(** X6. An empty list of levels is not replaced by the default: after
    [withLevels([])] the load constructs no stub level, the context is
    constructed over an undefined level, and [create] hands its chain item
    an undefined level. *)
Theorem empty_level_list_is_not_defaulted (st : State) (elem : JsValue) :
  exists st1 ctx,
    _load (outcome (withLevels [] st)) = Normal tt st1
    /\ _levelPaths (self st1) = Some []
    /\ _levels (self st1) = Some []
    /\ _context (self st1) = Some ctx
    /\ primary ctx = None
    /\ constructions RStubLevel (journal (world st1))
       = constructions RStubLevel (journal (world st))
    /\ (withLevels [];; create elem) st = _enqueue (Create elem None) st1.
Proof.
  destruct st as [t rt].
  pose proof (_load_runs (set_levelPaths (Some []) t) rt) as Hload. cbv zeta in Hload.
  eexists _, _. split; [exact Hload|].
  cbn [self world _levels _levelPaths _context set_tech set_context set_levels
       set_techMap set_levelPaths journal primary].
  split; [reflexivity|]. split; [reflexivity|]. split; [reflexivity|].
  split; [reflexivity|]. split.
  - rewrite !constructions_app. cbn. destruct (_fs t); cbn;
      repeat case_decide; try congruence; lia.
  - unfold bind at 1. unfold withLevels at 1, assign at 1. cbn [self world].
    unfold create. unfold bind at 1. cbn [outcome withLevels assign self world] in Hload.
    rewrite Hload. reflexivity.
Qed.

(** X7. [withLevel], [withLevels] and [withTechMap] replace what an
    earlier call set: after two [withLevel] calls the action builds one
    level, at the second path; after two [withLevels] calls it builds the
    levels of the second list; after two [withTechMap] calls the registry
    is the second map with the technology under test written into it. *)
Theorem later_setup_call_replaces_earlier (st : State) :
  (forall a b elem,
     exists lvl,
       _levels (self (outcome ((withLevel a;; withLevel b;; create elem) st)))
       = Some [lvl]
       /\ Level.dir (StubLevel.base lvl) = b)
  /\ (forall paths1 paths2 elem,
        (fun lvls => map (fun l => Level.dir (StubLevel.base l)) lvls)
          <$> _levels (self (outcome ((withLevels paths1;; withLevels paths2;;
                                        create elem) st)))
        = Some paths2)
  /\ (forall map1 map2 elem,
        _techMap (self (outcome ((withTechMap map1;; withTechMap map2;;
                                  create elem) st)))
        = Some (<[_techName (self st) := _modulePath (self st)]> map2)).
Proof.
  assert (Hcreate : forall st0 elem,
            exists first,
              _levels (self (outcome (create elem st0)))
              = Some (stub_levels first (level_paths (self st0)) (registry (self st0)))
              /\ _techMap (self (outcome (create elem st0)))
                 = Some (registry (self st0))).
  { intros st0 elem.
    destruct (action_levels (CallCreate elem) st0 eq_refl) as [first Hl].
    exists first. split; [exact Hl|].
    pose proof (action_effect (CallCreate elem) st0 eq_refl) as Heffect.
    cbv zeta in Heffect. cbn [call] in Heffect. tauto. }
  split; [|split].
  - intros a b elem.
    destruct (Hcreate {| self := set_levelPaths (Some [b]) (self st);
                         world := world st |} elem) as (first & Hl & _).
    eexists. split; [exact Hl | reflexivity].
  - intros paths1 paths2 elem.
    destruct (Hcreate {| self := set_levelPaths (Some paths2) (self st);
                         world := world st |} elem) as (first & Hl & _).
    change ((withLevels paths1;; withLevels paths2;; create elem) st)
      with (create elem {| self := set_levelPaths (Some paths2) (self st);
                           world := world st |}).
    rewrite Hl. cbn. now rewrite stub_levels_paths.
  - intros map1 map2 elem.
    destruct (Hcreate {| self := set_techMap (Some map2) (self st);
                         world := world st |} elem) as (first & _ & Hm).
    exact Hm.
Qed.

(** X8. The context of a [build] is constructed with the declaration of
    that build; the context of a [create] is constructed with the
    declaration the session holds, which is [undefined] before any build
    and the declaration of the last build after one; [create] itself never
    changes it. *)
Theorem context_declaration_follows_build (st : State) :
  (forall output decl,
     let st' := outcome (build output decl st) in
     _buildDecl (self st') = Some decl
     /\ (fun ctx => declaration (options ctx)) <$> _context (self st')
        = Some (Some decl))
  /\ (forall elem,
        let st' := outcome (create elem st) in
        _buildDecl (self st') = _buildDecl (self st)
        /\ (fun ctx => declaration (options ctx)) <$> _context (self st')
           = Some (Some (default JsUndefined (_buildDecl (self st)))))
  /\ (forall output decl elem,
        (fun ctx => declaration (options ctx))
          <$> _context (self (outcome (create elem (outcome (build output decl st)))))
        = Some (Some decl)).
Proof.
  assert (Hbuild : forall output decl,
     let st' := outcome (build output decl st) in
     _buildDecl (self st') = Some decl
     /\ (fun ctx => declaration (options ctx)) <$> _context (self st')
        = Some (Some decl)).
  { intros output decl st'. subst st'.
    destruct (build_unfolds output decl st) as (st1 & Hload & ->).
    pose proof (enqueue_keeps_configuration (Build output decl) st1) as Hk.
    cbv zeta in Hk. destruct Hk as (_ & _ & _ & -> & _ & _ & -> & _).
    destruct st as [t rt]. cbn [self world] in Hload.
    pose proof (_load_runs (set_buildDecl (Some decl) t) rt) as Hruns.
    cbv zeta in Hruns. rewrite Hruns in Hload. injection Hload as <-.
    split; reflexivity. }
  assert (Hcreate : forall st0 elem,
        let st' := outcome (create elem st0) in
        _buildDecl (self st') = _buildDecl (self st0)
        /\ (fun ctx => declaration (options ctx)) <$> _context (self st')
           = Some (Some (default JsUndefined (_buildDecl (self st0))))).
  { intros st0 elem st'. subst st'.
    destruct (create_unfolds elem st0) as (st1 & lvls & Hload & _ & ->).
    pose proof (enqueue_keeps_configuration (Create elem (head lvls)) st1) as Hk.
    cbv zeta in Hk. destruct Hk as (_ & _ & _ & -> & _ & _ & -> & _).
    destruct st0 as [t rt].
    pose proof (_load_runs t rt) as Hruns.
    cbv zeta in Hruns. rewrite Hruns in Hload. injection Hload as <-.
    split; reflexivity. }
  split; [exact Hbuild|]. split; [apply Hcreate|].
  intros output decl elem.
  destruct (Hcreate (outcome (build output decl st)) elem) as [_ ->].
  now destruct (Hbuild output decl) as [-> _].
Qed.

(** X9. The technology list the context is constructed with holds the
    module paths of the registry and nothing else, one entry per name of
    the registry; a path on it other than the module under test is bound
    in the author's tech map under a name other than that of the
    technology under test. *)
Theorem context_tech_list_is_the_registry (st : State) :
  exists st' reg ctx,
    _load st = Normal tt st'
    /\ _techMap (self st') = Some reg
    /\ _context (self st') = Some ctx
    /\ (forall path, path ∈ tech (options ctx)
                     <-> exists name, reg !! name = Some path)
    /\ length (tech (options ctx)) = size reg
    /\ (forall path, path <> _modulePath (self st) ->
          path ∈ tech (options ctx) ->
          exists name, name <> _techName (self st)
                       /\ default ∅ (_techMap (self st)) !! name = Some path).
Proof.
  destruct st as [t rt]. pose proof (_load_runs t rt) as Hload. cbv zeta in Hload.
  eexists _, (registry t), _. split; [exact Hload|]. cbn.
  split; [reflexivity|]. split; [reflexivity|]. cbn [tech options].
  assert (Hiff : forall path, path ∈ paths_of (registry t)
                              <-> exists name, registry t !! name = Some path).
  { intros path. unfold paths_of. rewrite list_elem_of_fmap. split.
    - intros [[name path'] [-> Hin]]. exists name. now apply elem_of_map_to_list.
    - intros [name Hname]. exists (name, path). split; [reflexivity|].
      now apply elem_of_map_to_list. }
  split; [exact Hiff|]. split.
  - unfold paths_of. now rewrite length_fmap, length_map_to_list.
  - intros path Hne Hin. apply Hiff in Hin as [name Hname].
    exists name. unfold registry in Hname.
    destruct (decide (name = _techName t)) as [-> | Hother].
    + rewrite lookup_insert_eq in Hname. congruence.
    + rewrite lookup_insert_ne in Hname by congruence. auto.
Qed.

(** ** Actions, repeated and reconfigured *)

(** X10. The source tree is read by the first action only: on a session
    that has no filesystem yet the action constructs it from the tree of
    the last [withSourceFiles]; on a session that has one, a tree given
    since is ignored, and the filesystem stays the object it was, with the
    content it had. *)
Theorem sources_are_read_by_the_first_action_only
    (st : State) (sources : list (string * FsTree)) (c : Call) :
  acts c = true ->
  let st' := outcome ((withSourceFiles sources;; call c) st) in
  match _fs (self st) with
  | Some fs =>
      _fs (self st') = Some fs
      /\ sandbox (world st') = sandbox (world st)
      /\ constructions RQFSMock (journal (world st'))
         = constructions RQFSMock (journal (world st))
  | None =>
      _fs (self st') = Some (nextId (world st))
      /\ sandbox (world st')
         = put_vfs (nextId (world st))
             (QFSMock.create (clock (sandbox (world st))) sources)
             (sandbox (world st))
      /\ constructions RQFSMock (journal (world st'))
         = S (constructions RQFSMock (journal (world st)))
  end.
Proof.
  intros Hact st'.
  pose proof (action_effect c {| self := set_sources (Some sources) (self st);
                                 world := world st |} Hact) as Heffect.
  cbv zeta in Heffect. cbn [self world _fs set_sources _sources default] in Heffect.
  change (outcome (call c {| self := set_sources (Some sources) (self st);
                             world := world st |})) with st' in Heffect.
  destruct Heffect as (H1 & H2 & H3 & _). specialize (H3 RQFSMock).
  destruct (_fs (self st)) as [fs|]; cbn in H1, H2, H3.
  - repeat split; [exact H1 | exact H2 | lia].
  - repeat split; [exact H1 | exact H2 | lia].
Qed.

Lemma sources_are_read_by_the_first_action_only_witness :
  let late := [("late.css", FsFile ".late {}")] in
  let st' := outcome ((withSourceFiles late;; call (CallCreate sample_elem))
                        sample_called) in
  acts (CallCreate sample_elem) = true
  /\ _fs (self st') = Some 0
  /\ sandbox (world st') = sandbox (world sample_called)
  /\ constructions RQFSMock (journal (world st'))
     = constructions RQFSMock (journal (world sample_called)).
Proof.
  intros late st'. split; [reflexivity|].
  exact (sources_are_read_by_the_first_action_only sample_called late
           (CallCreate sample_elem) eq_refl).
Defined.

(** X11. A second action rebuilds over the configuration the first one
    left: the level paths and the registry stay what they were, and the new
    levels have the paths and the registry of the old ones. *)
Theorem repeated_action_keeps_the_configuration (st : State) (c1 c2 : Call) :
  acts c1 = true -> acts c2 = true ->
  let st1 := outcome (call c1 st) in
  let st2 := outcome (call c2 st1) in
  _levelPaths (self st2) = _levelPaths (self st1)
  /\ _techMap (self st2) = _techMap (self st1)
  /\ exists lvls1 lvls2,
       _levels (self st1) = Some lvls1 /\ _levels (self st2) = Some lvls2
       /\ map (fun l => Level.dir (StubLevel.base l)) lvls2
          = map (fun l => Level.dir (StubLevel.base l)) lvls1
       /\ map StubLevel.getTechs lvls2 = map StubLevel.getTechs lvls1.
Proof.
  intros Hact1 Hact2 st1 st2.
  pose proof (action_effect c1 st Hact1) as H1. cbv zeta in H1. fold st1 in H1.
  destruct H1 as (_ & _ & _ & Hmap1 & Hpaths1).
  pose proof (action_effect c2 st1 Hact2) as H2. cbv zeta in H2. fold st2 in H2.
  destruct H2 as (_ & _ & _ & Hmap2 & Hpaths2).
  destruct (serves_call c1 st) as [[Hname Hpath] _]. fold st1 in Hname, Hpath.
  assert (Hsame_paths : level_paths (self st1) = level_paths (self st))
    by (unfold level_paths at 1; now rewrite Hpaths1).
  assert (Hsame_reg : registry (self st1) = registry (self st)).
  { unfold registry at 1. rewrite Hmap1, Hname, Hpath. cbn [default].
    unfold registry. apply insert_insert_eq. }
  rewrite Hsame_paths in Hpaths2. rewrite Hsame_reg in Hmap2.
  split; [congruence|]. split; [congruence|].
  destruct (action_levels c1 st Hact1) as [first1 Hl1]. fold st1 in Hl1.
  destruct (action_levels c2 st1 Hact2) as [first2 Hl2]. fold st2 in Hl2.
  rewrite Hsame_paths, Hsame_reg in Hl2.
  eexists _, _. split; [exact Hl1|]. split; [exact Hl2|].
  now rewrite !stub_levels_paths, !stub_levels_getTechs.
Qed.

Lemma repeated_action_keeps_the_configuration_witness :
  let st1 := outcome (call (CallCreate sample_elem) sample_session) in
  let st2 := outcome (call (CallBuild "/out" JsNull) st1) in
  acts (CallCreate sample_elem) = true
  /\ acts (CallBuild "/out" JsNull) = true
  /\ _levelPaths (self st2) = _levelPaths (self st1)
  /\ _techMap (self st2) = _techMap (self st1).
Proof.
  intros st1 st2. split; [reflexivity|]. split; [reflexivity|].
  destruct (repeated_action_keeps_the_configuration sample_session
              (CallCreate sample_elem) (CallBuild "/out" JsNull) eq_refl eq_refl)
    as (H1 & H2 & _).
  split; [exact H1 | exact H2].
Defined.

(** X12. Level paths and a tech map set after the first action: in the
    current revision the next [create] builds its levels over them; in the
    earlier revision the next [create] records them in the session and
    builds nothing, so that levels, context and technology instance stay
    those of the first load. *)
Theorem reconfiguration_after_an_action
    (st : State) (loaded : TechInstance) (paths : list string)
    (techMap : gmap string string) (elem : JsValue) :
  _tech (self st) = Some loaded ->
  (let st' := outcome ((withLevels paths;; withTechMap techMap;; create elem) st) in
   exists lvls,
     _levels (self st') = Some lvls
     /\ map (fun l => Level.dir (StubLevel.base l)) lvls = paths
     /\ Forall (fun l => StubLevel.getTechs l
                         = <[_techName (self st) := _modulePath (self st)]> techMap)
          lvls)
  /\ (let st' := outcome ((withLevels paths;; withTechMap techMap;;
                           Legacy.create elem) st) in
      _levelPaths (self st') = Some paths
      /\ _techMap (self st') = Some techMap
      /\ _levels (self st') = _levels (self st)
      /\ _context (self st') = _context (self st)
      /\ _tech (self st') = Some loaded).
Proof.
  intros Hloaded.
  set (st0 := {| self := set_techMap (Some techMap)
                           (set_levelPaths (Some paths) (self st));
                 world := world st |}).
  split.
  - change (outcome ((withLevels paths;; withTechMap techMap;; create elem) st))
      with (outcome (call (CallCreate elem) st0)).
    cbv zeta. destruct (action_levels (CallCreate elem) st0 eq_refl) as [first ->].
    eexists. split; [reflexivity|]. split; [apply stub_levels_paths|].
    apply stub_levels_techs.
  - change (outcome ((withLevels paths;; withTechMap techMap;; Legacy.create elem) st))
      with (outcome (Legacy.create elem st0)).
    cbv zeta.
    assert (Hguard : Legacy._load st0 = Normal tt st0).
    { destruct st as [t rt]. apply (legacy_load_guard _ rt loaded). exact Hloaded. }
    destruct (_levels (self st0)) as [lvls|] eqn:Hl.
    + assert (Hrun : Legacy.create elem st0
                     = _enqueue (LegacyCreate elem (head lvls)) st0).
      { unfold Legacy.create. unfold bind at 1. rewrite Hguard.
        unfold bind, this, member. cbn [self]. now rewrite Hl. }
      rewrite Hrun.
      pose proof (enqueue_keeps_configuration (LegacyCreate elem (head lvls)) st0) as Hk.
      cbv zeta in Hk. destruct Hk as (-> & -> & -> & -> & -> & _).
      repeat split; exact Hloaded.
    + assert (Hrun : Legacy.create elem st0
                     = Throw (TypeError "Cannot read property '0' of undefined") st0).
      { unfold Legacy.create. unfold bind at 1. rewrite Hguard.
        unfold bind, this, member. cbn [self]. now rewrite Hl. }
      rewrite Hrun. cbn [outcome]. repeat split; exact Hloaded.
Qed.

Lemma reconfiguration_after_an_action_witness :
  exists loaded,
    _tech (self sample_called) = Some loaded
    /\ (let st' := outcome ((withLevels ["/blocks"];; withTechMap ∅;;
                             Legacy.create sample_elem) sample_called) in
        _levelPaths (self st') = Some ["/blocks"]
        /\ _levels (self st') = _levels (self sample_called)).
Proof.
  destruct (_tech (self sample_called)) as [loaded|] eqn:Hloaded;
    [|discriminate Hloaded].
  exists loaded. split; [reflexivity|].
  destruct (reconfiguration_after_an_action sample_called loaded ["/blocks"] ∅
              sample_elem Hloaded) as [_ (H1 & _ & H3 & _)].
  split; [exact H1 | exact H3].
Defined.



(** ** Before the first action *)

(** What a call outside the action group leaves alone, whether it
    returns or throws. *)
Lemma idle_call (c : Call) (st : State) :
  acts c = false ->
  let st' := outcome (call c st) in
  _fs (self st') = _fs (self st)
  /\ _levels (self st') = _levels (self st)
  /\ _context (self st') = _context (self st)
  /\ _tech (self st') = _tech (self st)
  /\ sandbox (world st') = sandbox (world st)
  /\ nextId (world st') = nextId (world st)
  /\ (forall what, constructions what (journal (world st'))
                   = constructions what (journal (world st)))
  /\ requirements (journal (world st')) = requirements (journal (world st)).
Proof.
  intros Hact.
  assert (Henq : forall op st1,
            _fs (self st1) = _fs (self st) -> _levels (self st1) = _levels (self st) ->
            _context (self st1) = _context (self st) -> _tech (self st1) = _tech (self st) ->
            world st1 = world st ->
            let st' := outcome (_enqueue op st1) in
            _fs (self st') = _fs (self st)
            /\ _levels (self st') = _levels (self st)
            /\ _context (self st') = _context (self st)
            /\ _tech (self st') = _tech (self st)
            /\ sandbox (world st') = sandbox (world st)
            /\ nextId (world st') = nextId (world st)
            /\ (forall what, constructions what (journal (world st'))
                             = constructions what (journal (world st)))
            /\ requirements (journal (world st')) = requirements (journal (world st))).
  { intros op st1 H1 H2 H3 H4 Hw st'. subst st'.
    pose proof (enqueue_keeps_configuration op st1) as Hk. cbv zeta in Hk.
    destruct Hk as (-> & _ & _ & -> & -> & -> & _).
    pose proof (enqueue_frame op st1) as Hf. cbv zeta in Hf.
    destruct Hf as (-> & Hcount & _).
    rewrite <- Hw. split; [exact H1|]. split; [exact H2|].
    split; [exact H3|]. split; [exact H4|]. split; [reflexivity|].
    split; [|split; [exact Hcount|]].
    - unfold _enqueue, bind, this. cbn [self].
      destruct (_promise (self st1)); [reflexivity|].
      pose proof (invoke_frame op st1) as Hinv. cbv zeta in Hinv.
      destruct (invoke op st1); cbn in *; tauto.
    - rewrite enqueue_journal, requirements_app.
      destruct (_promise (self st1)); cbn; now rewrite app_nil_r. }
  destruct c; try discriminate; cbn [call].
  - cbn. repeat split.
  - unfold withMockedModules. destruct (_ || _); cbn; repeat split.
  - cbn. repeat split.
  - cbn. repeat split.
  - cbn. repeat split.
  - cbn. repeat split.
  - now apply Henq.
  - unfold producesFile, bind, assign. now apply Henq.
  - unfold withContent, bind, this. now apply Henq.
  - now apply Henq.
  - now apply Henq.
  - unfold notify, bind, this, member. cbn.
    destruct (_promise (self st)); cbn; repeat split.
  - now apply Henq.
Qed.

(** Settlements are neither constructions nor module loads. *)
Lemma quiet_settled (entry : Settled -> Event) (r : option Settled) :
  (forall s, is_construction (entry s) = false) ->
  (forall what, constructions what (settled entry r) = 0)
  /\ requirements (settled entry r) = [].
Proof.
  intros Hentry. destruct r as [s|]; cbn; [|auto].
  specialize (Hentry s). destruct (entry s); try discriminate; auto.
Qed.

Lemma perform_constructs_nothing (op : ChainOp) (st : State) :
  (forall what, constructions what (journal (world (fst (perform op st))))
                = constructions what (journal (world st)))
  /\ requirements (journal (world (fst (perform op st))))
     = requirements (journal (world st)).
Proof.
  rewrite perform_journal.
  destruct (quiet_settled (Finished op) (snd (perform op st))) as [Hc Hr];
    [reflexivity|].
  split.
  - intros what. rewrite constructions_app. cbn. rewrite Hc. lia.
  - rewrite requirements_app. unfold requirements in Hr |- *. cbn.
    rewrite Hr. now rewrite app_nil_r.
Qed.

(** The event loop constructs nothing and loads nothing. *)
Lemma settle_constructs_nothing (p : Promise) : forall st,
  (forall what, constructions what (journal (world (fst (settle p st))))
                = constructions what (journal (world st)))
  /\ requirements (journal (world (fst (settle p st))))
     = requirements (journal (world st)).
Proof.
  induction p as [op work | q IH op | q IH done]; intros st; cbn [settle].
  - destruct (finish_frame op work st) as (-> & _).
    destruct (quiet_settled (Finished op) (snd (finish op work st))) as [Hc Hr];
      [reflexivity|].
    split.
    + intros what. rewrite constructions_app, Hc. lia.
    + rewrite requirements_app, Hr. now rewrite app_nil_r.
  - specialize (IH st). destruct (settle q st) as [st1 r]. cbn [fst] in IH.
    destruct IH as [Hc Hr]. destruct r as [[v | e]|]; cbn [fst]; [|auto..].
    destruct (perform_constructs_nothing op st1) as [Hc' Hr'].
    split; [intros what; now rewrite Hc' | congruence].
  - specialize (IH st). destruct (settle q st) as [st1 r]. cbn [fst] in IH.
    destruct IH as [Hc Hr]. cbn [fst world journal records].
    destruct (quiet_settled (Called done) r) as [Hc' Hr']; [reflexivity|].
    split.
    + intros what. rewrite constructions_app, Hc', Hc. lia.
    + rewrite requirements_app, Hr', Hr. now rewrite app_nil_r.
Qed.

(** X14. Nothing is materialized before the first action: whatever a
    test body calls, as long as it is neither [create] nor [build], and
    whether or not the body runs to its end, the session has no filesystem,
    levels, context or technology instance afterwards, no object was
    constructed and no module loaded; and the event loop, running what the
    body enqueued, does not change that. *)
Theorem nothing_is_materialized_before_the_first_action
    (technology : TechModule) (startedAt : Z) (techName modulePath : string)
    (calls : list Call) :
  Forall (fun c => acts c = false) calls ->
  let st := outcome (body calls
                       (boot technology startedAt (__constructor techName modulePath))) in
  (_fs (self st) = None /\ _levels (self st) = None
   /\ _context (self st) = None /\ _tech (self st) = None
   /\ store (sandbox (world st)) = ∅
   /\ nextId (world st) = 0
   /\ (forall what, constructions what (journal (world st)) = 0)
   /\ requirements (journal (world st)) = [])
  /\ (_fs (self (drain st)) = None /\ _levels (self (drain st)) = None
      /\ _context (self (drain st)) = None /\ _tech (self (drain st)) = None
      /\ (forall what, constructions what (journal (world (drain st))) = 0)
      /\ requirements (journal (world (drain st))) = []).
Proof.
  intros Hidle.
  assert (Hbody : forall st0,
            let st := outcome (body calls st0) in
            _fs (self st) = _fs (self st0) /\ _levels (self st) = _levels (self st0)
            /\ _context (self st) = _context (self st0) /\ _tech (self st) = _tech (self st0)
            /\ sandbox (world st) = sandbox (world st0)
            /\ nextId (world st) = nextId (world st0)
            /\ (forall what, constructions what (journal (world st))
                             = constructions what (journal (world st0)))
            /\ requirements (journal (world st)) = requirements (journal (world st0))).
  { induction Hidle as [|c calls Hc Hidle IH]; intros st0.
    - cbn. repeat split.
    - cbn [body]. unfold bind.
      pose proof (idle_call c st0 Hc) as Hcall. cbv zeta in Hcall.
      destruct (call c st0) as [[] st1 | e st1]; cbn [outcome] in Hcall |- *.
      + specialize (IH st1). cbv zeta in IH.
        destruct IH as (-> & -> & -> & -> & -> & -> & Hcount & ->).
        destruct Hcall as (-> & -> & -> & -> & -> & -> & Hcount' & ->).
        repeat split; auto. intros what. now rewrite Hcount.
      + exact Hcall. }
  intros st.
  specialize (Hbody (boot technology startedAt (__constructor techName modulePath))).
  cbv zeta in Hbody. fold st in Hbody.
  destruct Hbody as (H1 & H2 & H3 & H4 & H5 & H6 & Hcount & H8).
  cbn in H1, H2, H3, H4, H5, H6, Hcount, H8.
  split.
  { rewrite H1, H2, H3, H4, H5, H6, H8. repeat split. exact Hcount. }
  unfold drain. destruct (_promise (self st)) as [p|].
  - destruct (settle_self p st) as [start ->].
    destruct (settle_constructs_nothing p st) as [Hc ->].
    cbn. rewrite H1, H2, H3, H4, H8. repeat split.
    intros what. now rewrite Hc.
  - rewrite H1, H2, H3, H4, H8. repeat split. exact Hcount.
Qed.

Lemma nothing_is_materialized_before_the_first_action_witness :
  let calls := [CallWithSourceFiles [("menu.css", FsFile ".menu {}")];
                CallWithLevel "/blocks";
                CallAsserts ten_ms_pass;
                CallProducesFile "/menu.css";
                CallNotify "done"] in
  let st := outcome (body calls sample_session) in
  Forall (fun c => acts c = false) calls
  /\ _fs (self st) = None
  /\ (forall what, constructions what (journal (world st)) = 0)
  /\ _fs (self (drain st)) = None
  /\ (forall what, constructions what (journal (world (drain st))) = 0).
Proof.
  intros calls st.
  assert (Hidle : Forall (fun c => acts c = false) calls) by (repeat constructor).
  split; [exact Hidle|].
  destruct (nothing_is_materialized_before_the_first_action sample_tech 1000
              "css" "/techs/css.js" calls Hidle)
    as [(H1 & _ & _ & _ & _ & _ & H7 & _) (H1' & _ & _ & _ & H5' & _)].
  repeat split; assumption.
Defined.

(** X15. A chain method that goes through the filesystem, called on a
    session that has neither a filesystem nor a chain yet, throws a
    TypeError out of the method: its chain item is called at once and finds
    [_fs] undefined.  The chain stays empty, and the sandbox as it was.
    Run by the event loop on a session without a filesystem, the same item
    is rejected with that TypeError instead. *)
Theorem checks_before_the_first_action_throw (st : State) (c : Call) :
  _fs (self st) = None ->
  _promise (self st) = None ->
  uses_filesystem c = true ->
  exists message st' op,
    call c st = Throw (TypeError message) st'
    /\ _promise (self st') = None
    /\ _fs (self st') = None
    /\ sandbox (world st') = sandbox (world st)
    /\ appends c op
    /\ journal (world st') = journal (world st) ++ [Started op]
    /\ forall st0, _fs (self st0) = None ->
         snd (perform op st0) = Some (Rejected (TypeError message)).
Proof.
  intros Hfs Hp Huses. destruct st as [t rt]. cbn [self world] in *.
  destruct c; try discriminate; cbn [call];
    unfold touchFile, producesFile, withContent, writesToFile, notWritesToFile,
      _enqueue, bind, this, assign; cbn [self world set_lastFileName _promise _fs];
    rewrite Hp; unfold invoke, bind, log, effect, this, member, throw;
    cbn [self world set_lastFileName _promise _fs]; rewrite Hfs;
    eexists _, _, _; (split; [reflexivity|]); cbn;
    (split; [exact Hp|]); (split; [exact Hfs|]); (split; [reflexivity|]);
    refine (conj _ (conj eq_refl _));
    first [ reflexivity
          | intros [t0 rt0] Hfs0; cbn [self] in Hfs0;
            unfold perform, invoke, bind, log, effect, this, member, throw;
            cbn [self world]; rewrite Hfs0; reflexivity ].
Qed.

Lemma checks_before_the_first_action_throw_witness :
  _fs (self sample_session) = None
  /\ _promise (self sample_session) = None
  /\ uses_filesystem (CallProducesFile "/x.css") = true
  /\ exists message st' op,
       call (CallProducesFile "/x.css") sample_session
       = Throw (TypeError message) st'
       /\ _promise (self st') = None
       /\ _fs (self st') = None
       /\ sandbox (world st') = sandbox (world sample_session)
       /\ appends (CallProducesFile "/x.css") op
       /\ journal (world st') = journal (world sample_session) ++ [Started op]
       /\ forall st0, _fs (self st0) = None ->
            snd (perform op st0) = Some (Rejected (TypeError message)).
Proof.
  split; [reflexivity|]. split; [reflexivity|]. split; [reflexivity|].
  exact (checks_before_the_first_action_throw sample_session
           (CallProducesFile "/x.css") eq_refl eq_refl eq_refl).
Defined.

(** ** The objects of a session, wired to one another *)

Lemma wired_fields (st st' : State) :
  _fs (self st') = _fs (self st) ->
  _levels (self st') = _levels (self st) ->
  _context (self st') = _context (self st) ->
  _tech (self st') = _tech (self st) ->
  _techName (self st') = _techName (self st) ->
  wired st -> wired st'.
Proof. unfold wired. intros -> -> -> -> ->. auto. Qed.

Lemma wired_loaded (st : State) :
  exists st1, _load st = Normal tt st1 /\ wired st1.
Proof.
  destruct st as [t rt]. pose proof (_load_runs t rt) as Hload. cbv zeta in Hload.
  eexists. split; [exact Hload|]. unfold wired.
  cbn [self _fs _levels _context _tech _techName set_tech set_context set_levels
       set_techMap set_levelPaths set_fs context contextId techName primary
       options level loadedWith mocks].
  repeat split. now rewrite lookup_merge.
Qed.

Lemma wired_enqueue (op : ChainOp) (st : State) :
  wired st -> wired (outcome (_enqueue op st)).
Proof.
  pose proof (enqueue_frame op st) as Hframe. cbv zeta in Hframe.
  destruct Hframe as (_ & _ & start & promise & Hself).
  apply wired_fields; rewrite Hself; reflexivity.
Qed.

Lemma wired_call (c : Call) (st : State) :
  wired st -> wired (outcome (call c st)).
Proof.
  intros Hwired. destruct (acts c) eqn:Hact.
  - destruct c; try discriminate; cbn [call].
    + destruct (create_unfolds elem st) as (st1 & lvls & Hload & _ & ->).
      destruct (wired_loaded st) as (st1' & Hload' & Hw).
      rewrite Hload in Hload'. injection Hload' as <-. now apply wired_enqueue.
    + destruct (build_unfolds output decl st) as (st1 & Hload & ->).
      destruct (wired_loaded {| self := set_buildDecl (Some decl) (self st);
                                world := world st |}) as (st1' & Hload' & Hw).
      rewrite Hload in Hload'. injection Hload' as <-. now apply wired_enqueue.
  - pose proof (idle_call c st Hact) as Hidle. cbv zeta in Hidle.
    destruct Hidle as (H1 & H2 & H3 & H4 & _).
    destruct (serves_call c st) as [[Hname _] _].
    now apply (wired_fields st).
Qed.

(** X16. After a test body that ran to its end, whatever it called on a
    session made by the constructor, the session either has loaded nothing,
    or holds a filesystem, levels, a context and a technology instance that
    belong together: the instance came from that context and bears the name
    of the technology under test, the context was constructed over those
    levels, with the first of them as its own, and was loaded with that
    filesystem as ["q-io/fs"].  The event loop keeps it so.  (A body that
    throws is left out: a load that bem ends with an exception leaves the
    session with levels and no context.) *)
Theorem session_objects_stay_wired
    (technology : TechModule) (startedAt : Z) (techName modulePath : string)
    (calls : list Call) (st : State) :
  body calls (boot technology startedAt (__constructor techName modulePath))
  = Normal tt st ->
  wired st /\ wired (drain st).
Proof.
  intros Hran.
  assert (Hbody : forall cs st0, wired st0 -> wired (outcome (body cs st0))).
  { induction cs as [|c cs IH]; intros st0 Hw; [exact Hw|].
    cbn [body]. unfold bind. pose proof (wired_call c st0 Hw) as Hc.
    destruct (call c st0) as [[] st1 | e st1]; cbn [outcome] in *; auto. }
  assert (Hst : wired st).
  { specialize (Hbody calls
                  (boot technology startedAt (__constructor techName modulePath)) I).
    rewrite Hran in Hbody. exact Hbody. }
  split; [exact Hst|].
  unfold drain. destruct (_promise (self st)) as [p|]; [|exact Hst].
  destruct (settle_self p st) as [start Hself].
  apply (wired_fields st); try (rewrite Hself; reflexivity). exact Hst.
Qed.

Lemma session_objects_stay_wired_witness :
  let calls := [CallWithLevel "/blocks"; CallCreate sample_elem;
                CallProducesFile "/x.css"; CallBuild "/out" JsNull;
                CallNotify "done"] in
  body calls sample_session = Normal tt (outcome (body calls sample_session))
  /\ wired (outcome (body calls sample_session))
  /\ wired (drain (outcome (body calls sample_session))).
Proof.
  intros calls.
  assert (Hran : body calls sample_session
                 = Normal tt (outcome (body calls sample_session)))
    by (vm_compute; reflexivity).
  split; [exact Hran|].
  exact (session_objects_stay_wired sample_tech 1000 "css" "/techs/css.js"
           calls _ Hran).
Defined.

(** ** Chain methods on a started chain *)

(** X17. On a session whose chain has started, a chain method other
    than an action never throws, starts nothing and touches nothing but the
    session object: it appends its one item to the chain and returns.  An
    action loads first; when it returns, it has appended its one item as
    well, and nothing was started and no chain entry added to the
    journal. *)
Theorem started_chain_only_appends (st : State) (p : Promise) (c : Call) :
  _promise (self st) = Some p ->
  chained c = true ->
  (acts c = false ->
   exists op st',
     call c st = Normal tt st'
     /\ appends c op
     /\ _promise (self st') = Some (Then p op)
     /\ world st' = world st)
  /\ (forall st',
        call c st = Normal tt st' ->
        exists op,
          appends c op
          /\ _promise (self st') = Some (Then p op)
          /\ List.filter about_chain (journal (world st'))
             = List.filter about_chain (journal (world st))).
Proof.
  intros Hp Hchained.
  assert (Happend : forall op st1,
            _promise (self st1) = Some p -> world st1 = world st -> appends c op ->
            call c st = _enqueue op st1 ->
            (exists op st',
               call c st = Normal tt st'
               /\ appends c op
               /\ _promise (self st') = Some (Then p op)
               /\ world st' = world st)
            /\ (forall st',
                  call c st = Normal tt st' ->
                  exists op,
                    appends c op
                    /\ _promise (self st') = Some (Then p op)
                    /\ List.filter about_chain (journal (world st'))
                       = List.filter about_chain (journal (world st)))).
  { intros op st1 Hp1 Hw Happ Hrun.
    rewrite Hrun, (enqueue_appends op st1 p Hp1). split.
    - exists op. eexists. split; [reflexivity|]. cbn. auto.
    - intros st' [= <-]. exists op. cbn. rewrite Hw. auto. }
  assert (Haction : forall op st1 evs,
            _promise (self st1) = Some p ->
            journal (world st1) = journal (world st) ++ evs ->
            forallb is_construction evs = true ->
            appends c op ->
            call c st = _enqueue op st1 ->
            forall st',
              call c st = Normal tt st' ->
              exists op,
                appends c op
                /\ _promise (self st') = Some (Then p op)
                /\ List.filter about_chain (journal (world st'))
                   = List.filter about_chain (journal (world st))).
  { intros op st1 evs Hp1 Hj Hcons Happ Hrun st'.
    rewrite Hrun, (enqueue_appends op st1 p Hp1). intros [= <-].
    exists op. cbn. split; [exact Happ|]. split; [reflexivity|].
    rewrite Hj, List.filter_app.
    destruct (constructions_are_silent evs Hcons) as [-> _]. now rewrite app_nil_r. }
  destruct c; try discriminate; cbn [call acts].
  - destruct (Happend (TouchFile path) st) as [HA HB]; [auto; reflexivity..|].
    split; [intros _; exact HA | exact HB].
  - split; [discriminate|].
    destruct (create_unfolds elem st) as (st1 & lvls & Hload & _ & Hrun).
    destruct (load_keeps_chain_and_technology st)
      as (st1' & evs & Hload' & Hp1 & _ & _ & _ & Hj & Hcons).
    rewrite Hload in Hload'. injection Hload' as <-.
    apply (Haction (Create elem (head lvls)) st1 evs);
      [congruence | exact Hj | exact Hcons | reflexivity | exact Hrun].
  - split; [discriminate|].
    destruct (build_unfolds output decl st) as (st1 & Hload & Hrun).
    destruct (load_keeps_chain_and_technology
                {| self := set_buildDecl (Some decl) (self st); world := world st |})
      as (st1' & evs & Hload' & Hp1 & _ & _ & _ & Hj & Hcons).
    rewrite Hload in Hload'. injection Hload' as <-.
    cbn in Hp1, Hj.
    apply (Haction (Build output decl) st1 evs);
      [congruence | exact Hj | exact Hcons | now split | exact Hrun].
  - destruct (Happend (ProducesFile path)
                {| self := set_lastFileName (Some path) (self st);
                   world := world st |}) as [HA HB]; [auto; reflexivity..|].
    split; [intros _; exact HA | exact HB].
  - destruct (Happend (WithContent (_lastFileName (self st))
                         (if decide (1 < length arguments)
                          then Some (join LF arguments) else head arguments)) st)
      as [HA HB]; [auto; reflexivity..|].
    split; [intros _; exact HA | exact HB].
  - destruct (Happend (WritesToFile path) st) as [HA HB]; [auto; reflexivity..|].
    split; [intros _; exact HA | exact HB].
  - destruct (Happend (NotWritesToFile path) st) as [HA HB]; [auto; reflexivity..|].
    split; [intros _; exact HA | exact HB].
  - destruct (Happend (Asserts callback) st) as [HA HB]; [auto; reflexivity..|].
    split; [intros _; exact HA | exact HB].
Qed.

Lemma started_chain_only_appends_witness :
  exists p,
    _promise (self sample_called) = Some p
    /\ chained (CallWritesToFile "/x.css") = true
    /\ acts (CallWritesToFile "/x.css") = false
    /\ exists op st',
         call (CallWritesToFile "/x.css") sample_called = Normal tt st'
         /\ appends (CallWritesToFile "/x.css") op
         /\ _promise (self st') = Some (Then p op)
         /\ world st' = world sample_called.
Proof.
  destruct (_promise (self sample_called)) as [p|] eqn:Hp; [|discriminate Hp].
  exists p. split; [reflexivity|]. split; [reflexivity|]. split; [reflexivity|].
  exact (proj1 (started_chain_only_appends sample_called p
                  (CallWritesToFile "/x.css") Hp eq_refl) eq_refl).
Defined.

(** X18. [asserts] can be called at any point: it never throws and it
    does not run the callback, it leaves the sandbox as it was and adds the
    callback's item to the chain, starting the chain if there was none.  The
    callback is run when the item is, and what it does to the sandbox and
    what it settles to are the item's. *)
Theorem asserts_defers_its_callback (st : State) (callback : Work) :
  exists st',
    asserts callback st = Normal tt st'
    /\ sandbox (world st') = sandbox (world st)
    /\ pending st' = pending st ++ [Asserts callback]
    /\ forall st0,
         snd (perform (Asserts callback) st0) = snd (callback (sandbox (world st0)))
         /\ sandbox (world (fst (perform (Asserts callback) st0)))
            = fst (callback (sandbox (world st0))).
Proof.
  unfold asserts, _enqueue, bind, this, pending. cbn [self].
  destruct (_promise (self st)) as [p|].
  - eexists. split; [reflexivity|]. cbn. split; [reflexivity|]. split; [reflexivity|].
    intros st0. unfold perform, finish. cbn.
    destruct (callback (sandbox (world st0))); split; reflexivity.
  - eexists. split; [reflexivity|]. cbn. split; [reflexivity|]. split; [reflexivity|].
    intros st0. unfold perform, finish. cbn.
    destruct (callback (sandbox (world st0))); split; reflexivity.
Qed.

(** X19. A technology whose [createByDecl] throws: on a session without
    a chain the exception leaves [create], the chain stays empty, and the
    session is loaded and its start time stamped all the same; on a session
    whose chain has started [create] returns, and the exception is what its
    chain item is rejected with when it runs. *)
Theorem throwing_technology_takes_two_routes
    (st : State) (e : JsError) (elem : JsValue) :
  (forall instance elem level,
     createByDecl (technology (world st)) instance elem level = Throws e) ->
  match _promise (self st) with
  | None =>
      exists st',
        create elem st = Throw e st'
        /\ _promise (self st') = None
        /\ _tech (self st') <> None
        /\ _testStartTime (self st') = Some (clock (sandbox (world st)))
  | Some p =>
      exists st' level,
        create elem st = Normal tt st'
        /\ _promise (self st') = Some (Then p (Create elem level))
        /\ snd (perform (Create elem level) st') = Some (Rejected e)
  end.
Proof.
  intros Hthrows.
  destruct (create_unfolds elem st) as (st1 & lvls & Hload & Hl & Hrun).
  destruct (load_keeps_chain_and_technology st)
    as (st1' & evs & Hload' & Hp & Htech & Hclock & Hinst & _).
  rewrite Hload in Hload'. injection Hload' as <-.
  assert (Hinvoke : forall st2,
            technology (world st2) = technology (world st) ->
            _tech (self st2) <> None ->
            exists st3,
              invoke (Create elem (head lvls)) st2 = Throw e st3
              /\ self st3
                 = set_testStartTime (Some (clock (sandbox (world st2)))) (self st2)).
  { intros [t2 rt2] Ht2 Hi2. cbn [self world] in *.
    unfold invoke, bind, log, effect, now, runtime, assign, this, member, foreign, ret.
    cbn. destruct (_tech t2) as [instance|]; [|congruence].
    cbn. rewrite Ht2, Hthrows. unfold throw. eexists. split; reflexivity. }
  rewrite Hrun. destruct (_promise (self st)) as [p|] eqn:Hchain.
  - exists {| self := set_promise (Some (Then p (Create elem (head lvls)))) (self st1);
              world := world st1 |}, (head lvls).
    split; [now apply enqueue_appends|]. split; [reflexivity|].
    unfold perform.
    destruct (Hinvoke {| self := set_promise (Some (Then p (Create elem (head lvls))))
                                   (self st1);
                         world := world st1 |} Htech Hinst) as (st3 & -> & _).
    reflexivity.
  - destruct (Hinvoke st1 Htech Hinst) as (st3 & Hinv & Hself).
    exists st3. unfold _enqueue, bind, this. cbn [self]. rewrite Hp, Hinv.
    split; [reflexivity|]. rewrite Hself. cbn. rewrite Hp, Hclock. auto.
Qed.

Lemma throwing_technology_takes_two_routes_witness :
  let st := boot throwing_tech 1000 (__constructor "css" "/techs/css.js") in
  (forall instance elem level,
     createByDecl (technology (world st)) instance elem level
     = Throws (Raised (JsString "boom")))
  /\ exists st',
       create sample_elem st = Throw (Raised (JsString "boom")) st'
       /\ _promise (self st') = None
       /\ _tech (self st') <> None
       /\ _testStartTime (self st') = Some (clock (sandbox (world st))).
Proof.
  intros st.
  assert (Hthrows : forall instance elem level,
            createByDecl (technology (world st)) instance elem level
            = Throws (Raised (JsString "boom"))) by reflexivity.
  split; [exact Hthrows|].
  exact (throwing_technology_takes_two_routes st (Raised (JsString "boom"))
           sample_elem Hthrows).
Defined.

(** X20. [notify] tells [done] about the chain as it stood when
    [notify] was called.  An item enqueued afterwards is appended behind
    the callback: [done] is called first, with what the earlier items
    settled to, and only then, and only if that was a fulfilment, is the
    later item started; whatever the later item settles to, no callback
    hears of it. *)
Theorem notify_reports_the_chain_as_it_stood
    (st : State) (p : Promise) (done : string) (op : ChainOp) :
  _promise (self st) = Some p ->
  (notify done;; _enqueue op) st
  = Normal tt {| self := set_promise (Some (Then (Observed p done) op)) (self st);
                 world := world st |}
  /\ forall st0,
       let before := settle p st0 in
       let after := settle (Then (Observed p done) op) st0 in
       exists later,
         journal (world (fst after))
         = journal (world (fst before))
           ++ settled (Called done) (snd before) ++ later
         /\ List.filter about_callbacks later = []
         /\ ((forall v, snd before <> Some (Fulfilled v)) ->
             later = [] /\ snd after = snd before)
         /\ (forall v, snd before = Some (Fulfilled v) ->
             later = Started op :: settled (Finished op) (snd after)).
Proof.
  intros Hp. split.
  - unfold bind at 1. unfold notify, bind, this, member. cbn [self]. rewrite Hp.
    unfold ret, assign. cbn [self world].
    rewrite (enqueue_appends _ _ (Observed p done)) by reflexivity. reflexivity.
  - intros st0 before after. subst before after. cbn [settle].
    destruct (settle p st0) as [st1 r]. cbn [fst snd].
    destruct r as [[v | e]|].
    + eexists. split.
      * rewrite perform_journal. cbn [world journal records settled].
        rewrite <- List.app_assoc. reflexivity.
      * cbn [List.filter about_callbacks].
        split; [apply filter_settled_finished|].
        split; [intros Hnot; now destruct (Hnot v) | reflexivity].
    + exists []. cbn. split; [reflexivity|]. split; [reflexivity|].
      split; [auto | discriminate].
    + exists []. cbn. rewrite app_nil_r. split; [reflexivity|]. split; [reflexivity|].
      split; [auto | discriminate].
Qed.

Lemma notify_reports_the_chain_as_it_stood_witness :
  exists p,
    _promise (self sample_called) = Some p
    /\ (notify "done";; _enqueue (ProducesFile "/y.css")) sample_called
       = Normal tt {| self := set_promise
                                (Some (Then (Observed p "done") (ProducesFile "/y.css")))
                                (self sample_called);
                      world := world sample_called |}.
Proof.
  destruct (_promise (self sample_called)) as [p|] eqn:Hp; [|discriminate Hp].
  exists p. split; [reflexivity|].
  exact (proj1 (notify_reports_the_chain_as_it_stood sample_called p "done"
                  (ProducesFile "/y.css") Hp)).
Defined.

(** How [build] goes on a started chain. *)
Lemma build_on_started_chain
    (st : State) (p : Promise) (output : string) (decl : JsValue) :
  _promise (self st) = Some p ->
  exists st1 instance ctx lvls,
    _load {| self := set_buildDecl (Some decl) (self st); world := world st |}
    = Normal tt st1
    /\ build output decl st
       = Normal tt {| self := set_promise (Some (Then p (Build output decl))) (self st1);
                      world := world st1 |}
    /\ _tech (self st1) = Some instance
    /\ _context (self st1) = Some ctx
    /\ context instance = contextId ctx
    /\ declaration (options ctx) = Some decl
    /\ _levels (self st1) = Some lvls
    /\ level (options ctx) = Some lvls.
Proof.
  intros Hp. destruct st as [t rt]. cbn [self world] in *.
  pose proof (_load_runs (set_buildDecl (Some decl) t) rt) as Hruns.
  cbv zeta in Hruns.
  eexists _, _, _, _. split; [exact Hruns|].
  split.
  { unfold build. unfold bind at 1. unfold assign at 1. cbn [self world].
    unfold bind at 1. rewrite Hruns. apply enqueue_appends. exact Hp. }
  cbn. repeat split.
Qed.

(** X21. A deferred build runs on the objects of the latest load.  Two
    [build] calls on a started chain append two items; when the first of
    them runs it calls [buildByDecl] on the technology instance and with
    the levels the session holds by then, those of the second call's load,
    whose context was constructed with the second declaration, and it
    passes its own declaration and output. *)
Theorem deferred_build_runs_on_the_latest_load
    (st : State) (p : Promise) (output1 output2 : string) (decl1 decl2 : JsValue) :
  _promise (self st) = Some p ->
  exists st' instance ctx lvls,
    (build output1 decl1;; build output2 decl2) st = Normal tt st'
    /\ _promise (self st')
       = Some (Then (Then p (Build output1 decl1)) (Build output2 decl2))
    /\ _tech (self st') = Some instance
    /\ _context (self st') = Some ctx
    /\ context instance = contextId ctx
    /\ declaration (options ctx) = Some decl2
    /\ _levels (self st') = Some lvls
    /\ level (options ctx) = Some lvls
    /\ forall start rt,
         invoke (Build output1 decl1)
           {| self := set_testStartTime start (self st'); world := rt |}
         = foreign (buildByDecl (technology rt) instance decl1 (Some lvls) output1)
             {| self := set_testStartTime (Some (clock (sandbox rt))) (self st');
                world := record (Started (Build output1 decl1)) rt |}.
Proof.
  intros Hp.
  destruct (build_on_started_chain st p output1 decl1 Hp)
    as (st1 & i1 & c1 & l1 & _ & Hrun1 & _).
  set (st1' := {| self := set_promise (Some (Then p (Build output1 decl1))) (self st1);
                  world := world st1 |}) in *.
  destruct (build_on_started_chain st1' (Then p (Build output1 decl1)) output2 decl2
              eq_refl)
    as (st2 & i2 & c2 & l2 & _ & Hrun2 & Hi & Hc & Hic & Hd & Hl & Hcl).
  eexists _, i2, c2, l2. split.
  { unfold bind at 1. rewrite Hrun1. exact Hrun2. }
  cbn [self _promise _tech _context _levels set_promise].
  split; [reflexivity|]. split; [exact Hi|]. split; [exact Hc|].
  split; [exact Hic|]. split; [exact Hd|]. split; [exact Hl|]. split; [exact Hcl|].
  intros start rt.
  unfold invoke, log, effect, now, runtime, assign, this, member, ret. unfold bind.
  cbn [self world record sandbox set_testStartTime set_promise _tech _levels technology
       journal nextId clock].
  rewrite Hi, Hl. reflexivity.
Qed.

Lemma deferred_build_runs_on_the_latest_load_witness :
  exists p st' ctx,
    _promise (self sample_called) = Some p
    /\ (build "/a" (JsString "first");; build "/b" (JsString "second")) sample_called
       = Normal tt st'
    /\ _promise (self st')
       = Some (Then (Then p (Build "/a" (JsString "first")))
                 (Build "/b" (JsString "second")))
    /\ _context (self st') = Some ctx
    /\ declaration (options ctx) = Some (JsString "second").
Proof.
  destruct (_promise (self sample_called)) as [p|] eqn:Hp; [|discriminate Hp].
  destruct (deferred_build_runs_on_the_latest_load sample_called p "/a" "/b"
              (JsString "first") (JsString "second") Hp)
    as (st' & instance & ctx & lvls & Hrun & Hchain & _ & Hctx & _ & Hdecl & _).
  exists p, st', ctx. split; [reflexivity|]. auto.
Defined.

(** X22. Only the items of [create] and [build] of the current revision
    set the start time, and they set it first thing when they are called,
    to the time of that moment: it is set even when the technology then
    throws or is missing.  Every other item, those of the earlier
    revision's actions included, leaves every field of the session as it
    was; the technology and an author's callback are taken to work on the
    sandbox and not to write to the session object. *)
Theorem start_time_is_stamped_when_an_action_item_starts
    (op : ChainOp) (st : State) :
  self (fst (perform op st))
  = if stamps op
    then set_testStartTime (Some (clock (sandbox (world st)))) (self st)
    else self st.
Proof.
  assert (Hid : forall t, set_testStartTime (_testStartTime t) t = t)
    by (intros []; reflexivity).
  unfold perform.
  destruct (invoke op st) as [work st1 | e st1] eqn:Hinv.
  - destruct (finish_frame op work st1) as (_ & -> & _).
    destruct st as [t rt]. revert Hinv.
    unfold invoke, bind, log, effect, this, runtime, now, assign, member, foreign,
      ret, throw.
    destruct op; split_invoke; cbn; intros [= <- <-]; reflexivity.
  - cbn [fst self]. destruct st as [t rt]. revert Hinv.
    unfold invoke, bind, log, effect, this, runtime, now, assign, member, foreign,
      ret, throw.
    destruct op; split_invoke; cbn; intros [= <- <-]; reflexivity.
Qed.

(** ** withContent *)

Lemma append_nil_r (s : string) : s +:+ "" = s.
Proof.
  induction s as [|ch s IH]; [reflexivity|].
  change (String ch (s +:+ "") = String ch s). now rewrite IH.
Qed.

Lemma join_snoc (sep : string) (parts : list string) (last : string) :
  parts <> [] ->
  join sep (parts ++ [last]) = join sep parts +:+ sep +:+ last.
Proof.
  induction parts as [|a rest IH]; [congruence|]. intros _.
  destruct rest as [|b rest]; [reflexivity|].
  change (a +:+ sep +:+ join sep ((b :: rest) ++ [last])
          = (a +:+ sep +:+ join sep (b :: rest)) +:+ sep +:+ last).
  rewrite IH by discriminate. now rewrite !append_assoc.
Qed.

(** X23. An empty string as the last argument of [withContent] stands
    for the line feed that ends the last line: the call expects the other
    arguments joined by line feeds, followed by one more line feed. *)
Theorem withContent_empty_last_argument_ends_the_last_line
    (lines : list string) (st : State) :
  lines <> [] ->
  withContent (lines ++ [""]) st = withContent [join LF lines +:+ LF] st
  /\ withContent (lines ++ [""]) st
     = _enqueue (WithContent (_lastFileName (self st))
                   (Some (join LF lines +:+ LF))) st.
Proof.
  intros Hlines.
  assert (Hrun : withContent (lines ++ [""]) st
     = _enqueue (WithContent (_lastFileName (self st))
                   (Some (join LF lines +:+ LF))) st).
  { unfold withContent, bind, this. cbn [self].
    destruct (decide (1 < length (lines ++ [""]))) as [_ | Hshort].
    - now rewrite join_snoc, append_nil_r.
    - rewrite length_app in Hshort. cbn in Hshort.
      destruct lines; [congruence | cbn in Hshort; lia]. }
  split; [rewrite Hrun; reflexivity | exact Hrun].
Qed.

Lemma withContent_empty_last_argument_ends_the_last_line_witness :
  ["a"; "b"] <> ([] : list string)
  /\ withContent (["a"; "b"] ++ [""]) sample_called
     = withContent [join LF ["a"; "b"] +:+ LF] sample_called.
Proof.
  assert (Hlines : ["a"; "b"] <> ([] : list string)) by discriminate.
  split; [exact Hlines|].
  exact (proj1 (withContent_empty_last_argument_ends_the_last_line
                  ["a"; "b"] sample_called Hlines)).
Defined.

(** X24. [withContent] reads the file that was named by the last
    [producesFile] before it, and keeps to that file when [producesFile] is
    called again later; the message of its assertion is put together when
    the item runs, and names the file of the last [producesFile] of the
    whole body. *)
Theorem withContent_reads_the_file_named_when_it_was_called
    (st : State) (p : Promise) (path later : string) (arguments : list string) :
  _promise (self st) = Some p ->
  let content := if decide (1 < length arguments)
                 then Some (join LF arguments) else head arguments in
  exists st',
    (producesFile path;; withContent arguments;; producesFile later) st
    = Normal tt st'
    /\ _promise (self st')
       = Some (Then (Then (Then p (ProducesFile path))
                       (WithContent (Some path) content))
                 (ProducesFile later))
    /\ world st' = world st
    /\ forall fs start rt,
         _fs (self st') = Some fs ->
         invoke (WithContent (Some path) content)
           {| self := set_testStartTime start (self st'); world := rt |}
         = Normal (EventuallyEqual fs (Some path) content
                     ("expected file " +:+ later +:+ " to have content "
                      +:+ str content))
             {| self := set_testStartTime start (self st');
                world := record (Started (WithContent (Some path) content)) rt |}.
Proof.
  intros Hp content. eexists. split; [|split; [|split]].
  - unfold bind at 1. unfold producesFile at 1. unfold bind at 1, assign at 1.
    rewrite (enqueue_appends _ _ p) by exact Hp.
    unfold bind at 1. unfold withContent, bind at 1, this at 1. cbn [self].
    rewrite (enqueue_appends _ _ (Then p (ProducesFile path))) by reflexivity.
    unfold producesFile, bind, assign.
    rewrite (enqueue_appends _ _ (Then (Then p (ProducesFile path))
                                    (WithContent (Some path) content)))
      by reflexivity.
    reflexivity.
  - reflexivity.
  - reflexivity.
  - intros fs start rt Hfs. cbn [self _fs set_promise set_lastFileName] in Hfs.
    unfold invoke, bind, log, effect, this, member, ret.
    cbn [self world _fs set_testStartTime set_promise set_lastFileName _lastFileName].
    rewrite Hfs. reflexivity.
Qed.

Lemma withContent_reads_the_file_named_when_it_was_called_witness :
  exists p,
    _promise (self sample_called) = Some p
    /\ exists st',
         (producesFile "/x.css";; withContent [".x {}"];; producesFile "/y.css")
           sample_called = Normal tt st'
         /\ _promise (self st')
            = Some (Then (Then (Then p (ProducesFile "/x.css"))
                            (WithContent (Some "/x.css") (Some ".x {}")))
                      (ProducesFile "/y.css")).
Proof.
  destruct (_promise (self sample_called)) as [p|] eqn:Hp; [|discriminate Hp].
  exists p. split; [reflexivity|].
  destruct (withContent_reads_the_file_named_when_it_was_called sample_called p
              "/x.css" "/y.css" [".x {}"] Hp) as (st' & Hrun & Hchain & _).
  exists st'. split; [exact Hrun | exact Hchain].
Defined.

(** ** What producesFile and withContent settle to *)

(** X25. The item of [producesFile], run on a session that has a
    filesystem, asks that filesystem whether the path exists and looks at
    nothing else: it is fulfilled when the answer is yes, and rejected with
    an AssertionError that names the path when it is no.  It changes
    neither the session nor the sandbox.  ([exists] itself belongs to the
    filesystem, and is taken as it is.) *)
Theorem producesFile_checks_existence_only
    (st : State) (fs : nat) (path : string) :
  _fs (self st) = Some fs ->
  let after := perform (ProducesFile path) st in
  snd after
  = Some (if QFSMock.exists_ (vfs (sandbox (world st)) fs) path
          then Fulfilled JsUndefined
          else Rejected (AssertionError ("expected tech to produce file " +:+ path)))
  /\ self (fst after) = self st
  /\ sandbox (world (fst after)) = sandbox (world st).
Proof.
  intros Hfs after. subst after. destruct st as [t rt]. cbn [self world] in *.
  unfold perform, invoke, bind, log, effect, this, member, ret. cbn [self world].
  rewrite Hfs. unfold finish, await, expect.
  cbn [self world sandbox record set_sandbox fst snd].
  destruct (QFSMock.exists_ _ path); repeat split.
Qed.

Lemma producesFile_checks_existence_only_witness :
  _fs (self sample_created) = Some 0
  /\ (let after := perform (ProducesFile "/y.css") sample_created in
      snd after
      = Some (if QFSMock.exists_ (vfs (sandbox (world sample_created)) 0) "/y.css"
              then Fulfilled JsUndefined
              else Rejected (AssertionError
                     ("expected tech to produce file " +:+ "/y.css")))
      /\ self (fst after) = self sample_created
      /\ sandbox (world (fst after)) = sandbox (world sample_created)).
Proof.
  assert (Hfs : _fs (self sample_created) = Some 0) by reflexivity.
  split; [exact Hfs|].
  exact (producesFile_checks_existence_only sample_created 0 "/y.css" Hfs).
Defined.

(** X26. The item of [withContent], run on a session that has a
    filesystem, hands the filesystem's [read] the file name it captured,
    [undefined] when no [producesFile] came before: a rejected read is the
    item's rejection, content equal to the expected one fulfils it, and any
    other content rejects it with an AssertionError whose message names the
    session's last file name and the expected content.  Called without
    arguments [withContent] expects [undefined], which no content read is,
    so that its item is never fulfilled.  The item changes neither the
    session nor the sandbox.  ([read] itself belongs to the filesystem, and
    is taken as it is.) *)
Theorem withContent_item_compares_what_read_yields
    (st : State) (fs : nat) (fileName expected : option string) :
  _fs (self st) = Some fs ->
  let after := perform (WithContent fileName expected) st in
  snd after
  = Some (match QFSMock.read_path (vfs (sandbox (world st)) fs) fileName with
          | inl e => Rejected e
          | inr actual =>
              if decide (expected = Some actual) then Fulfilled JsUndefined
              else Rejected (AssertionError
                     ("expected file " +:+ str (_lastFileName (self st))
                      +:+ " to have content " +:+ str expected))
          end)
  /\ (expected = None -> forall v, snd after <> Some (Fulfilled v))
  /\ self (fst after) = self st
  /\ sandbox (world (fst after)) = sandbox (world st).
Proof.
  intros Hfs after. subst after. destruct st as [t rt]. cbn [self world] in *.
  unfold perform, invoke, bind, log, effect, this, member, ret. cbn [self world].
  rewrite Hfs. unfold finish, await, expect.
  cbn [self world sandbox record set_sandbox fst snd].
  destruct (QFSMock.read_path _ fileName) as [e | actual];
    cbn [fst snd self world sandbox records set_sandbox].
  - repeat split. intros -> v. discriminate.
  - destruct (decide (expected = Some actual)) as [-> | Hne].
    + rewrite bool_decide_eq_true_2 by reflexivity. repeat split. discriminate.
    + rewrite bool_decide_eq_false_2 by congruence. repeat split. discriminate.
Qed.

Lemma withContent_item_compares_what_read_yields_witness :
  _fs (self sample_created) = Some 0
  /\ (forall v,
        snd (perform (WithContent (Some "/x.css") None) sample_created)
        <> Some (Fulfilled v))
  /\ snd (perform (WithContent None (Some ".x {}")) sample_created)
     = Some (match QFSMock.read_path (vfs (sandbox (world sample_created)) 0) None with
             | inl e => Rejected e
             | inr actual =>
                 if decide (Some ".x {}" = Some actual) then Fulfilled JsUndefined
                 else Rejected (AssertionError
                        ("expected file " +:+ str (_lastFileName (self sample_created))
                         +:+ " to have content " +:+ str (Some ".x {}")))
             end).
Proof.
  assert (Hfs : _fs (self sample_created) = Some 0) by reflexivity.
  split; [exact Hfs|]. split.
  - exact (proj1 (proj2 (withContent_item_compares_what_read_yields
                           sample_created 0 (Some "/x.css") None Hfs)) eq_refl).
  - exact (proj1 (withContent_item_compares_what_read_yields
                    sample_created 0 None (Some ".x {}") Hfs)).
Defined.

(** ** index.js and the session together *)

(** X27. The session [testTech] makes from a module path alone, after
    its first [create]: the registry binds the derived name to the module
    path and nothing else, there is one level, at ["/"], which answers
    [getTechs] with that registry, and the context is constructed over that
    level with the module path as its only technology. *)
Theorem testTech_session_serves_its_module
    (basename stripModuleExt : string -> string) (modulePath : string)
    (technology : TechModule) (startedAt : Z) (elem : JsValue) :
  exists t lvl ctx,
    testTech basename stripModuleExt [modulePath] = Some t
    /\ let st := outcome (create elem (boot technology startedAt t)) in
       let served : gmap string string :=
         {[stripModuleExt (basename modulePath) := modulePath]} in
       _techMap (self st) = Some served
       /\ _levels (self st) = Some [lvl]
       /\ Level.dir (StubLevel.base lvl) = "/"
       /\ StubLevel.getTechs lvl = served
       /\ _context (self st) = Some ctx
       /\ primary ctx = Some lvl
       /\ tech (options ctx) = [modulePath].
Proof.
  set (t := __constructor (stripModuleExt (basename modulePath)) modulePath).
  set (st0 := boot technology startedAt t).
  destruct (create_unfolds elem st0) as (st1 & lvls & Hload & _ & Hrun).
  pose proof (_load_runs t (world st0)) as Hruns. cbv zeta in Hruns.
  change {| self := t; world := world st0 |} with st0 in Hruns.
  rewrite Hruns in Hload. injection Hload as <-.
  eexists t, _, _. split; [reflexivity|]. cbv zeta. fold st0. rewrite Hrun.
  match goal with |- context [_enqueue ?op ?s] =>
    pose proof (enqueue_keeps_configuration op s) as Hk end.
  cbv zeta in Hk. destruct Hk as (-> & -> & _ & -> & _).
  cbn. unfold registry, paths_of. cbn.
  rewrite insert_empty, map_to_list_singleton. repeat split.
Qed.

(** ** The technology registry over a session *)

(** A call other than [withTechMap] leaves the technology under test in
    the session's tech map, whether it returns or throws. *)
Lemma registered_call (c : Call) (st : State) :
  sets_techMap c = false ->
  registered st -> registered (outcome (call c st)).
Proof.
  intros Hset (reg & Hmap & Hentry).
  destruct (serves_call c st) as [[Hname Hpath] _].
  unfold registered. rewrite Hname, Hpath.
  destruct (acts c) eqn:Hact.
  - pose proof (action_effect c st Hact) as Heffect. cbv zeta in Heffect.
    destruct Heffect as (_ & _ & _ & -> & _).
    exists (registry (self st)). split; [reflexivity|]. apply lookup_insert_eq.
  - exists reg. split; [|exact Hentry]. rewrite <- Hmap.
    assert (Henq : forall op st1,
              _techMap (self st1) = _techMap (self st) ->
              _techMap (self (outcome (_enqueue op st1))) = _techMap (self st)).
    { intros op st1 H1. pose proof (enqueue_keeps_configuration op st1) as Hk.
      cbv zeta in Hk. destruct Hk as (_ & -> & _). exact H1. }
    destruct c; try discriminate; cbn [call].
    + reflexivity.
    + unfold withMockedModules. destruct (_ || _); reflexivity.
    + reflexivity.
    + reflexivity.
    + reflexivity.
    + now apply Henq.
    + unfold producesFile, bind, assign. now apply Henq.
    + unfold withContent, bind, this. now apply Henq.
    + now apply Henq.
    + now apply Henq.
    + unfold notify, bind, this, member. cbn.
      destruct (_promise (self st)); reflexivity.
    + now apply Henq.
Qed.

Lemma registered_body (calls : list Call) : forall st,
  Forall (fun c => sets_techMap c = false) calls ->
  registered st -> registered (outcome (body calls st)).
Proof.
  induction calls as [|c calls IH]; intros st Hquiet Hreg; [exact Hreg|].
  apply Forall_cons in Hquiet as [Hc Hquiet].
  cbn [body]. unfold bind. pose proof (registered_call c st Hc Hreg) as Hcall.
  destruct (call c st) as [[] st1 | e st1]; cbn [outcome] in *; auto.
Qed.

Lemma registered_drain (st : State) : registered st -> registered (drain st).
Proof.
  unfold drain. destruct (_promise (self st)) as [p|]; [|auto].
  destruct (settle_self p st) as [start Hself].
  unfold registered. now rewrite Hself.
Qed.

(** C7, as amended.  Every materialization leaves in [_techMap] a
    registry that binds the name of the technology under test to the module
    path under test and agrees with the author's tech map on every other
    name; that registry is the one every stub level answers [getTechs]
    with, and the context is constructed over those levels and is handed
    every path the registry holds.  From then on the levels and the context
    the session holds know the technology under test, whatever is called
    and whether or not it throws, and after the event loop has run.  The
    session's own [_techMap] keeps the entry as long as [withTechMap] is not
    called; a [withTechMap] replaces it with the author's map as it is
    given, and the next action writes the entry into that map. *)
Theorem registry_holds_tech_under_test (st : State) :
  exists st' reg lvls ctx,
    _load st = Normal tt st'
    /\ _techMap (self st') = Some reg
    /\ reg = <[_techName (self st) := _modulePath (self st)]>
               (default ∅ (_techMap (self st)))
    /\ reg !! _techName (self st) = Some (_modulePath (self st))
    /\ (forall name, name <> _techName (self st) ->
          reg !! name = default ∅ (_techMap (self st)) !! name)
    /\ _levels (self st') = Some lvls
    /\ Forall (fun l => StubLevel.getTechs l = reg) lvls
    /\ _context (self st') = Some ctx
    /\ level (options ctx) = Some lvls
    /\ primary ctx = head lvls
    /\ (forall name path, reg !! name = Some path -> path ∈ tech (options ctx))
    /\ (forall calls,
          serves (outcome (body calls st'))
          /\ serves (drain (outcome (body calls st'))))
    /\ (forall calls,
          Forall (fun c => sets_techMap c = false) calls ->
          registered (outcome (body calls st'))
          /\ registered (drain (outcome (body calls st'))))
    /\ (forall techMap c,
          _techMap (self (outcome (withTechMap techMap st'))) = Some techMap
          /\ (acts c = true ->
              _techMap (self (outcome (call c (outcome (withTechMap techMap st')))))
              = Some (<[_techName (self st) := _modulePath (self st)]> techMap))).
Proof.
  destruct st as [t rt]. pose proof (_load_runs t rt) as Hload. cbv zeta in Hload.
  match type of Hload with _ = Normal tt ?s => set (st1 := s) in * end.
  assert (Hserves : serves st1).
  { destruct (serves_loaded {| self := t; world := rt |}) as (s & Hl & _ & Hs).
    rewrite Hload in Hl. injection Hl as Heq. now rewrite Heq. }
  assert (Hreg : registered st1).
  { exists (registry t). split; [reflexivity|]. apply lookup_insert_eq. }
  eexists st1, (registry t), _, _. split; [exact Hload|].
  cbn [self world].
  split; [reflexivity|]. split; [reflexivity|]. split; [apply lookup_insert_eq|].
  split; [intros name Hne; now apply lookup_insert_ne|].
  split; [reflexivity|]. split; [apply stub_levels_techs|].
  split; [reflexivity|]. split; [reflexivity|]. split; [reflexivity|].
  split; [intros name path; apply path_in_paths_of|].
  split.
  { intros calls. destruct (serves_body calls st1) as [_ Hs].
    split; [auto | apply serves_drain; auto]. }
  split.
  { intros calls Hquiet. pose proof (registered_body calls st1 Hquiet Hreg) as H.
    split; [exact H | now apply registered_drain]. }
  intros techMap c. split; [reflexivity|]. intros Hact.
  pose proof (action_effect c (outcome (withTechMap techMap st1)) Hact) as Heffect.
  cbv zeta in Heffect. destruct Heffect as (_ & _ & _ & -> & _).
  reflexivity.
Qed.

(** C7 as stated fails on the code: the sample session is materialized
    by its [create], a [withTechMap] after that replaces the session's tech
    map, and the map the materialized session then holds has no entry for
    the technology under test. *)
Lemma withTechMap_after_materialization_drops_the_entry :
  let replaced := outcome (withTechMap {["base" := "/techs/base.js"]} sample_called) in
  (_fs (self sample_called) <> None /\ _levels (self sample_called) <> None
   /\ _context (self sample_called) <> None /\ _tech (self sample_called) <> None)
  /\ (_techMap (self sample_called) ≫= (.!! "css")) = Some "/techs/css.js"
  /\ (_fs (self replaced) <> None /\ _levels (self replaced) <> None
      /\ _context (self replaced) <> None /\ _tech (self replaced) <> None)
  /\ _techName (self replaced) = "css"
  /\ (_techMap (self replaced) ≫= (.!! "css")) = None.
Proof. vm_compute. repeat split; discriminate. Qed.
